(** * Minaret (azan) prayer-time scheduling: a shallow embedding

    The development follows the Python sources

    - [custom_components/azan/const.py]       (constants),
    - [custom_components/azan/coordinator.py] (normalisation and refresh),
    - [custom_components/azan/__init__.py]    (selection, timers, playback),
    - [custom_components/azan/sensor.py]      (exposed sensors).

    Conventions.  A Python [str] is a [string]; the model covers the
    code points below 256.  A [datetime] is an integer count of
    microseconds on the local wall-clock time line.  A function that may
    raise returns a [res].  The mutable [store] dictionary, the pending
    one-shot timers and the created tasks are threaded explicitly in a
    [Hass] record. *)

From Stdlib Require Import ZArith Ascii String Lia Bool.
From stdpp Require Import base list sorting gmap strings.

Local Open Scope string_scope.
Local Open Scope list_scope.
Local Open Scope Z_scope.

(** ** Exceptions *)

Inductive exn : Set :=
| BuiltinError   (* ValueError or OverflowError of int() and datetime.replace() *)
| IndexError     (* subscript out of range *)
| UpdateFailed.  (* raised by the coordinator when the fetch fails *)

Inductive res (A : Type) : Type :=
| Ok (a : A)
| Raise (e : exn).

Arguments Ok {A} a.
Arguments Raise {A} e.

(** Sequencing: the first exception raised propagates. *)
#[global] Instance res_ret : MRet res := λ A a, Ok a.
#[global] Instance res_bind : MBind res := λ A B k m,
  match m with
  | Ok a => k a
  | Raise e => Raise e
  end.

(** ** The Python builtins the code relies on *)

Module Py.

Definition code (c : ascii) : Z := Z.of_nat (nat_of_ascii c).

(** [str.isspace] on one character, as used by [str.strip()]. *)
Definition is_space (c : ascii) : bool :=
  let n := code c in
  ((9 <=? n) && (n <=? 13)) || ((28 <=? n) && (n <=? 32))
  || (n =? 133) || (n =? 160).

(** White space accepted by [int()] around the digits. *)
Definition int_space (c : ascii) : bool :=
  let n := code c in
  ((9 <=? n) && (n <=? 13)) || (n =? 32) || (n =? 133) || (n =? 160).

Definition is_digit (c : ascii) : bool :=
  let n := code c in (48 <=? n) && (n <=? 57).

Definition digit_val (c : ascii) : Z := code c - 48.

Definition is_empty (s : string) : bool :=
  match s with EmptyString => true | String _ _ => false end.

Fixpoint lstrip (s : string) : string :=
  match s with
  | EmptyString => EmptyString
  | String c s' => if is_space c then lstrip s' else s
  end.

Fixpoint rstrip (s : string) : string :=
  match s with
  | EmptyString => EmptyString
  | String c s' =>
      let r := rstrip s' in
      if is_space c && is_empty r then EmptyString else String c r
  end.

(** [s.strip()] *)
Definition strip (s : string) : string := rstrip (lstrip s).

(** [s.rstrip(ch)] for a one-character argument. *)
Fixpoint rstrip_char (ch : ascii) (s : string) : string :=
  match s with
  | EmptyString => EmptyString
  | String c s' =>
      let r := rstrip_char ch s' in
      if Ascii.eqb c ch && is_empty r then EmptyString else String c r
  end.

(** [s.split(sep)] for a one-character separator: never empty. *)
Fixpoint split (sep : ascii) (s : string) : list string :=
  match s with
  | EmptyString => [EmptyString]
  | String c s' =>
      if Ascii.eqb c sep then EmptyString :: split sep s'
      else match split sep s' with
           | [] => [String c EmptyString]
           | w :: ws => String c w :: ws
           end
  end.

(** [l[i]] *)
Definition subscript {A : Type} (l : list A) (i : nat) : res A :=
  match l !! i with
  | Some x => Ok x
  | None => Raise IndexError
  end.

(** [sys.int_max_str_digits] default. *)
Definition MAX_STR_DIGITS : Z := 4300.

(** The run of digits and single underscores read by [int()]:
    accumulated value, number of digits, and whether the previous
    character was an underscore.  [None] on a doubled underscore. *)
Fixpoint scan_digits (s : string) (prev_us : bool) (acc ndig : Z)
  : option (Z * Z * bool * string) :=
  match s with
  | EmptyString => Some (acc, ndig, prev_us, s)
  | String c s' =>
      if is_digit c then scan_digits s' false (10 * acc + digit_val c) (ndig + 1)
      else if Ascii.eqb c "_" then
        if prev_us then None else scan_digits s' true acc ndig
      else Some (acc, ndig, prev_us, s)
  end.

Fixpoint drop_int_space (s : string) : string :=
  match s with
  | EmptyString => EmptyString
  | String c s' => if int_space c then drop_int_space s' else s
  end.

(** [int(s)] in base ten. *)
Definition int (s : string) : res Z :=
  let s1 := drop_int_space s in
  let '(neg, s2) :=
    match s1 with
    | String "+" r => (false, r)
    | String "-" r => (true, r)
    | _ => (false, s1)
    end in
  match s2 with
  | String "_" _ => Raise BuiltinError
  | _ =>
      match scan_digits s2 false 0 0 with
      | None => Raise BuiltinError
      | Some (v, ndig, last_us, rest) =>
          if last_us then Raise BuiltinError
          else if ndig =? 0 then Raise BuiltinError
          else if negb (is_empty (drop_int_space rest)) then Raise BuiltinError
          else if MAX_STR_DIGITS <? ndig then Raise BuiltinError
          else Ok (if neg : bool then - v else v)
      end
  end.

Definition digit_char (d : Z) : ascii := ascii_of_nat (Z.to_nat (48 + d)).

(** Decimal digits of a non-negative integer, most significant first. *)
Fixpoint decimal_fuel (fuel : nat) (n : Z) (acc : string) : string :=
  match fuel with
  | O => acc
  | S f =>
      let acc' := String (digit_char (n mod 10)) acc in
      if n <? 10 then acc' else decimal_fuel f (n / 10) acc'
  end.

Definition decimal (n : Z) : string :=
  decimal_fuel (S (Z.to_nat (Z.log2 n))) n EmptyString.

(** [f"{n:02d}"] *)
Definition format_02d (n : Z) : string :=
  if n <? 0 then String "-" (decimal (- n))
  else if n <? 10 then String "0" (decimal n)
  else decimal n.

(** [os.path.basename(p)] *)
Definition basename (p : string) : string :=
  match reverse (split "/" p) with
  | [] => EmptyString
  | last :: _ => last
  end.

End Py.

(** ** Dates and times *)

Definition datetime := Z.

Definition US_PER_MINUTE : Z := 60 * 1000000.
Definition US_PER_HOUR : Z := 60 * US_PER_MINUTE.
Definition US_PER_DAY : Z := 24 * US_PER_HOUR.

(** [timedelta(minutes=m)] *)
Definition timedelta_minutes (m : Z) : Z := m * US_PER_MINUTE.

Definition midnight_of (t : datetime) : datetime := t - t mod US_PER_DAY.

(** [t.replace(hour=h, minute=m, second=0, microsecond=0)] *)
Definition replace_hm (t : datetime) (h m : Z) : res datetime :=
  if (0 <=? h) && (h <=? 23) && (0 <=? m) && (m <=? 59)
  then Ok (midnight_of t + h * US_PER_HOUR + m * US_PER_MINUTE)
  else Raise BuiltinError.

(** A wall-clock time on the day that starts at [day]. *)
Definition at_hm (day : datetime) (h m : Z) : datetime :=
  day + h * US_PER_HOUR + m * US_PER_MINUTE.

(** ** const.py *)

Definition PLAYBACK_ANDROID_VLC : string := "android_vlc".
Definition PLAYBACK_MEDIA_PLAYER : string := "media_player".

Definition SOUND_OPTION_FULL : string := "full".
Definition SOUND_OPTION_SHORT : string := "short".
Definition SOUND_OPTION_CUSTOM : string := "custom".

Definition SOURCE_ALADHAN : string := "aladhan".
Definition SOURCE_QATAR_MOI : string := "qatar_moi".

Definition PRAYER_ORDER : list string :=
  ["Fajr"; "Sunrise"; "Dhuhr"; "Asr"; "Maghrib"; "Isha"].

Definition DEFAULT_OFFSET_MINUTES : Z := 0.

(** ** Configuration

    [config] is the merged dictionary [{**entry.data, **entry.options}].
    A field is [None] when the key is absent.  [media_player] holds one
    entity id or a list of them. *)

Inductive player_cfg : Type :=
| OnePlayer (entity : string)
| ManyPlayers (entities : list string).

Record Config : Type := {
  prayer_source : option string;
  city : option string;
  country : option string;
  prayer_fajr : option bool;
  prayer_sunrise : option bool;
  prayer_dhuhr : option bool;
  prayer_asr : option bool;
  prayer_maghrib : option bool;
  prayer_isha : option bool;
  offset_minutes : option Z;
  playback_mode : option string;
  media_player : option player_cfg;
  notify_service : option string;
  external_url : option string;
  sound_fajr : option string;
  sound_sunrise : option string;
  sound_dhuhr : option string;
  sound_asr : option string;
  sound_maghrib : option string;
  sound_isha : option string
}.

(** [d.get(key, dflt)] on an optional field. *)
Definition get {A : Type} (field : option A) (dflt : A) : A :=
  match field with
  | Some v => v
  | None => dflt
  end.

(** ** coordinator.py *)

(** One entry of [PrayerData.prayers]: the dict with keys
    ["name"], ["time"], ["time_str"], ["enabled"]. *)
Record Prayer : Type := {
  name : string;
  time : datetime;
  time_str : string;
  enabled : bool
}.

Record PrayerData : Type := {
  prayers : list Prayer;
  date : string;
  played_today : gset string
}.

(** [PrayerData(prayers=..., date=...)] *)
Definition PrayerData_init (ps : list Prayer) (d : string) : PrayerData :=
  {| prayers := ps; date := d; played_today := ∅ |}.

Definition with_played (d : PrayerData) (s : gset string) : PrayerData :=
  {| prayers := prayers d; date := date d; played_today := s |}.

(** A raw provider mapping, in the iteration order of the dict. *)
Definition raw_times : Type := list (string * string).

(** [l.index(x)] *)
Fixpoint index_of (x : string) (l : list string) : option nat :=
  match l with
  | [] => None
  | y :: l' => if decide (x = y) then Some O else S <$> index_of x l'
  end.

(** The sort key [PRAYER_ORDER.index(x[0]) if x[0] in PRAYER_ORDER else 99]. *)
Definition sort_key (x : string * string) : nat :=
  if bool_decide (x.1 ∈ PRAYER_ORDER)
  then match index_of x.1 PRAYER_ORDER with Some i => i | None => O end
  else 99%nat.

(** [sorted(items, key=sort_key)]: a stable sort. *)
Fixpoint insert_by (key : string * string → nat) (x : string * string)
  (l : list (string * string)) : list (string * string) :=
  match l with
  | [] => [x]
  | y :: l' =>
      if (key x <=? key y)%nat then x :: y :: l' else y :: insert_by key x l'
  end.

Definition sorted_by (key : string * string → nat) (l : list (string * string))
  : list (string * string) :=
  foldr (insert_by key) [] l.

(** The [enabled_map] built from the prayer toggles, read with
    [enabled_map.get(name, False)]. *)
Definition enabled_map (config : Config) (nm : string) : bool :=
  if String.eqb nm "Fajr" then get (prayer_fajr config) true
  else if String.eqb nm "Sunrise" then get (prayer_sunrise config) false
  else if String.eqb nm "Dhuhr" then get (prayer_dhuhr config) true
  else if String.eqb nm "Asr" then get (prayer_asr config) true
  else if String.eqb nm "Maghrib" then get (prayer_maghrib config) true
  else if String.eqb nm "Isha" then get (prayer_isha config) true
  else false.

(** [name in ("Asr", "Maghrib", "Isha")] *)
Definition is_afternoon (nm : string) : bool :=
  String.eqb nm "Asr" || String.eqb nm "Maghrib" || String.eqb nm "Isha".

(** [time_str.strip().split(" ")[0].split("(")[0].strip()] *)
Definition clean_time (time_str : string) : res string :=
  t1 ← Py.subscript (Py.split " " (Py.strip time_str)) 0;
  t2 ← Py.subscript (Py.split "(" t1) 0;
  mret (Py.strip t2).

(** The hour after the twelve-hour adjustment of the afternoon prayers. *)
Definition adjust_hour (nm : string) (hour : Z) : Z :=
  if is_afternoon nm && (hour <? 10) then hour + 12 else hour.

(** The hour and minute read from one time string: [None] stands for
    the [continue] taken when no colon-separated pair is found. *)
Definition parse_hour_minute (time_str : string) : res (option (Z * Z)) :=
  time_clean ← clean_time time_str;
  let parts := Py.split ":" time_clean in
  if (length parts <? 2)%nat then mret None
  else
    p0 ← Py.subscript parts 0;
    hour ← Py.int p0;
    p1 ← Py.subscript parts 1;
    minute ← Py.int p1;
    mret (Some (hour, minute)).

(** [f"{hour:02d}:{minute:02d}"] *)
Definition render_hhmm (hour minute : Z) : string :=
  Py.format_02d hour +:+ ":" +:+ Py.format_02d minute.

(** The body of the loop for one recognised entry: [None] stands for
    [continue], [Some p] for the appended prayer. *)
Definition parse_entry (now : datetime) (config : Config)
  (nm time_str : string) : res (option Prayer) :=
  r ← parse_hour_minute time_str;
  match r with
  | None => mret None
  | Some (hour, minute) =>
      let hour := adjust_hour nm hour in
      prayer_time ← replace_hm now hour minute;
      mret (Some {| name := nm;
                    time := prayer_time;
                    time_str := render_hhmm hour minute;
                    enabled := enabled_map config nm |})
  end.

(** The [for name, time_str in entries] loop, [acc] being [prayers]. *)
Fixpoint normalize_loop (now : datetime) (config : Config)
  (acc : list Prayer) (entries : list (string * string)) : res (list Prayer) :=
  match entries with
  | [] => mret acc
  | (nm, time_str) :: rest =>
      if bool_decide (nm ∉ PRAYER_ORDER) then normalize_loop now config acc rest
      else
        r ← parse_entry now config nm time_str;
        match r with
        | None => normalize_loop now config acc rest
        | Some p => normalize_loop now config (acc ++ [p]) rest
        end
  end.

(** [AzanCoordinator._normalize_times]; [now] is [datetime.now()]. *)
Definition normalize_times (now : datetime) (config : Config) (raw : raw_times)
  : res (list Prayer) :=
  let entries := sorted_by sort_key raw in
  normalize_loop now config [] entries.

(** What the two providers answer: the mapping, or an exception. *)
Record Upstream : Type := {
  fetch_qatar_moi : res raw_times;
  fetch_aladhan : res raw_times
}.

(** The provider asked, by [config.get(CONF_PRAYER_SOURCE, SOURCE_QATAR_MOI)]. *)
Definition fetch (up : Upstream) (config : Config) : res raw_times :=
  let source := get (prayer_source config) SOURCE_QATAR_MOI in
  if String.eqb source SOURCE_QATAR_MOI then fetch_qatar_moi up
  else fetch_aladhan up.

(** [AzanCoordinator._async_update_data]; [data] is [self.data], [today]
    is [datetime.now().strftime("%Y-%m-%d")]. *)
Definition async_update_data (up : Upstream) (today : string) (now : datetime)
  (config : Config) (data : option PrayerData) : res PrayerData :=
  match fetch up config with
  | Raise _ => Raise UpdateFailed
  | Ok raw =>
      ps ← normalize_times now config raw;
      let new := PrayerData_init ps today in
      match data with
      | Some old =>
          if String.eqb (date old) today
          then mret (with_played new (played_today old))
          else mret new
      | None => mret new
      end
  end.

(** ** __init__.py: the store, the timers and the tasks *)

(** What a pending timer runs when it fires.  [_prayer_callback] closes
    over [next_prayer]; [_reset_playing] closes over [prayer_name]. *)
Inductive Callback : Type :=
| PrayerCallback (next_prayer : Prayer)
| MidnightRefresh
| ResetPlaying (prayer_name : string).

Record Timer : Type := {
  handle : nat;
  fire_at : datetime;
  callback : Callback
}.

(** Coroutines handed to [hass.async_create_task]. *)
Inductive Task : Type :=
| PlayAzanTask (prayer_name : string)
| RefreshTask.

(** Calls made through [hass.services.async_call]. *)
Inductive ServiceCall : Type :=
| PlayMedia (entity_id media_content_id : string)
| NotifyScreenOn (service : string)
| NotifyActivity (service intent_uri : string).

(** [hass.data[DOMAIN][entry.entry_id]]; [coordinator_data] is
    [store["coordinator"].data]. *)
Record Store : Type := {
  coordinator_data : option PrayerData;
  is_playing : bool;
  currently_playing : option string;
  is_downloading : bool;
  audio_file : option string;
  full_audio_file : option string;
  short_audio_file : option string;
  fajr_audio_file : option string;
  unsub_timer : option nat;
  playback_reset_unsub : option nat
}.

Record Hass : Type := {
  store : option Store;
  timers : list Timer;
  next_handle : nat;
  tasks : list Task;
  service_calls : list ServiceCall
}.

(** What the host answers during one operation. *)
Record Env : Type := {
  clock : datetime;                    (* dt_util.now() *)
  path_exists : string → bool;         (* os.path.exists *)
  get_url_internal : option string;    (* get_url(hass, allow_internal=True, prefer_external=False) *)
  get_url_external : option string;    (* get_url(hass, allow_external=True, prefer_external=True) *)
  get_url_default : option string;     (* get_url(hass); None when it raises *)
  call_raises : ServiceCall → bool     (* whether the service call raises *)
}.

Definition set_store (h : Hass) (st : Store) : Hass :=
  {| store := Some st; timers := timers h; next_handle := next_handle h;
     tasks := tasks h; service_calls := service_calls h |}.

Definition set_unsub_timer (st : Store) (u : option nat) : Store :=
  {| coordinator_data := coordinator_data st; is_playing := is_playing st;
     currently_playing := currently_playing st;
     is_downloading := is_downloading st; audio_file := audio_file st;
     full_audio_file := full_audio_file st;
     short_audio_file := short_audio_file st;
     fajr_audio_file := fajr_audio_file st;
     unsub_timer := u; playback_reset_unsub := playback_reset_unsub st |}.

Definition set_playback_reset_unsub (st : Store) (u : option nat) : Store :=
  {| coordinator_data := coordinator_data st; is_playing := is_playing st;
     currently_playing := currently_playing st;
     is_downloading := is_downloading st; audio_file := audio_file st;
     full_audio_file := full_audio_file st;
     short_audio_file := short_audio_file st;
     fajr_audio_file := fajr_audio_file st;
     unsub_timer := unsub_timer st; playback_reset_unsub := u |}.

Definition set_playing (st : Store) (b : bool) (cur : option string) : Store :=
  {| coordinator_data := coordinator_data st; is_playing := b;
     currently_playing := cur;
     is_downloading := is_downloading st; audio_file := audio_file st;
     full_audio_file := full_audio_file st;
     short_audio_file := short_audio_file st;
     fajr_audio_file := fajr_audio_file st;
     unsub_timer := unsub_timer st;
     playback_reset_unsub := playback_reset_unsub st |}.

Definition set_data (st : Store) (d : option PrayerData) : Store :=
  {| coordinator_data := d; is_playing := is_playing st;
     currently_playing := currently_playing st;
     is_downloading := is_downloading st; audio_file := audio_file st;
     full_audio_file := full_audio_file st;
     short_audio_file := short_audio_file st;
     fajr_audio_file := fajr_audio_file st;
     unsub_timer := unsub_timer st;
     playback_reset_unsub := playback_reset_unsub st |}.

(** Calling the cancellation handle [u]: a no-op once the timer fired. *)
Definition cancel (u : nat) (h : Hass) : Hass :=
  {| store := store h;
     timers := filter (λ t, handle t ≠ u) (timers h);
     next_handle := next_handle h; tasks := tasks h;
     service_calls := service_calls h |}.

(** [async_track_point_in_time(hass, cb, at)]: registers the one-shot
    timer and returns its cancellation handle. *)
Definition async_track_point_in_time (h : Hass) (cb : Callback) (at_ : datetime)
  : Hass * nat :=
  let u := next_handle h in
  ({| store := store h;
      timers := timers h ++ [{| handle := u; fire_at := at_; callback := cb |}];
      next_handle := S u; tasks := tasks h;
      service_calls := service_calls h |}, u).

(** [hass.async_create_task(coro)] *)
Definition async_create_task (h : Hass) (t : Task) : Hass :=
  {| store := store h; timers := timers h; next_handle := next_handle h;
     tasks := tasks h ++ [t]; service_calls := service_calls h |}.

(** The offset of one prayer: the configured minutes for Sunrise, zero
    for every other name. *)
Definition offset_of (config : Config) (nm : string) : Z :=
  if String.eqb nm "Sunrise"
  then get (offset_minutes config) DEFAULT_OFFSET_MINUTES
  else 0.

(** The [for prayer in coordinator.data.prayers] loop of
    [_schedule_next_prayer]: [continue] goes to the rest of the list,
    [break] returns the prayer. *)
Fixpoint find_next_prayer (config : Config) (played : gset string)
  (now : datetime) (ps : list Prayer) : option Prayer :=
  match ps with
  | [] => None
  | prayer :: rest =>
      if negb (enabled prayer) then find_next_prayer config played now rest
      else if bool_decide (name prayer ∈ played)
      then find_next_prayer config played now rest
      else
        let this_offset := offset_of config (name prayer) in
        let target_time := time prayer - timedelta_minutes this_offset in
        if now <? target_time then Some prayer
        else find_next_prayer config played now rest
  end.

(** The selection on a schedule. *)
Definition select (config : Config) (data : PrayerData) (now : datetime)
  : option Prayer :=
  find_next_prayer config (played_today data) now (prayers data).

(** [(now + timedelta(days=1)).replace(hour=0, minute=1, second=0, microsecond=0)] *)
Definition tomorrow_refresh (now : datetime) : datetime :=
  at_hm (midnight_of (now + US_PER_DAY)) 0 1.

(** [_schedule_next_prayer(hass, entry)] *)
Definition schedule_next_prayer (env : Env) (config : Config) (h : Hass) : Hass :=
  match store h with
  | None => h
  | Some st =>
      (* Cancel existing timer *)
      let h1 :=
        match unsub_timer st with
        | Some u => set_store (cancel u h) (set_unsub_timer st None)
        | None => h
        end in
      let st1 := match unsub_timer st with
                 | Some _ => set_unsub_timer st None
                 | None => st
                 end in
      match coordinator_data st1 with
      | None => h1
      | Some data =>
          let now := clock env in
          match select config data now with
          | None =>
              let '(h2, u) :=
                async_track_point_in_time h1 MidnightRefresh (tomorrow_refresh now) in
              set_store h2 (set_unsub_timer st1 (Some u))
          | Some next_prayer =>
              let offset := offset_of config (name next_prayer) in
              let target_time := time next_prayer - timedelta_minutes offset in
              let '(h2, u) :=
                async_track_point_in_time h1 (PrayerCallback next_prayer) target_time in
              set_store h2 (set_unsub_timer st1 (Some u))
          end
      end
  end.

(** [_prayer_callback(_now)]; the coordinator captured by the closure is
    the one held by the store. *)
Definition prayer_callback (env : Env) (config : Config) (next_prayer : Prayer)
  (h : Hass) : Hass :=
  let prayer_name := name next_prayer in
  let already :=
    match store h with
    | Some st =>
        match coordinator_data st with
        | Some data => bool_decide (prayer_name ∈ played_today data)
        | None => false
        end
    | None => false
    end in
  if already then schedule_next_prayer env config h
  else async_create_task h (PlayAzanTask prayer_name).

(** [_midnight_refresh(_now)] *)
Definition midnight_refresh (env : Env) (config : Config) (h : Hass) : Hass :=
  schedule_next_prayer env config (async_create_task h RefreshTask).

(** [_reset_playing(_now)] *)
Definition reset_playing (prayer_name : string) (h : Hass) : Hass :=
  match store h with
  | None => h
  | Some st =>
      if bool_decide (currently_playing st = Some prayer_name)
      then set_store h (set_playing st false None)
      else h
  end.

(** ** __init__.py: playback *)

(** Truthiness of an optional string. *)
Definition truthy (o : option string) : bool :=
  match o with
  | Some s => negb (Py.is_empty s)
  | None => false
  end.

(** [a or b] *)
Definition or_else (a b : option string) : option string :=
  if truthy a then a else b.

(** [not audio_file or not os.path.exists(audio_file)] *)
Definition unavailable (env : Env) (f : option string) : bool :=
  match f with
  | Some p => Py.is_empty p || negb (path_exists env p)
  | None => true
  end.

(** The per-prayer sound selection. *)
Definition sound_selection (config : Config) (prayer_name : string) : string :=
  if String.eqb prayer_name "Test" then SOUND_OPTION_SHORT
  else if String.eqb prayer_name "Fajr" then get (sound_fajr config) SOUND_OPTION_FULL
  else if String.eqb prayer_name "Sunrise" then get (sound_sunrise config) SOUND_OPTION_FULL
  else if String.eqb prayer_name "Dhuhr" then get (sound_dhuhr config) SOUND_OPTION_FULL
  else if String.eqb prayer_name "Asr" then get (sound_asr config) SOUND_OPTION_FULL
  else if String.eqb prayer_name "Maghrib" then get (sound_maghrib config) SOUND_OPTION_FULL
  else if String.eqb prayer_name "Isha" then get (sound_isha config) SOUND_OPTION_FULL
  else SOUND_OPTION_FULL.

(** The audio file picked for a prayer, before and after the fallbacks. *)
Definition pick_audio (env : Env) (config : Config) (st : Store)
  (prayer_name : string) : option string :=
  let selection := sound_selection config prayer_name in
  let audio :=
    if String.eqb selection SOUND_OPTION_CUSTOM then
      if String.eqb prayer_name "Fajr" then fajr_audio_file st else audio_file st
    else if String.eqb selection SOUND_OPTION_FULL then
      if String.eqb prayer_name "Fajr"
      then or_else (fajr_audio_file st) (full_audio_file st)
      else full_audio_file st
    else if String.eqb selection SOUND_OPTION_SHORT then short_audio_file st
    else None in
  if unavailable env audio then
    if String.eqb prayer_name "Fajr" && truthy (fajr_audio_file st)
    then fajr_audio_file st
    else audio_file st
  else audio.

(** The base of the media URL; [None] when [get_url] raises twice. *)
Definition base_url (env : Env) (config : Config) : option string :=
  let playback_mode := get (playback_mode config) PLAYBACK_MEDIA_PLAYER in
  if String.eqb playback_mode PLAYBACK_MEDIA_PLAYER then
    match get_url_internal env with
    | Some u => Some u
    | None => get_url_default env
    end
  else
    let b := Py.rstrip_char "/" (get (external_url config) "") in
    if Py.is_empty b then
      match get_url_external env with
      | Some u => Some u
      | None => get_url_default env
      end
    else Some b.

(** The service calls of the [try] block, or [None] when no target is
    configured. *)
Definition dispatch_calls (config : Config) (media_url : string)
  : option (list ServiceCall) :=
  let playback_mode := get (playback_mode config) PLAYBACK_MEDIA_PLAYER in
  if String.eqb playback_mode PLAYBACK_MEDIA_PLAYER then
    match media_player config with
    | None => None
    | Some (OnePlayer e) =>
        if Py.is_empty e then None else Some [PlayMedia e media_url]
    | Some (ManyPlayers []) => None
    | Some (ManyPlayers targets) =>
        Some ((λ target, PlayMedia target media_url) <$> targets)
    end
  else
    match notify_service config with
    | None => None
    | Some service =>
        if Py.is_empty service then None
        else Some [NotifyScreenOn service; NotifyActivity service media_url]
    end.

(** Awaiting the calls one after the other: the calls made (the raising
    one included) and whether one raised. *)
Fixpoint call_all (env : Env) (calls : list ServiceCall)
  : list ServiceCall * bool :=
  match calls with
  | [] => ([], false)
  | c :: rest =>
      if call_raises env c then ([c], true)
      else let '(made, raised) := call_all env rest in (c :: made, raised)
  end.

Definition log_calls (h : Hass) (made : list ServiceCall) : Hass :=
  {| store := store h; timers := timers h; next_handle := next_handle h;
     tasks := tasks h; service_calls := service_calls h ++ made |}.

(** The way [_play_azan] was left (not a value of the Python function,
    which returns [None] or raises). *)
Inductive PlayExit : Type :=
| NoStore             (* [if not store: return] *)
| AlreadyPlayed       (* the played-set guard *)
| NoAudioFile         (* no audio after the fallbacks *)
| UrlRaised           (* [get_url] raised: the coroutine raises *)
| NoTargetConfigured  (* no media player / no notify service *)
| DispatchFailed      (* the [except Exception] handler *)
| Dispatched.         (* the end of the function *)

(** [data.played_today.add(prayer_name)] *)
Definition mark_played (d : PrayerData) (prayer_name : string) : PrayerData :=
  with_played d ({[ prayer_name ]} ∪ played_today d).

(** [_play_azan(hass, entry, prayer_name)] *)
Definition play_azan (env : Env) (config : Config) (prayer_name : string)
  (h : Hass) : Hass * PlayExit :=
  match store h with
  | None => (h, NoStore)
  | Some st =>
      let guard :=
        negb (String.eqb prayer_name "Test") &&
        match coordinator_data st with
        | Some data => bool_decide (prayer_name ∈ played_today data)
        | None => false
        end in
      if guard then (h, AlreadyPlayed)
      else
        let audio := pick_audio env config st prayer_name in
        if unavailable env audio
        then (schedule_next_prayer env config h, NoAudioFile)
        else
          let filename := Py.basename (get audio "") in
          match base_url env config with
          | None => (h, UrlRaised)
          | Some base =>
              let media_url := base +:+ "/local/azan/" +:+ filename in
              (* Mark as playing *)
              let st1 := set_playing st true (Some prayer_name) in
              let h1 := set_store h st1 in
              match dispatch_calls config media_url with
              | None => (h1, NoTargetConfigured)
              | Some calls =>
                  let '(made, raised) := call_all env calls in
                  let h2 := log_calls h1 made in
                  if raised then
                    let st2 := set_playing st1 false None in
                    (schedule_next_prayer env config (set_store h2 st2),
                     DispatchFailed)
                  else
                    (* Mark prayer as played (avoid marking Test) *)
                    let st2 :=
                      if String.eqb prayer_name "Test" then st1
                      else match coordinator_data st1 with
                           | Some data =>
                               set_data st1 (Some (mark_played data prayer_name))
                           | None => st1
                           end in
                    (* Reset playing state after 5 minutes *)
                    let h3 :=
                      match playback_reset_unsub st2 with
                      | Some u => cancel u (set_store h2 st2)
                      | None => set_store h2 st2
                      end in
                    let '(h4, u) :=
                      async_track_point_in_time h3 (ResetPlaying prayer_name)
                        (clock env + timedelta_minutes 5) in
                    let h5 := set_store h4 (set_playback_reset_unsub st2 (Some u)) in
                    (schedule_next_prayer env config h5, Dispatched)
              end
          end
  end.

(** A pending timer fires: it leaves the pending set and its callback runs. *)
Definition fire (env : Env) (config : Config) (t : Timer) (h : Hass) : Hass :=
  let h1 := cancel (handle t) h in
  match callback t with
  | PrayerCallback next_prayer => prayer_callback env config next_prayer h1
  | MidnightRefresh => midnight_refresh env config h1
  | ResetPlaying prayer_name => reset_playing prayer_name h1
  end.

(** The event loop runs the oldest created playback task. *)
Definition run_play_task (env : Env) (config : Config) (h : Hass)
  : Hass * option PlayExit :=
  match tasks h with
  | PlayAzanTask prayer_name :: rest =>
      let h1 := {| store := store h; timers := timers h;
                   next_handle := next_handle h; tasks := rest;
                   service_calls := service_calls h |} in
      let '(h2, ex) := play_azan env config prayer_name h1 in
      (h2, Some ex)
  | _ => (h, None)
  end.

(** ** sensor.py *)

(** The loop of [NextPrayerSensor._get_next_prayer]. *)
Fixpoint sensor_loop (now : datetime) (ps : list Prayer) : option Prayer :=
  match ps with
  | [] => None
  | prayer :: rest =>
      if negb (enabled prayer) then sensor_loop now rest
      else
        let prayer_time := time prayer in
        if now <? prayer_time then Some prayer else sensor_loop now rest
  end.

(** [NextPrayerSensor._get_next_prayer]; [data] is [self.coordinator.data]. *)
Definition get_next_prayer (data : option PrayerData) (now : datetime)
  : option Prayer :=
  match data with
  | None => None
  | Some d => sensor_loop now (prayers d)
  end.

(** [NextPrayerSensor.native_value] *)
Definition next_prayer_native_value (data : option PrayerData) (now : datetime)
  : option string :=
  name <$> get_next_prayer data now.

(** [AzanStatusSensor.native_value] *)
Definition status_native_value (h : Hass) : string :=
  match store h with
  | None => "idle"
  | Some st =>
      if is_downloading st then "downloading"
      else if is_playing st then "playing"
      else "idle"
  end.

(** ** Notions used to state the properties *)

(** A prayer the scheduler may still fire: enabled, not played, and its
    time minus its offset strictly after [now]. *)
Definition eligible (config : Config) (played : gset string) (now : datetime)
  (p : Prayer) : Prop :=
  (enabled p = true) ∧ (name p ∉ played) ∧
  (now < time p - timedelta_minutes (offset_of config (name p))).

Definition eligibleb (config : Config) (played : gset string) (now : datetime)
  (p : Prayer) : bool :=
  enabled p && negb (bool_decide (name p ∈ played)) &&
  (now <? time p - timedelta_minutes (offset_of config (name p))).

(** What the Next Prayer sensor looks for: enabled and raw time strictly
    after [now]. *)
Definition upcomingb (now : datetime) (p : Prayer) : bool :=
  enabled p && (now <? time p).

(** The played-set a refresh on day [today] is to produce from the
    previous schedule [data]. *)
Definition carried_played (today : string) (data : option PrayerData)
  : gset string :=
  match data with
  | Some old => if decide (date old = today) then played_today old else ∅
  | None => ∅
  end.

(** A timer that drives the scheduling loop (not the playback reset). *)
Definition scheduling_timer (t : Timer) : Prop :=
  match callback t with
  | PrayerCallback _ | MidnightRefresh => True
  | ResetPlaying _ => False
  end.

(** The store holds the handle of a pending scheduling timer. *)
Definition armed (h : Hass) : Prop :=
  ∃ st u t, store h = Some st ∧ unsub_timer st = Some u ∧
            t ∈ timers h ∧ handle t = u ∧ scheduling_timer t.

(** The store holds the handle of a pending timer that will fire [nm]. *)
Definition armed_for (h : Hass) (nm : string) : Prop :=
  ∃ st u t p, store h = Some st ∧ unsub_timer st = Some u ∧
              t ∈ timers h ∧ handle t = u ∧
              callback t = PrayerCallback p ∧ name p = nm.

Definition no_timer_outstanding (h : Hass) : Prop :=
  Forall (λ t, ¬ scheduling_timer t) (timers h).

(** No playback target: no media player in media-player mode, no
    notify service in Android VLC mode. *)
Definition no_media_player (config : Config) : Prop :=
  match media_player config with
  | None => True
  | Some (OnePlayer e) => e = ""
  | Some (ManyPlayers l) => l = []
  end.

Definition target_unconfigured (config : Config) : Prop :=
  let mode := get (playback_mode config) PLAYBACK_MEDIA_PLAYER in
  (mode = PLAYBACK_MEDIA_PLAYER ∧ no_media_player config)
  ∨ (mode = PLAYBACK_ANDROID_VLC ∧ truthy (notify_service config) = false).

(** The played-set held by the store, if any. *)
Definition played_of (h : Hass) : option (gset string) :=
  st ← store h; d ← coordinator_data st; Some (played_today d).

(** Decidable equality of results, to check parsing by computation. *)
#[global] Instance exn_eq_dec : EqDecision exn.
Proof. solve_decision. Defined.

#[global] Instance res_eq_dec {A : Type} `{EqDecision A} : EqDecision (res A).
Proof. solve_decision. Defined.

(** Reading back the rendering of [hh]:[mm] gives [hh] and [mm]. *)
Definition roundtrip_check (hh mm : Z) : bool :=
  bool_decide (parse_hour_minute (render_hhmm hh mm) = Ok (Some (hh, mm))).

(** The position of a name in a list, zero when absent. *)
Definition pos (x : string) (l : list string) : nat :=
  match index_of x l with Some i => i | None => O end.

(** An entry the loop does not skip. *)
Definition recognised (e : string * string) : Prop := e.1 ∈ PRAYER_ORDER.

#[global] Instance recognised_dec e : Decision (recognised e).
Proof. unfold recognised. apply _. Defined.

(** The recognised entries of a mapping, as the loop meets them. *)
Definition recognised_entries (raw : raw_times) : list (string * string) :=
  filter recognised (sorted_by sort_key raw).

(** ** Example data *)

Definition cfg0 : Config :=
  {| prayer_source := None; city := None; country := None;
     prayer_fajr := None; prayer_sunrise := None; prayer_dhuhr := None;
     prayer_asr := None; prayer_maghrib := None; prayer_isha := None;
     offset_minutes := None; playback_mode := None; media_player := None;
     notify_service := None; external_url := None;
     sound_fajr := None; sound_sunrise := None; sound_dhuhr := None;
     sound_asr := None; sound_maghrib := None; sound_isha := None |}.

Definition store0 (d : option PrayerData) : Store :=
  {| coordinator_data := d; is_playing := false; currently_playing := None;
     is_downloading := false; audio_file := Some "/config/www/azan/azan.mp3";
     full_audio_file := None; short_audio_file := None;
     fajr_audio_file := None; unsub_timer := None;
     playback_reset_unsub := None |}.

Definition hass0 (d : option PrayerData) : Hass :=
  {| store := Some (store0 d); timers := []; next_handle := O; tasks := [];
     service_calls := [] |}.

(** A host where every file exists, the URL resolves, and the service
    calls raise according to [raises]. *)
Definition env0 (now : datetime) (raises : bool) : Env :=
  {| clock := now; path_exists := λ _, true;
     get_url_internal := Some "http://ha.local:8123";
     get_url_external := Some "https://ha.example.org";
     get_url_default := Some "http://ha.local:8123";
     call_raises := λ _, raises |}.

Definition with_offset (config : Config) (m : Z) : Config :=
  {| prayer_source := prayer_source config; city := city config;
     country := country config; prayer_fajr := prayer_fajr config;
     prayer_sunrise := prayer_sunrise config;
     prayer_dhuhr := prayer_dhuhr config; prayer_asr := prayer_asr config;
     prayer_maghrib := prayer_maghrib config;
     prayer_isha := prayer_isha config; offset_minutes := Some m;
     playback_mode := playback_mode config;
     media_player := media_player config;
     notify_service := notify_service config;
     external_url := external_url config; sound_fajr := sound_fajr config;
     sound_sunrise := sound_sunrise config;
     sound_dhuhr := sound_dhuhr config; sound_asr := sound_asr config;
     sound_maghrib := sound_maghrib config; sound_isha := sound_isha config |}.

Definition with_source (config : Config) (src : string) : Config :=
  {| prayer_source := Some src; city := city config;
     country := country config; prayer_fajr := prayer_fajr config;
     prayer_sunrise := prayer_sunrise config;
     prayer_dhuhr := prayer_dhuhr config; prayer_asr := prayer_asr config;
     prayer_maghrib := prayer_maghrib config;
     prayer_isha := prayer_isha config;
     offset_minutes := offset_minutes config;
     playback_mode := playback_mode config;
     media_player := media_player config;
     notify_service := notify_service config;
     external_url := external_url config; sound_fajr := sound_fajr config;
     sound_sunrise := sound_sunrise config;
     sound_dhuhr := sound_dhuhr config; sound_asr := sound_asr config;
     sound_maghrib := sound_maghrib config; sound_isha := sound_isha config |}.

Definition with_player (config : Config) (mode : string)
  (mp : option player_cfg) (ns : option string) : Config :=
  {| prayer_source := prayer_source config; city := city config;
     country := country config; prayer_fajr := prayer_fajr config;
     prayer_sunrise := prayer_sunrise config;
     prayer_dhuhr := prayer_dhuhr config; prayer_asr := prayer_asr config;
     prayer_maghrib := prayer_maghrib config;
     prayer_isha := prayer_isha config;
     offset_minutes := offset_minutes config;
     playback_mode := Some mode; media_player := mp; notify_service := ns;
     external_url := external_url config; sound_fajr := sound_fajr config;
     sound_sunrise := sound_sunrise config;
     sound_dhuhr := sound_dhuhr config; sound_asr := sound_asr config;
     sound_maghrib := sound_maghrib config; sound_isha := sound_isha config |}.

Definition mk_prayer (nm : string) (day : datetime) (h m : Z) (en : bool) : Prayer :=
  {| name := nm; time := at_hm day h m; time_str := render_hhmm h m;
     enabled := en |}.

Definition data_dhuhr_played : PrayerData :=
  {| prayers := [mk_prayer "Fajr" 0 5 0 true;
                 mk_prayer "Sunrise" 0 6 30 false;
                 mk_prayer "Dhuhr" 0 12 0 true];
     date := "2024-06-21";
     played_today := {[ "Dhuhr" ]} |}.

Definition data_all_done : PrayerData :=
  {| prayers := [mk_prayer "Fajr" 0 5 0 false;
                 mk_prayer "Sunrise" 0 6 30 false;
                 mk_prayer "Dhuhr" 0 12 0 true];
     date := "2024-06-21";
     played_today := {[ "Dhuhr" ]} |}.

Definition up_qatar (raw : raw_times) : Upstream :=
  {| fetch_qatar_moi := Ok raw; fetch_aladhan := Raise UpdateFailed |}.

Definition up_aladhan (raw : raw_times) : Upstream :=
  {| fetch_qatar_moi := Raise UpdateFailed; fetch_aladhan := Ok raw |}.

Definition raw_twelve_hour : raw_times :=
  [("Fajr", "05:12"); ("Dhuhr", "12:05"); ("Asr", "03:30");
   ("Maghrib", "06:10"); ("Isha", "07:45")].

Definition data_yesterday : PrayerData :=
  {| prayers := [mk_prayer "Fajr" 0 5 12 true];
     date := "2024-06-21";
     played_today := {[ "Fajr" ]} |}.

Definition data_fajr_played_early : PrayerData :=
  {| prayers := [mk_prayer "Fajr" 0 5 0 true;
                 mk_prayer "Sunrise" 0 6 30 false;
                 mk_prayer "Dhuhr" 0 12 0 true];
     date := "2024-06-21";
     played_today := {[ "Fajr" ]} |}.

Definition data_sunrise_enabled : PrayerData :=
  {| prayers := [mk_prayer "Fajr" 0 5 0 true;
                 mk_prayer "Sunrise" 0 6 30 true;
                 mk_prayer "Dhuhr" 0 12 0 true];
     date := "2024-06-21";
     played_today := ∅ |}.

Definition cfg_speaker : Config :=
  with_player cfg0 PLAYBACK_MEDIA_PLAYER
    (Some (ManyPlayers ["media_player.living_room"])) None.

(** The firing scenario: the timer armed for Fajr fires, the playback
    task runs with no media player configured. *)
Definition timer_fajr : Timer :=
  {| handle := O; fire_at := at_hm 0 5 0;
     callback := PrayerCallback (mk_prayer "Fajr" 0 5 0 true) |}.

Definition hass_armed_fajr : Hass :=
  schedule_next_prayer (env0 (at_hm 0 4 0) false) cfg0
    (hass0 (Some data_sunrise_enabled)).


Definition raw_shuffled : raw_times :=
  [("Isha", "07:45"); ("Midnight", "11:32"); ("Asr", "03:30");
   ("Fajr", "05:12 (AST)"); ("Dhuhr", "12:05"); ("Maghrib", "06:10")].

(** What AlAdhan answers for a summer day at a high latitude
    (twenty-four-hour times, Isha after midnight). *)
Definition raw_aladhan_summer : raw_times :=
  [("Fajr", "02:43"); ("Sunrise", "04:26"); ("Dhuhr", "13:15");
   ("Asr", "17:41"); ("Maghrib", "22:03"); ("Isha", "00:30")].

(** ** sensor.py: the other sensors *)

(** [PrayerTimeSensor._get_prayer]: the first entry with the sensor's name. *)
Fixpoint get_prayer_loop (prayer_name : string) (ps : list Prayer)
  : option Prayer :=
  match ps with
  | [] => None
  | prayer :: rest =>
      if String.eqb (name prayer) prayer_name then Some prayer
      else get_prayer_loop prayer_name rest
  end.

Definition get_prayer (data : option PrayerData) (prayer_name : string)
  : option Prayer :=
  match data with
  | None => None
  | Some d => get_prayer_loop prayer_name (prayers d)
  end.

(** [PrayerTimeSensor.native_value] *)
Definition prayer_time_native_value (data : option PrayerData)
  (prayer_name : string) : option string :=
  match get_prayer data prayer_name with
  | Some prayer => Some (time_str prayer)
  | None => None
  end.

(** The ["enabled"] and ["played"] entries of
    [PrayerTimeSensor.extra_state_attributes]; [None] is the empty dict. *)
Definition prayer_time_attributes (data : option PrayerData)
  (prayer_name : string) : option (bool * bool) :=
  match get_prayer data prayer_name with
  | None => None
  | Some prayer =>
      let played :=
        match data with
        | Some d => bool_decide (prayer_name ∈ played_today d)
        | None => false
        end in
      Some (enabled prayer, played)
  end.

(** The loop of [AzanCountdownSensor._get_next_prayer]: enabled or not. *)
Fixpoint countdown_loop (now : datetime) (ps : list Prayer) : option Prayer :=
  match ps with
  | [] => None
  | prayer :: rest =>
      let prayer_time := time prayer in
      if now <? prayer_time then Some prayer else countdown_loop now rest
  end.


(** ** __init__.py: setting up, stopping, unloading *)

(** The store created by [async_setup_entry], once the first refresh has
    given the coordinator its [data]. *)
Definition entry_store (data : option PrayerData) : Store :=
  {| coordinator_data := data; is_playing := false; currently_playing := None;
     is_downloading := false; audio_file := None; full_audio_file := None;
     short_audio_file := None; fajr_audio_file := None; unsub_timer := None;
     playback_reset_unsub := None |}.

Definition initial_hass (data : option PrayerData) : Hass :=
  {| store := Some (entry_store data); timers := []; next_handle := O;
     tasks := []; service_calls := [] |}.

(** Calls made by [_stop_playback]. *)
Inductive StopCall : Type :=
| MediaStop (entity_id : string)
| NotifyMediaStop (service : string).

(** The calls of the [try] block of [_stop_playback]. *)
Definition stop_calls (config : Config) : list StopCall :=
  let playback_mode := get (playback_mode config) PLAYBACK_ANDROID_VLC in
  if String.eqb playback_mode PLAYBACK_MEDIA_PLAYER then
    match media_player config with
    | None => []
    | Some (OnePlayer e) => if Py.is_empty e then [] else [MediaStop e]
    | Some (ManyPlayers targets) => MediaStop <$> targets
    end
  else
    match notify_service config with
    | None => []
    | Some service =>
        if Py.is_empty service then [] else [NotifyMediaStop service]
    end.

(** Awaiting the stop calls in turn; a raising call ends the [try]
    block.  The result lists the calls made. *)
Fixpoint stop_all (stop_raises : StopCall → bool) (calls : list StopCall)
  : list StopCall :=
  match calls with
  | [] => []
  | c :: rest =>
      if stop_raises c then [c] else c :: stop_all stop_raises rest
  end.

(** [_stop_playback(hass, entry)], with the stop calls it made. *)
Definition stop_playback (stop_raises : StopCall → bool) (config : Config)
  (h : Hass) : Hass * list StopCall :=
  match store h with
  | None => (h, [])
  | Some st =>
      (set_store h (set_playing st false None),
       stop_all stop_raises (stop_calls config))
  end.

(** [async_unload_entry(hass, entry)]; [unloaded] is what
    [async_unload_platforms] answers. *)
Definition async_unload_entry (unloaded : bool) (h : Hass) : Hass * bool :=
  match store h with
  | None => (h, unloaded)
  | Some st =>
      let h1 := match unsub_timer st with
                | Some unsub => cancel unsub h
                | None => h
                end in
      let h2 := match playback_reset_unsub st with
                | Some reset_unsub => cancel reset_unsub h1
                | None => h1
                end in
      if unloaded then
        ({| store := None; timers := timers h2; next_handle := next_handle h2;
            tasks := tasks h2; service_calls := service_calls h2 |}, true)
      else (h2, false)
  end.

(** ** The runs of one entry *)

(** One event between set-up and unload: a re-arm (also after a manual
    refresh), a timer firing, a playback task, a manual play or stop, or
    a background change of the store that leaves the timer handles alone
    (a coordinator refresh, the audio download). *)
Inductive step (config : Config) : Hass → Hass → Prop :=
| step_rearm env h :
    step config h (schedule_next_prayer env config h)
| step_fire env t h :
    t ∈ timers h → step config h (fire env config t h)
| step_task env h :
    step config h (run_play_task env config h).1
| step_play env nm h :
    step config h (play_azan env config nm h).1
| step_stop stop_raises h :
    step config h (stop_playback stop_raises config h).1
| step_background h st st' :
    store h = Some st →
    unsub_timer st' = unsub_timer st →
    playback_reset_unsub st' = playback_reset_unsub st →
    step config h (set_store h st').

Inductive reachable (config : Config) : Hass → Prop :=
| reachable_setup data : reachable config (initial_hass data)
| reachable_step h h' :
    reachable config h → step config h h' → reachable config h'.

(** The store's handle that is to cancel the timer [t]. *)
Definition timer_ref (st : Store) (t : Timer) : Prop :=
  match callback t with
  | ResetPlaying _ => playback_reset_unsub st = Some (handle t)
  | _ => unsub_timer st = Some (handle t)
  end.

(** Every pending timer is fresh, has its own handle, and is the one the
    store holds the handle of. *)
Definition timers_ok (h : Hass) : Prop :=
  Forall (λ t, (handle t < next_handle h)%nat) (timers h)
  ∧ NoDup (handle <$> timers h)
  ∧ match store h with
    | None => timers h = []
    | Some st =>
        Forall (timer_ref st) (timers h)
        ∧ (∀ u, unsub_timer st = Some u → (u < next_handle h)%nat)
        ∧ (∀ u, playback_reset_unsub st = Some u → (u < next_handle h)%nat)
    end.

(** The two timer handles of the store. *)
Definition handles (h : Hass) : option (option nat * option nat) :=
  (λ st, (unsub_timer st, playback_reset_unsub st)) <$> store h.

(** ** coordinator.py: what the two fetches return *)

(** [s.lower()] on the code points below 256. *)
Definition lower_char (c : ascii) : ascii :=
  let n := Py.code c in
  if ((65 <=? n) && (n <=? 90))
     || ((192 <=? n) && (n <=? 222) && negb (n =? 215))
  then ascii_of_nat (Z.to_nat (n + 32))
  else c.

Fixpoint str_lower (s : string) : string :=
  match s with
  | EmptyString => EmptyString
  | String c s' => String (lower_char c) (str_lower s')
  end.

(** [NAME_MAP] of const.py. *)
Definition NAME_MAP : list (string * string) :=
  [("fajer", "Fajr"); ("fajr", "Fajr"); ("sunrise", "Sunrise");
   ("dhuhr", "Dhuhr"); ("zuhr", "Dhuhr"); ("asr", "Asr");
   ("maghrib", "Maghrib"); ("isha", "Isha")].

(** [d.get(k)] on a dict given by its items. *)
Fixpoint dict_get (k : string) (d : list (string * string)) : option string :=
  match d with
  | [] => None
  | (k', v) :: rest => if String.eqb k' k then Some v else dict_get k rest
  end.

(** [d[k] = v]: the value is replaced in place, a new key goes last. *)
Fixpoint dict_set (k v : string) (d : list (string * string))
  : list (string * string) :=
  match d with
  | [] => [(k, v)]
  | (k', v') :: rest =>
      if String.eqb k' k then (k', v) :: rest
      else (k', v') :: dict_set k v rest
  end.

(** [NAME_MAP.get(header.lower(), header)] *)
Definition header_key (header : string) : string :=
  get (dict_get (str_lower header) NAME_MAP) header.

(** The pairing loop of [_fetch_qatar_moi]:
    [for i, header in enumerate(headers)], from index [i]. *)
Fixpoint pair_loop (i : nat) (headers cells : list string) (times : raw_times)
  : raw_times :=
  match headers with
  | [] => times
  | header :: rest =>
      let times' :=
        if (i <? length cells)%nat then
          match cells !! i with
          | Some cell => dict_set (header_key header) cell times
          | None => times
          end
        else times in
      pair_loop (S i) rest cells times'
  end.

(** The end of [_fetch_qatar_moi], from the header texts and the cell
    texts found in the page. *)
Definition qatar_moi_times (headers cells : list string) : res raw_times :=
  let times := pair_loop O headers cells [] in
  match times with
  | [] => Raise UpdateFailed
  | _ => Ok times
  end.

(** The end of [_fetch_aladhan], from the [timings] object of the
    answer; [None] stands for the [KeyError] of a missing key. *)
Definition aladhan_times (timings : gmap string string) : option raw_times :=
  fajr ← timings !! "Fajr";
  sunrise ← timings !! "Sunrise";
  dhuhr ← timings !! "Dhuhr";
  asr ← timings !! "Asr";
  maghrib ← timings !! "Maghrib";
  isha ← timings !! "Isha";
  Some [("Fajr", fajr); ("Sunrise", sunrise); ("Dhuhr", dhuhr);
        ("Asr", asr); ("Maghrib", maghrib); ("Isha", isha)].

(** ** Notions for the further properties *)

(** [p] occurs in [ps] at or before [q]. *)
Definition at_or_before (ps : list Prayer) (p q : Prayer) : Prop :=
  ∃ i j : nat, ps !! i = Some p ∧ ps !! j = Some q ∧ (i ≤ j)%nat.

(** A prayer as [_normalize_times] builds it on the day of [now]. *)
Definition well_built (now : datetime) (config : Config) (p : Prayer) : Prop :=
  ∃ h m, 0 ≤ h ≤ 23 ∧ 0 ≤ m ≤ 59 ∧
         time p = at_hm (midnight_of now) h m ∧
         time_str p = render_hhmm h m ∧
         enabled p = enabled_map config (name p) ∧
         name p ∈ PRAYER_ORDER.

(** The pairing step on one (header, cell) pair. *)
Definition pair_step (times : raw_times) (hc : string * string) : raw_times :=
  dict_set (header_key hc.1) hc.2 times.

(** A string of digits and colons. *)
Fixpoint plainb (s : string) : bool :=
  match s with
  | EmptyString => true
  | String c s' => (Py.is_digit c || Ascii.eqb c ":") && plainb s'
  end.

(** The rendering of one hour and minute is a non-empty string of
    digits and colons. *)
Definition render_plain_check (hh mm : Z) : bool :=
  plainb (render_hhmm hh mm) && negb (Py.is_empty (render_hhmm hh mm)).

(** ** Further example data *)

Definition cfg_three_speakers : Config :=
  with_player cfg0 PLAYBACK_MEDIA_PLAYER
    (Some (ManyPlayers ["media_player.living_room"; "media_player.kitchen";
                        "media_player.bedroom"])) None.

Definition cfg_no_mode : Config :=
  {| prayer_source := None; city := None; country := None;
     prayer_fajr := None; prayer_sunrise := None; prayer_dhuhr := None;
     prayer_asr := None; prayer_maghrib := None; prayer_isha := None;
     offset_minutes := None; playback_mode := None;
     media_player := Some (ManyPlayers ["media_player.living_room"]);
     notify_service := None; external_url := None;
     sound_fajr := None; sound_sunrise := None; sound_dhuhr := None;
     sound_asr := None; sound_maghrib := None; sound_isha := None |}.

Definition timings_example : gmap string string :=
  list_to_map
    [("Fajr", "02:43"); ("Sunrise", "04:26"); ("Dhuhr", "13:15");
     ("Asr", "17:41"); ("Sunset", "22:03"); ("Maghrib", "22:03");
     ("Isha", "00:30"); ("Imsak", "02:33"); ("Midnight", "01:15")].

Definition hass_after_midnight : Hass :=
  schedule_next_prayer (env0 (at_hm 0 23 0) false) cfg0
    (initial_hass (Some (PrayerData_init
       [mk_prayer "Fajr" 0 5 12 true; mk_prayer "Dhuhr" 0 12 5 true;
        mk_prayer "Asr" 0 15 30 true; mk_prayer "Maghrib" 0 18 10 true;
        mk_prayer "Isha" 0 19 45 true] "2024-06-21"))).

Definition hass_playing_fajr : Hass :=
  (play_azan (env0 (at_hm 0 5 0) false) cfg_speaker "Fajr" hass_armed_fajr).1.

Definition timer_reset_fajr : Timer :=
  {| handle := 1; fire_at := at_hm 0 5 0 + timedelta_minutes 5;
     callback := ResetPlaying "Fajr" |}.

(** ** Notions for the selection and for a failed dispatch *)

(** The minutes taken off a prayer's time before it is compared with
    [now]: the configured [offset_minutes] for Sunrise (none when the
    setting is absent), none for every other name. *)
Definition offset_policy (config : Config) (nm : string) : Z :=
  match offset_minutes config with
  | Some m => if decide (nm = "Sunrise") then m else 0
  | None => 0
  end.

Definition effective_time (config : Config) (p : Prayer) : datetime :=
  time p - offset_policy config (name p) * (60 * 1000000).

(** A prayer the selection may return: enabled, not played, effective
    time strictly after [now]. *)
Definition selectable (config : Config) (played : gset string) (now : datetime)
  (p : Prayer) : Prop :=
  (enabled p = true) ∧ (name p ∉ played) ∧ (now < effective_time config p).

(** [f"{base_url}/local/azan/{filename}"] for the file picked. *)
Definition media_url (env : Env) (config : Config) (st : Store) (nm : string)
  (base : string) : string :=
  base +:+ "/local/azan/" +:+ Py.basename (get (pick_audio env config st nm) "").

(** The play operation gets as far as the dispatch: the prayer is not
    already played, a file is there and the base URL resolves. *)
Definition reaches_dispatch (env : Env) (config : Config) (st : Store)
  (nm : string) (base : string) : Prop :=
  (nm = "Test" ∨ (∀ d, coordinator_data st = Some d → nm ∉ played_today d))
  ∧ unavailable env (pick_audio env config st nm) = false
  ∧ base_url env config = Some base.

(** A host as [env0] where only the calls to the kitchen speaker raise. *)
Definition env_kitchen_raises (now : datetime) : Env :=
  {| clock := now; path_exists := λ _, true;
     get_url_internal := Some "http://ha.local:8123";
     get_url_external := Some "https://ha.example.org";
     get_url_default := Some "http://ha.local:8123";
     call_raises := λ c,
       match c with
       | PlayMedia target _ => String.eqb target "media_player.kitchen"
       | _ => false
       end |}.

(** Android VLC mode with the notify service left blank. *)
Definition cfg_vlc_blank : Config :=
  with_player cfg0 PLAYBACK_ANDROID_VLC None (Some EmptyString).

(** The firing scenario with [cfg_vlc_blank]: armed at 04:00, the Fajr
    timer fires at 05:00, then the playback task runs. *)
Definition hass_blank_armed : Hass :=
  schedule_next_prayer (env0 (at_hm 0 4 0) false) cfg_vlc_blank
    (hass0 (Some data_sunrise_enabled)).

Definition hass_blank_fired : Hass :=
  fire (env0 (at_hm 0 5 0) false) cfg_vlc_blank timer_fajr hass_blank_armed.

(** * Properties *)

(** ** Next-prayer selection *)

Section Selection.
Context (config : Config) (played : gset string) (now : datetime).

Lemma eligibleb_spec p :
  eligibleb config played now p = true ↔ eligible config played now p.
Proof.
  unfold eligibleb, eligible.
  rewrite !andb_true_iff, negb_true_iff, bool_decide_eq_false, Z.ltb_lt.
  tauto.
Qed.

Lemma find_next_prayer_step p ps :
  find_next_prayer config played now (p :: ps) =
  if eligibleb config played now p then Some p
  else find_next_prayer config played now ps.
Proof.
  unfold eligibleb. simpl.
  destruct (enabled p); simpl; [|done].
  destruct (bool_decide (name p ∈ played)); simpl; [done|].
  by destruct (now <? _).
Qed.

Lemma find_next_prayer_Some ps p :
  find_next_prayer config played now ps = Some p ↔
  ∃ before after, ps = before ++ p :: after ∧
                  eligible config played now p ∧
                  Forall (λ q, ¬ eligible config played now q) before.
Proof.
  induction ps as [|q ps IH].
  - split; [done|]. intros (before & after & Heq & _).
    by destruct before.
  - rewrite find_next_prayer_step.
    destruct (eligibleb config played now q) eqn:Hq.
    + split.
      * intros [= ->]. exists [], ps. split; [done|].
        split; [by apply eligibleb_spec | constructor].
      * intros (before & after & Heq & Hp & Hbefore).
        destruct before as [|q' before]; simpl in Heq.
        { by inversion Heq. }
        inversion Heq; subst. inversion Hbefore as [|? ? Hnq _]; subst.
        exfalso. apply Hnq. by apply eligibleb_spec.
    + rewrite IH. split.
      * intros (before & after & -> & Hp & Hbefore).
        exists (q :: before), after. split; [done|]. split; [done|].
        constructor; [|done]. rewrite <- eligibleb_spec. by rewrite Hq.
      * intros (before & after & Heq & Hp & Hbefore).
        destruct before as [|q' before]; simpl in Heq.
        { inversion Heq; subst. apply eligibleb_spec in Hp. congruence. }
        inversion Heq; subst. inversion Hbefore; subst.
        by exists before, after.
Qed.

Lemma find_next_prayer_None ps :
  find_next_prayer config played now ps = None ↔
  Forall (λ q, ¬ eligible config played now q) ps.
Proof.
  induction ps as [|q ps IH]; [by split; [constructor|]|].
  rewrite find_next_prayer_step.
  destruct (eligibleb config played now q) eqn:Hq.
  - split; [done|]. intros Hall. inversion Hall as [|? ? Hnq _]; subst.
    exfalso. apply Hnq. by apply eligibleb_spec.
  - rewrite IH. split.
    + intros Hall. constructor; [|done].
      rewrite <- eligibleb_spec. by rewrite Hq.
    + intros Hall. by inversion Hall.
Qed.

Lemma find_next_prayer_elem ps p :
  find_next_prayer config played now ps = Some p →
  p ∈ ps ∧ eligible config played now p.
Proof.
  intros (before & after & -> & Hp & _)%find_next_prayer_Some.
  split; [|done]. set_solver.
Qed.

Lemma find_next_prayer_find ps :
  find_next_prayer config played now ps =
  List.find (eligibleb config played now) ps.
Proof.
  induction ps as [|q ps IH]; [done|].
  rewrite find_next_prayer_step. simpl. by rewrite IH.
Qed.

End Selection.

Lemma offset_of_other config nm : nm ≠ "Sunrise" → offset_of config nm = 0.
Proof.
  intros Hne. unfold offset_of.
  destruct (String.eqb_spec nm "Sunrise"); [done|done].
Qed.

Lemma at_hm_lt day h1 m1 h2 m2 :
  h1 * 60 + m1 < h2 * 60 + m2 → at_hm day h1 m1 < at_hm day h2 m2.
Proof. unfold at_hm, US_PER_HOUR, US_PER_MINUTE. lia. Qed.

Lemma offset_policy_offset_of config nm :
  offset_of config nm = offset_policy config nm.
Proof.
  unfold offset_of, offset_policy, get, DEFAULT_OFFSET_MINUTES.
  destruct (String.eqb_spec nm "Sunrise") as [Heq|Hne];
    destruct (offset_minutes config) as [m|]; try done;
    case_decide; done.
Qed.

Lemma selectable_eligible config played now p :
  selectable config played now p ↔ eligible config played now p.
Proof.
  unfold selectable, eligible, effective_time, timedelta_minutes, US_PER_MINUTE.
  by rewrite offset_policy_offset_of.
Qed.

Lemma Forall_not_selectable config played now ps :
  Forall (λ q, ¬ selectable config played now q) ps ↔
  Forall (λ q, ¬ eligible config played now q) ps.
Proof.
  apply Forall_proper; [|done]. intros q. by rewrite selectable_eligible.
Qed.

(** C1.  The selection returns the first prayer, in the order of the
    schedule, that is enabled, not in [played_today] and whose effective
    time is strictly after [now], and [None] exactly when there is no
    such prayer.  The effective time is the prayer's time minus the
    offset, which is the configured [offset_minutes] for Sunrise and
    zero for every other name.  With Fajr 05:00 enabled, Sunrise 06:30
    disabled, Dhuhr 12:00 enabled and [now] 05:30 the selection is
    Dhuhr. *)
Theorem C1_select_first_eligible (config : Config) (now : datetime) :
  (∀ data p,
     select config data now = Some p ↔
     ∃ before after,
       prayers data = before ++ p :: after ∧
       selectable config (played_today data) now p ∧
       Forall (λ q, ¬ selectable config (played_today data) now q) before)
  ∧ (∀ data,
       select config data now = None ↔
       Forall (λ q, ¬ selectable config (played_today data) now q) (prayers data))
  ∧ (∀ nm, nm ≠ "Sunrise" → offset_of config nm = 0)
  ∧ (∀ m, offset_minutes config = Some m → offset_of config "Sunrise" = m)
  ∧ (offset_minutes config = None → offset_of config "Sunrise" = 0)
  ∧ (∀ day today,
       select config
         (PrayerData_init [mk_prayer "Fajr" day 5 0 true;
                           mk_prayer "Sunrise" day 6 30 false;
                           mk_prayer "Dhuhr" day 12 0 true] today)
         (at_hm day 5 30)
       = Some (mk_prayer "Dhuhr" day 12 0 true)).
Proof.
  split; [|split; [|split; [|split; [|split]]]].
  - intros data p. unfold select. rewrite find_next_prayer_Some.
    split; intros (before & after & Hps & Hp & Hbefore);
      exists before, after; (split; [done|]);
      (split; [by apply selectable_eligible|]);
      by apply Forall_not_selectable.
  - intros data. unfold select. rewrite find_next_prayer_None.
    by rewrite Forall_not_selectable.
  - apply offset_of_other.
  - intros m Hm. unfold offset_of. simpl. by rewrite Hm.
  - intros Hm. unfold offset_of. simpl. by rewrite Hm.
  - intros day today. unfold select. cbn [prayers played_today PrayerData_init].
    rewrite !find_next_prayer_step. unfold eligibleb. cbn [enabled name time mk_prayer].
    rewrite !bool_decide_eq_false_2 by set_solver.
    rewrite (offset_of_other config "Fajr"), (offset_of_other config "Dhuhr") by done.
    replace (at_hm day 5 30 <? at_hm day 5 0 - timedelta_minutes 0) with false
      by (symmetry; apply Z.ltb_ge; unfold timedelta_minutes;
          pose proof (at_hm_lt day 5 0 5 30); lia).
    replace (at_hm day 5 30 <? at_hm day 12 0 - timedelta_minutes 0) with true
      by (symmetry; apply Z.ltb_lt; unfold timedelta_minutes;
          pose proof (at_hm_lt day 5 30 12 0); lia).
    reflexivity.
Qed.

Lemma C1_select_first_eligible_witness :
  select (with_offset cfg0 30) data_sunrise_enabled (at_hm 0 5 50)
  = Some (mk_prayer "Sunrise" 0 6 30 true)
  ∧ select (with_offset cfg0 30) data_sunrise_enabled (at_hm 0 6 10)
    = Some (mk_prayer "Dhuhr" 0 12 0 true)
  ∧ select cfg0 data_all_done (at_hm 0 5 30) = None.
Proof.
  split; [|split].
  - apply (proj1 (C1_select_first_eligible (with_offset cfg0 30) (at_hm 0 5 50))).
    exists [mk_prayer "Fajr" 0 5 0 true], [mk_prayer "Dhuhr" 0 12 0 true].
    split; [reflexivity|]. split.
    + split; [reflexivity|]. split; [apply not_elem_of_empty|].
      vm_compute. reflexivity.
    + apply Forall_cons; split; [|apply Forall_nil_2].
      intros (_ & _ & Hlt). vm_compute in Hlt. discriminate Hlt.
  - apply (proj1 (C1_select_first_eligible (with_offset cfg0 30) (at_hm 0 6 10))).
    exists [mk_prayer "Fajr" 0 5 0 true; mk_prayer "Sunrise" 0 6 30 true], [].
    split; [reflexivity|]. split.
    + split; [reflexivity|]. split; [apply not_elem_of_empty|].
      vm_compute. reflexivity.
    + apply Forall_cons; split;
        [intros (_ & _ & Hlt); vm_compute in Hlt; discriminate Hlt|].
      apply Forall_cons; split; [|apply Forall_nil_2].
      intros (_ & _ & Hlt). vm_compute in Hlt. discriminate Hlt.
  - apply (proj1 (proj2 (C1_select_first_eligible cfg0 (at_hm 0 5 30)))).
    apply Forall_cons; split; [intros (He & _); discriminate He|].
    apply Forall_cons; split; [intros (He & _); discriminate He|].
    apply Forall_cons; split;
      [intros (_ & Hn & _); apply Hn; vm_compute; reflexivity|].
    apply Forall_nil_2.
Defined.

(** The end-to-end example: the twelve-hour mapping, all prayers enabled,
    before 05:12. *)
Example end_to_end_twelve_hour :
  normalize_times 0 cfg0 raw_twelve_hour =
    Ok [mk_prayer "Fajr" 0 5 12 true; mk_prayer "Dhuhr" 0 12 5 true;
        mk_prayer "Asr" 0 15 30 true; mk_prayer "Maghrib" 0 18 10 true;
        mk_prayer "Isha" 0 19 45 true]
  ∧ ∀ ps, normalize_times 0 cfg0 raw_twelve_hour = Ok ps →
          select cfg0 (PrayerData_init ps "2024-06-21") (at_hm 0 4 0)
          = Some (mk_prayer "Fajr" 0 5 12 true).
Proof.
  split; [reflexivity|]. intros ps [= <-]. vm_compute. reflexivity.
Qed.

(** ** Effects of re-arming *)

Section Rearm.
Context (env : Env) (config : Config).

Lemma schedule_tasks h :
  tasks (schedule_next_prayer env config h) = tasks h.
Proof.
  unfold schedule_next_prayer.
  destruct (store h) as [st|]; [|done].
  destruct (unsub_timer st); simpl;
    destruct (coordinator_data st) as [d|]; simpl; try done;
    destruct (select config d (clock env)); done.
Qed.

Lemma schedule_service_calls h :
  service_calls (schedule_next_prayer env config h) = service_calls h.
Proof.
  unfold schedule_next_prayer.
  destruct (store h) as [st|]; [|done].
  destruct (unsub_timer st); simpl;
    destruct (coordinator_data st) as [d|]; simpl; try done;
    destruct (select config d (clock env)); done.
Qed.

(** Re-arming only touches the timer handle of the store. *)
Lemma schedule_store h st :
  store h = Some st →
  ∃ u, store (schedule_next_prayer env config h) = Some (set_unsub_timer st u).
Proof.
  intros Hst. unfold schedule_next_prayer. rewrite Hst.
  destruct st as [d ip cp idl af faf saf fjaf [u|] pr]; simpl;
    destruct d as [d|]; simpl; eauto;
    destruct (select config d (clock env)); simpl; eauto.
Qed.

Lemma schedule_played h st :
  store h = Some st →
  played_of (schedule_next_prayer env config h) = played_of h.
Proof.
  intros Hst. destruct (schedule_store h st Hst) as [u Hu].
  unfold played_of. rewrite Hu, Hst. done.
Qed.

(** With a schedule in the store, re-arming leaves a pending timer:
    for the selected prayer, or for the midnight refresh. *)
Lemma schedule_arms h st d :
  store h = Some st → coordinator_data st = Some d →
  let h' := schedule_next_prayer env config h in
  armed h' ∧
  (∀ p, select config d (clock env) = Some p → armed_for h' (name p)).
Proof.
  intros Hst Hd. unfold schedule_next_prayer. rewrite Hst.
  destruct st as [d0 ip cp idl af faf saf fjaf ut pr]; simpl in Hd; subst d0.
  destruct ut as [u0|]; simpl;
    destruct (select config d (clock env)) as [p|] eqn:Hsel; simpl.
  all: split;
    [ eexists _, _, _; split; [reflexivity|]; split; [reflexivity|];
      split; [apply elem_of_app; right; apply list_elem_of_singleton; reflexivity|];
      split; [reflexivity|done]
    | intros p' [= <-] || (intros p' [=]) ].
  all: eexists _, _, _, _; split; [reflexivity|]; split; [reflexivity|];
      split; [apply elem_of_app; right; apply list_elem_of_singleton; reflexivity|];
      split; [reflexivity|]; split; reflexivity.
Qed.

End Rearm.

(** ** The played-set guard *)

(** C5.  A prayer whose name is in [played_today] is never selected,
    whatever [now] is; a schedule whose prayers are each disabled or
    played selects nothing; when the timer of an already played prayer
    fires, no playback task is created, no service is called and the
    played-set is unchanged; and playing an already played prayer
    returns at once. *)
Theorem C5_played_guard (config : Config) (data : PrayerData) (now : datetime) :
  (∀ p, select config data now = Some p → name p ∉ played_today data)
  ∧ (Forall (λ p, enabled p = false ∨ name p ∈ played_today data) (prayers data) →
     select config data now = None)
  ∧ (∀ env h st next_prayer,
       store h = Some st → coordinator_data st = Some data →
       name next_prayer ∈ played_today data →
       let h' := prayer_callback env config next_prayer h in
       tasks h' = tasks h ∧ service_calls h' = service_calls h ∧
       played_of h' = Some (played_today data))
  ∧ (∀ env h st nm,
       store h = Some st → coordinator_data st = Some data →
       nm ∈ played_today data → nm ≠ "Test" →
       play_azan env config nm h = (h, AlreadyPlayed)).
Proof.
  split; [|split; [|split]].
  - intros p Hsel. apply find_next_prayer_elem in Hsel as [_ (_ & Hp & _)]. done.
  - intros Hall. apply find_next_prayer_None.
    eapply Forall_impl; [exact Hall|]. intros p Hp (Hen & Hnot & _).
    destruct Hp as [Hp|Hp]; [congruence|done].
  - intros env h st next_prayer Hst Hd Hin.
    unfold prayer_callback. rewrite Hst, Hd.
    rewrite bool_decide_eq_true_2 by done.
    rewrite schedule_tasks, schedule_service_calls.
    do 2 (split; [done|]).
    rewrite (schedule_played env config h st Hst).
    unfold played_of. rewrite Hst. simpl. rewrite Hd. done.
  - intros env h st nm Hst Hd Hin Hne.
    unfold play_azan. rewrite Hst, Hd.
    rewrite bool_decide_eq_true_2 by done.
    destruct (String.eqb_spec nm "Test"); [done|done].
Qed.

Lemma C5_played_guard_witness :
  (name (mk_prayer "Fajr" 0 5 0 true) ∉ played_today data_dhuhr_played)
  ∧ select cfg0 data_all_done (at_hm 0 5 30) = None
  ∧ tasks (prayer_callback (env0 (at_hm 0 12 0) false) cfg0
             (mk_prayer "Dhuhr" 0 12 0 true) (hass0 (Some data_dhuhr_played))) = []
  ∧ play_azan (env0 (at_hm 0 12 0) false) cfg0 "Dhuhr"
      (hass0 (Some data_dhuhr_played))
    = (hass0 (Some data_dhuhr_played), AlreadyPlayed).
Proof.
  split; [|split; [|split]].
  - apply (proj1 (C5_played_guard cfg0 data_dhuhr_played (at_hm 0 4 0))).
    vm_compute. reflexivity.
  - apply (proj1 (proj2 (C5_played_guard cfg0 data_all_done (at_hm 0 5 30)))).
    apply Forall_cons; split; [left; reflexivity|].
    apply Forall_cons; split; [left; reflexivity|].
    apply Forall_cons; split; [right; vm_compute; reflexivity|].
    apply Forall_nil_2.
  - apply (proj1 (proj2 (proj2
      (C5_played_guard cfg0 data_dhuhr_played (at_hm 0 5 30))))
      (env0 (at_hm 0 12 0) false) (hass0 (Some data_dhuhr_played))
      (store0 (Some data_dhuhr_played)) (mk_prayer "Dhuhr" 0 12 0 true));
      [reflexivity|reflexivity|vm_compute; reflexivity].
  - apply (proj2 (proj2 (proj2
      (C5_played_guard cfg0 data_dhuhr_played (at_hm 0 5 30))))
      (env0 (at_hm 0 12 0) false) (hass0 (Some data_dhuhr_played))
      (store0 (Some data_dhuhr_played)) "Dhuhr");
      [reflexivity|reflexivity|vm_compute; reflexivity|discriminate].
Defined.

(** ** Refresh and day rollover *)

Lemma carried_played_eqb today data :
  match data with
  | Some old => if String.eqb (date old) today then played_today old else ∅
  | None => ∅
  end = carried_played today data.
Proof.
  destruct data as [old|]; [|done]. unfold carried_played.
  destruct (String.eqb_spec (date old) today); case_decide; done.
Qed.

(** A refresh returns a schedule exactly when the fetch and the
    normalisation succeed, and the schedule is then determined. *)
Lemma async_update_data_Ok up today now config data new :
  async_update_data up today now config data = Ok new ↔
  ∃ raw ps, fetch up config = Ok raw ∧ normalize_times now config raw = Ok ps ∧
            new = {| prayers := ps; date := today;
                     played_today := carried_played today data |}.
Proof.
  unfold async_update_data. rewrite <- carried_played_eqb.
  destruct (fetch up config) as [raw|e] eqn:Hf.
  - destruct (normalize_times now config raw) as [ps|e] eqn:Hn;
      unfold mbind, res_bind, mret, res_ret.
    + split.
      * intros Hok. exists raw, ps. do 2 (split; [done|]).
        destruct data as [old|].
        -- destruct (String.eqb (date old) today); by inversion Hok.
        -- by inversion Hok.
      * intros (raw' & ps' & [= <-] & Hn' & ->).
        rewrite Hn in Hn'. injection Hn' as <-.
        destruct data as [old|]; [|done].
        by destruct (String.eqb (date old) today).
    + split; [done|]. intros (raw' & ps' & [= <-] & Hn' & _). congruence.
  - split; [done|]. by intros (? & ? & ? & _).
Qed.

(** C4.  A refresh on day [today] whose fetch and normalisation succeed
    returns a schedule, also when the previous schedule has the same
    date; the schedule it returns is dated [today] and carries the
    played-set of the previous schedule when that schedule has the same
    date, and an empty played-set when the date differs or when there is
    no previous schedule. *)
Theorem C4_played_rollover (up : Upstream) (today : string) (now : datetime)
  (config : Config) (data : option PrayerData) :
  (∀ raw ps,
     fetch up config = Ok raw → normalize_times now config raw = Ok ps →
     ∃ new, async_update_data up today now config data = Ok new
            ∧ prayers new = ps)
  ∧ (∀ new,
       async_update_data up today now config data = Ok new →
       date new = today
       ∧ played_today new = carried_played today data
       ∧ (∀ old, data = Some old → date old = today →
                 played_today new = played_today old)
       ∧ (∀ old, data = Some old → date old ≠ today → played_today new = ∅)
       ∧ (data = None → played_today new = ∅)).
Proof.
  split.
  - intros raw ps Hf Hn. eexists. split.
    + apply async_update_data_Ok. by exists raw, ps.
    + done.
  - intros new (raw & ps & _ & _ & ->)%async_update_data_Ok. simpl.
    do 2 (split; [done|]). split; [|split].
    + intros old -> Heq. simpl. by rewrite decide_True.
    + intros old -> Hne. simpl. by rewrite decide_False.
    + by intros ->.
Qed.

Lemma C4_played_rollover_witness :
  (∃ new,
     async_update_data (up_qatar raw_twelve_hour) "2024-06-21" 0 cfg0
       (Some data_dhuhr_played) = Ok new
     ∧ played_today new = {[ "Dhuhr" ]})
  ∧ (∃ new,
       async_update_data (up_qatar raw_twelve_hour) "2024-06-22" US_PER_DAY cfg0
         (Some data_yesterday) = Ok new
       ∧ played_today new = ∅).
Proof.
  split.
  - destruct (proj1 (C4_played_rollover (up_qatar raw_twelve_hour) "2024-06-21" 0
                       cfg0 (Some data_dhuhr_played)) raw_twelve_hour _
                eq_refl eq_refl) as (new & Hnew & _).
    exists new. split; [exact Hnew|].
    destruct (proj2 (C4_played_rollover (up_qatar raw_twelve_hour) "2024-06-21" 0
                       cfg0 (Some data_dhuhr_played)) new Hnew)
      as (_ & _ & Hsame & _).
    apply (Hsame data_dhuhr_played); reflexivity.
  - destruct (proj1 (C4_played_rollover (up_qatar raw_twelve_hour) "2024-06-22"
                       US_PER_DAY cfg0 (Some data_yesterday)) raw_twelve_hour _
                eq_refl eq_refl) as (new & Hnew & _).
    exists new. split; [exact Hnew|].
    destruct (proj2 (C4_played_rollover (up_qatar raw_twelve_hour) "2024-06-22"
                       US_PER_DAY cfg0 (Some data_yesterday)) new Hnew)
      as (_ & _ & _ & Hdiff & _).
    apply (Hdiff data_yesterday); [reflexivity|discriminate].
Defined.

(** ** The sensor against the scheduler *)

Lemma sensor_loop_find now ps :
  sensor_loop now ps = List.find (upcomingb now) ps.
Proof.
  induction ps as [|p ps IH]; [done|]. simpl. unfold upcomingb at 1.
  destruct (enabled p); simpl; [|done].
  by destruct (now <? time p).
Qed.

(** A played prayer shown by the sensor is not the one the scheduler
    selects. *)
Lemma sensor_shows_played config d now p :
  get_next_prayer (Some d) now = Some p → name p ∈ played_today d →
  select config d now ≠ Some p.
Proof.
  intros _ Hin Hsel.
  by apply find_next_prayer_elem in Hsel as [_ (_ & Hnot & _)].
Qed.

(** Inside the Sunrise offset window the sensor still shows Sunrise
    while the scheduler has moved on. *)
Lemma sensor_shows_sunrise_in_window config d now p :
  get_next_prayer (Some d) now = Some p → name p = "Sunrise" →
  time p - timedelta_minutes (get (offset_minutes config) 0) ≤ now →
  select config d now ≠ Some p.
Proof.
  intros _ Hname Hwin Hsel.
  apply find_next_prayer_elem in Hsel as [_ (_ & _ & Hlt)].
  unfold offset_of in Hlt. rewrite Hname in Hlt. simpl in Hlt.
  unfold DEFAULT_OFFSET_MINUTES in Hlt. lia.
Qed.

(** C10.  The Next Prayer sensor returns the first enabled prayer whose
    raw time is strictly after [now]; the scheduler returns the first
    enabled, unplayed prayer whose time minus its offset is strictly
    after [now].  There is a state with a prayer played before its time,
    and a state with Sunrise enabled and [now] inside its offset window,
    in which the sensor names one prayer and the armed timer fires
    another. *)
Theorem C10_sensor_differs_from_scheduler :
  (∀ d now, get_next_prayer (Some d) now = List.find (upcomingb now) (prayers d))
  ∧ (∀ config d now,
       select config d now =
       List.find (eligibleb config (played_today d) now) (prayers d))
  ∧ (∃ config env d p,
       p ∈ prayers d ∧ name p ∈ played_today d ∧ clock env < time p
       ∧ next_prayer_native_value (Some d) (clock env) = Some "Fajr"
       ∧ armed_for (schedule_next_prayer env config (hass0 (Some d))) "Dhuhr")
  ∧ (∃ config env d p m,
       p ∈ prayers d ∧ name p = "Sunrise" ∧ enabled p = true
       ∧ offset_minutes config = Some m ∧ 0 < m
       ∧ time p - timedelta_minutes m ≤ clock env < time p
       ∧ played_today d = ∅
       ∧ next_prayer_native_value (Some d) (clock env) = Some "Sunrise"
       ∧ armed_for (schedule_next_prayer env config (hass0 (Some d))) "Dhuhr").
Proof.
  split; [|split; [|split]].
  - intros d now. apply sensor_loop_find.
  - intros config d now. apply find_next_prayer_find.
  - exists cfg0, (env0 (at_hm 0 4 0) false), data_fajr_played_early,
      (mk_prayer "Fajr" 0 5 0 true).
    split; [apply list_elem_of_here|].
    split; [vm_compute; reflexivity|].
    split; [reflexivity|]. split; [reflexivity|].
    apply (proj2 (schedule_arms (env0 (at_hm 0 4 0) false) cfg0
                    (hass0 (Some data_fajr_played_early))
                    (store0 (Some data_fajr_played_early))
                    data_fajr_played_early eq_refl eq_refl)
             (mk_prayer "Dhuhr" 0 12 0 true)).
    vm_compute. reflexivity.
  - exists (with_offset cfg0 30), (env0 (at_hm 0 6 10) false),
      data_sunrise_enabled, (mk_prayer "Sunrise" 0 6 30 true), 30.
    split; [apply list_elem_of_further, list_elem_of_here|].
    do 4 (split; [reflexivity|]).
    split; [split; vm_compute; [discriminate|reflexivity] |].
    do 2 (split; [reflexivity|]).
    apply (proj2 (schedule_arms (env0 (at_hm 0 6 10) false) (with_offset cfg0 30)
                    (hass0 (Some data_sunrise_enabled))
                    (store0 (Some data_sunrise_enabled))
                    data_sunrise_enabled eq_refl eq_refl)
             (mk_prayer "Dhuhr" 0 12 0 true)).
    vm_compute. reflexivity.
Qed.

(** ** Playback: failure paths *)

Lemma call_all_raised env calls made :
  call_all env calls = (made, true) →
  ∃ c, c ∈ made ∧ c ∈ calls ∧ call_raises env c = true.
Proof.
  revert made. induction calls as [|c calls IH]; intros made; simpl; [done|].
  destruct (call_raises env c) eqn:Hc.
  - intros [= <-]. exists c. set_solver.
  - destruct (call_all env calls) as [made' raised] eqn:Hall.
    intros [= <- ->]. destruct (IH made' eq_refl) as (c' & ? & ? & ?).
    exists c'. set_solver.
Qed.

Lemma call_all_ok env calls made :
  call_all env calls = (made, false) →
  made = calls ∧ Forall (λ c, call_raises env c = false) calls.
Proof.
  revert made. induction calls as [|c calls IH]; intros made; simpl.
  - by intros [= <-].
  - destruct (call_raises env c) eqn:Hc; [done|].
    destruct (call_all env calls) as [made' raised] eqn:Hall.
    intros [= <- ->]. destruct (IH made' eq_refl) as [-> ?].
    split; [done|by constructor].
Qed.

Lemma dispatch_calls_unconfigured config url :
  target_unconfigured config → dispatch_calls config url = None.
Proof.
  unfold target_unconfigured, dispatch_calls, no_media_player.
  intros [[-> Hmp]|[-> Hns]]; simpl.
  - destruct (media_player config) as [[e|l]|]; subst; done.
  - destruct (notify_service config) as [sv|]; [|done].
    simpl in Hns. apply negb_false_iff in Hns. by rewrite Hns.
Qed.

Lemma call_all_Exists env calls :
  Exists (λ c, call_raises env c = true) calls →
  ∃ pre c post,
    calls = pre ++ c :: post ∧ call_raises env c = true ∧
    Forall (λ c, call_raises env c = false) pre ∧
    call_all env calls = (pre ++ [c], true).
Proof.
  induction calls as [|c0 calls IH]; [by intros ?%Exists_nil|].
  intros Hex. simpl. destruct (call_raises env c0) eqn:Hc0.
  - by exists [], c0, calls.
  - apply Exists_cons in Hex as [Hex|Hex]; [congruence|].
    destruct (IH Hex) as (pre & c & post & -> & Hc & Hpre & ->).
    exists (c0 :: pre), c, post. split; [done|]. split; [done|].
    split; [by constructor|done].
Qed.

Lemma play_guard_false nm st :
  nm = "Test" ∨ (∀ d, coordinator_data st = Some d → nm ∉ played_today d) →
  negb (String.eqb nm "Test") &&
  match coordinator_data st with
  | Some data => bool_decide (nm ∈ played_today data)
  | None => false
  end = false.
Proof.
  intros [->|Hguard]; [done|].
  destruct (coordinator_data st) as [d|]; [|by rewrite andb_false_r].
  rewrite bool_decide_eq_false_2 by by apply Hguard.
  by rewrite andb_false_r.
Qed.

(** C6.  When a service call of the dispatch raises, whichever target
    it is, the prayer is not marked played, the playing state is
    cleared and the next-prayer timer is re-armed.  The other way a
    dispatch fails is not recovered: with no target configured the
    operation returns before the handler, so a firing leaves the
    played-set as it was, the status at "playing" and no timer
    outstanding.  The blank notify service of [cfg_vlc_blank] shows it:
    once the Fajr timer has fired and the playback task has run, no
    timer is pending. *)
Theorem C6_dispatch_failure_not_always_rearmed :
  (∀ env config nm h st d base calls,
     store h = Some st → coordinator_data st = Some d →
     reaches_dispatch env config st nm base →
     dispatch_calls config (media_url env config st nm base) = Some calls →
     Exists (λ c, call_raises env c = true) calls →
     let h' := (play_azan env config nm h).1 in
     played_of h' = Some (played_today d)
     ∧ armed h'
     ∧ (∀ p, select config d (clock env) = Some p → armed_for h' (name p))
     ∧ (∃ st', store h' = Some st' ∧ is_playing st' = false ∧
               currently_playing st' = None)
     ∧ (∃ pre c post,
          calls = pre ++ c :: post ∧ call_raises env c = true ∧
          Forall (λ c, call_raises env c = false) pre ∧
          service_calls h' = service_calls h ++ pre ++ [c]))
  ∧ (∀ env config nm h st base,
       store h = Some st →
       reaches_dispatch env config st nm base →
       target_unconfigured config →
       no_timer_outstanding h →
       let h' := (play_azan env config nm h).1 in
       played_of h' = played_of h
       ∧ no_timer_outstanding h' ∧ ¬ armed h'
       ∧ (∃ st', store h' = Some st' ∧ is_playing st' = true ∧
                 currently_playing st' = Some nm))
  ∧ (timers hass_blank_armed = [timer_fajr]
     ∧ timers hass_blank_fired = []
     ∧ tasks hass_blank_fired = [PlayAzanTask "Fajr"]
     ∧ (run_play_task (env0 (at_hm 0 5 0) false) cfg_vlc_blank
          hass_blank_fired).2 = Some NoTargetConfigured
     ∧ timers (run_play_task (env0 (at_hm 0 5 0) false) cfg_vlc_blank
                 hass_blank_fired).1 = []
     ∧ played_of (run_play_task (env0 (at_hm 0 5 0) false) cfg_vlc_blank
                    hass_blank_fired).1 = Some ∅
     ∧ status_native_value
         (run_play_task (env0 (at_hm 0 5 0) false) cfg_vlc_blank
            hass_blank_fired).1 = "playing"
     ∧ ¬ armed (run_play_task (env0 (at_hm 0 5 0) false) cfg_vlc_blank
                  hass_blank_fired).1).
Proof.
  split; [|split].
  - intros env config nm h st d base calls Hst Hd (Hguard & Haudio & Hbase)
      Hcalls Hex h'. subst h'.
    destruct (call_all_Exists env calls Hex)
      as (pre & c & post & Heq & Hc & Hpre & Hall).
    unfold play_azan. rewrite Hst, (play_guard_false nm st Hguard).
    rewrite Haudio, Hbase. unfold media_url in Hcalls. rewrite Hcalls, Hall.
    cbn [fst].
    set (st2 := set_playing (set_playing st true (Some nm)) false None).
    set (h2 := set_store
                 (log_calls (set_store h (set_playing st true (Some nm)))
                    (pre ++ [c])) st2).
    assert (Hst2 : store h2 = Some st2) by done.
    assert (Hd2 : coordinator_data st2 = Some d) by done.
    split; [|split; [|split; [|split]]].
    + rewrite (schedule_played env config h2 st2 Hst2).
      unfold played_of. simpl. by rewrite Hd.
    + apply (schedule_arms env config h2 st2 d Hst2 Hd2).
    + apply (schedule_arms env config h2 st2 d Hst2 Hd2).
    + destruct (schedule_store env config h2 st2 Hst2) as [u Hu].
      exists (set_unsub_timer st2 u). by rewrite Hu.
    + exists pre, c, post. do 3 (split; [done|]).
      by rewrite schedule_service_calls.
  - intros env config nm h st base Hst (Hguard & Haudio & Hbase) Hno Hnone h'.
    subst h'. unfold play_azan. rewrite Hst, (play_guard_false nm st Hguard).
    rewrite Haudio, Hbase, (dispatch_calls_unconfigured config _ Hno).
    cbn [fst]. split; [by unfold played_of; rewrite Hst|].
    split; [exact Hnone|]. split.
    + intros (st' & u & t & _ & _ & Ht & _ & Hsched).
      simpl in Ht. unfold no_timer_outstanding in Hnone.
      rewrite Forall_forall in Hnone. by apply (Hnone t).
    + by eexists.
  - do 7 (split; [vm_compute; reflexivity|]).
    intros (st' & u & t & _ & _ & Ht & _).
    assert (Hnil : timers (run_play_task (env0 (at_hm 0 5 0) false) cfg_vlc_blank
                             hass_blank_fired).1 = []) by (vm_compute; reflexivity).
    rewrite Hnil in Ht. by apply elem_of_nil in Ht.
Qed.

Lemma C6_dispatch_failure_not_always_rearmed_witness :
  let r := play_azan (env_kitchen_raises (at_hm 0 5 0)) cfg_three_speakers "Fajr"
             (hass0 (Some data_sunrise_enabled)) in
  played_of r.1 = Some ∅
  ∧ armed_for r.1 "Sunrise"
  ∧ ∃ pre c post,
      [PlayMedia "media_player.living_room"
         "http://ha.local:8123/local/azan/azan.mp3";
       PlayMedia "media_player.kitchen"
         "http://ha.local:8123/local/azan/azan.mp3";
       PlayMedia "media_player.bedroom"
         "http://ha.local:8123/local/azan/azan.mp3"] = pre ++ c :: post
      ∧ service_calls r.1 = pre ++ [c].
Proof.
  intros r.
  destruct (proj1 C6_dispatch_failure_not_always_rearmed
              (env_kitchen_raises (at_hm 0 5 0)) cfg_three_speakers "Fajr"
              (hass0 (Some data_sunrise_enabled))
              (store0 (Some data_sunrise_enabled)) data_sunrise_enabled
              "http://ha.local:8123"
              [PlayMedia "media_player.living_room"
                 "http://ha.local:8123/local/azan/azan.mp3";
               PlayMedia "media_player.kitchen"
                 "http://ha.local:8123/local/azan/azan.mp3";
               PlayMedia "media_player.bedroom"
                 "http://ha.local:8123/local/azan/azan.mp3"])
    as (Hp & _ & Hfor & _ & pre & c & post & Heq & _ & _ & Hcalls).
  - reflexivity.
  - reflexivity.
  - split; [|split; reflexivity].
    right. intros d [= <-]. apply not_elem_of_empty.
  - reflexivity.
  - apply Exists_cons_tl, Exists_cons_hd. reflexivity.
  - split; [exact Hp|]. split.
    + apply (Hfor (mk_prayer "Sunrise" 0 6 30 true)). vm_compute. reflexivity.
    + exists pre, c, post. split; [exact Heq|exact Hcalls].
Defined.



(** ** Parsing of time strings *)

Lemma roundtrip_check_all :
  forallb (λ hh, forallb (roundtrip_check hh) (seqZ 0 60)) (seqZ 0 24) = true.
Proof. vm_compute. reflexivity. Qed.

(** Reading back a rendered time gives the hour and the minute. *)
Lemma parse_hour_minute_render hh mm :
  0 ≤ hh ≤ 23 → 0 ≤ mm ≤ 59 →
  parse_hour_minute (render_hhmm hh mm) = Ok (Some (hh, mm)).
Proof.
  intros Hh Hm. pose proof roundtrip_check_all as Hall.
  rewrite forallb_forall in Hall.
  assert (Hhin : In hh (seqZ 0 24))
    by (apply list_elem_of_In, elem_of_seqZ; lia).
  specialize (Hall hh Hhin). rewrite forallb_forall in Hall.
  assert (Hmin : In mm (seqZ 0 60))
    by (apply list_elem_of_In, elem_of_seqZ; lia).
  specialize (Hall mm Hmin). unfold roundtrip_check in Hall.
  by apply bool_decide_eq_true in Hall.
Qed.

Lemma is_afternoon_spec nm :
  is_afternoon nm = true ↔ nm ∈ ["Asr"; "Maghrib"; "Isha"].
Proof.
  unfold is_afternoon. rewrite !orb_true_iff, !String.eqb_eq.
  rewrite !elem_of_cons, elem_of_nil. tauto.
Qed.

Lemma adjust_hour_morning nm hour :
  nm ∈ ["Fajr"; "Sunrise"; "Dhuhr"] → adjust_hour nm hour = hour.
Proof.
  rewrite !elem_of_cons, elem_of_nil. unfold adjust_hour.
  intros [->|[->|[->|[]]]]; reflexivity.
Qed.

Lemma adjust_hour_afternoon nm hour :
  nm ∈ ["Asr"; "Maghrib"; "Isha"] →
  adjust_hour nm hour = if hour <? 10 then hour + 12 else hour.
Proof.
  intros Hnm%is_afternoon_spec. unfold adjust_hour. by rewrite Hnm.
Qed.

Lemma adjust_hour_range nm hour :
  0 ≤ hour ≤ 23 → 0 ≤ adjust_hour nm hour ≤ 23.
Proof.
  unfold adjust_hour. destruct (is_afternoon nm); simpl; [|lia].
  destruct (Z.ltb_spec hour 10); lia.
Qed.

Lemma replace_hm_valid now h m :
  0 ≤ h ≤ 23 → 0 ≤ m ≤ 59 → replace_hm now h m = Ok (at_hm (midnight_of now) h m).
Proof.
  intros Hh Hm. unfold replace_hm.
  replace ((0 <=? h) && (h <=? 23) && (0 <=? m) && (m <=? 59)) with true; [done|].
  symmetry. rewrite !andb_true_iff, !Z.leb_le. lia.
Qed.

(** The round trip fails for "03:00" and Isha: it is built as 15:00. *)
Lemma C3_roundtrip_counterexample :
  render_hhmm 3 0 = "03:00"
  ∧ parse_entry 0 cfg0 "Isha" "03:00" =
      Ok (Some {| name := "Isha"; time := at_hm 0 15 0; time_str := "15:00";
                  enabled := true |})
  ∧ ¬ (∃ p, parse_entry 0 cfg0 "Isha" (render_hhmm 3 0) = Ok (Some p)
            ∧ time_str p = render_hhmm 3 0 ∧ time p = at_hm 0 3 0).
Proof.
  split; [reflexivity|]. split; [reflexivity|].
  intros (p & Hp & Hs & _). vm_compute in Hp. injection Hp as <-.
  discriminate Hs.
Qed.

(** C3 (amended).  For every "HH:MM" with 0 ≤ HH ≤ 23 and 0 ≤ MM ≤ 59 the
    hour and minute read are (HH, MM).  The entry built for a canonical
    name renders back to the same "HH:MM", at that time of the day, for
    Fajr, Sunrise and Dhuhr and for every name when HH ≥ 10.  With the
    twelve-hour provider as the source, Asr, Maghrib and Isha with
    HH < 10 render as (HH + 12, MM). *)
Theorem C3_roundtrip_amended (now : datetime) (config : Config) (nm : string)
  (hh mm : Z) :
  nm ∈ PRAYER_ORDER → 0 ≤ hh ≤ 23 → 0 ≤ mm ≤ 59 →
  parse_hour_minute (render_hhmm hh mm) = Ok (Some (hh, mm))
  ∧ (nm ∈ ["Fajr"; "Sunrise"; "Dhuhr"] ∨ 10 ≤ hh →
     parse_entry now config nm (render_hhmm hh mm) =
       Ok (Some {| name := nm;
                   time := at_hm (midnight_of now) hh mm;
                   time_str := render_hhmm hh mm;
                   enabled := enabled_map config nm |}))
  ∧ (get (prayer_source config) SOURCE_QATAR_MOI = SOURCE_QATAR_MOI →
     nm ∈ ["Asr"; "Maghrib"; "Isha"] → hh < 10 →
     parse_entry now config nm (render_hhmm hh mm) =
       Ok (Some {| name := nm;
                   time := at_hm (midnight_of now) (hh + 12) mm;
                   time_str := render_hhmm (hh + 12) mm;
                   enabled := enabled_map config nm |})).
Proof.
  intros Hnm Hh Hm.
  pose proof (parse_hour_minute_render hh mm Hh Hm) as Hparse.
  assert (Hentry : parse_entry now config nm (render_hhmm hh mm) =
            Ok (Some {| name := nm;
                        time := at_hm (midnight_of now) (adjust_hour nm hh) mm;
                        time_str := render_hhmm (adjust_hour nm hh) mm;
                        enabled := enabled_map config nm |})).
  { unfold parse_entry. rewrite Hparse. simpl.
    rewrite replace_hm_valid by (auto using adjust_hour_range). done. }
  split; [done|]. split.
  - intros Hsame. rewrite Hentry.
    replace (adjust_hour nm hh) with hh; [done|].
    destruct Hsame as [Hmorning|Hlate]; [by rewrite adjust_hour_morning|].
    unfold adjust_hour. destruct (Z.ltb_spec hh 10); [lia|].
    by rewrite andb_false_r.
  - intros _ Haft Hearly. rewrite Hentry.
    rewrite adjust_hour_afternoon by done.
    destruct (Z.ltb_spec hh 10); [done|lia].
Qed.

Lemma C3_roundtrip_amended_witness :
  parse_entry 0 cfg0 "Fajr" (render_hhmm 3 0) =
    Ok (Some (mk_prayer "Fajr" 0 3 0 true))
  ∧ parse_entry 0 cfg0 "Isha" (render_hhmm 3 0) =
    Ok (Some (mk_prayer "Isha" 0 15 0 true)).
Proof.
  split.
  - refine (proj1 (proj2 (C3_roundtrip_amended 0 cfg0 "Fajr" 3 0 _ _ _)) _).
    + apply list_elem_of_here.
    + lia.
    + lia.
    + left. apply list_elem_of_here.
  - refine (proj2 (proj2 (C3_roundtrip_amended 0 cfg0 "Isha" 3 0 _ _ _)) _ _ _).
    + do 5 apply list_elem_of_further. apply list_elem_of_here.
    + lia.
    + lia.
    + reflexivity.
    + do 2 apply list_elem_of_further. apply list_elem_of_here.
    + lia.
Defined.

(** ** Canonical order of built schedules *)

Lemma index_of_lookup x l i : index_of x l = Some i → l !! i = Some x.
Proof.
  revert i. induction l as [|y l IH]; intros i; simpl; [done|].
  destruct (decide (x = y)) as [->|Hne].
  - by intros [= <-].
  - destruct (index_of x l) as [j|]; simpl; [|done].
    intros [= <-]. by apply IH.
Qed.

Lemma index_of_elem x l : x ∈ l → is_Some (index_of x l).
Proof.
  induction l as [|y l IH]; [by intros ?%elem_of_nil|].
  intros [->|Hin]%elem_of_cons; simpl.
  - rewrite decide_True by done. by eexists.
  - destruct (decide (x = y)); [by eexists|].
    destruct (IH Hin) as [j ->]. by eexists.
Qed.

Lemma pos_inj x y l : x ∈ l → y ∈ l → pos x l = pos y l → x = y.
Proof.
  intros [i Hi]%index_of_elem [j Hj]%index_of_elem. unfold pos.
  rewrite Hi, Hj. intros ->.
  apply index_of_lookup in Hi, Hj. congruence.
Qed.

Lemma pos_head a l : pos a (a :: l) = O.
Proof. unfold pos. simpl. by rewrite decide_True. Qed.

Lemma pos_tail x a l : x ≠ a → x ∈ l → pos x (a :: l) = S (pos x l).
Proof.
  intros Hne [i Hi]%index_of_elem. unfold pos. simpl.
  rewrite decide_False by done. by rewrite Hi.
Qed.

Lemma StronglySorted_transfer {A : Type} (R R' : relation A) (P : A → Prop) l :
  (∀ x y, P x → P y → R x y → R' x y) →
  Forall P l → StronglySorted R l → StronglySorted R' l.
Proof.
  intros HR. induction l as [|x l IH]; [constructor|].
  intros [Hx Hl]%Forall_cons [Hxl Hs]%StronglySorted_cons.
  apply StronglySorted_cons. split; [|by apply IH].
  rewrite Forall_forall in Hxl, Hl |- *. intros y Hy. apply HR; auto.
Qed.

(** Names of [L] listed by strictly increasing position form a sublist
    of [L]. *)
Lemma pos_sorted_sublist (L ns : list string) :
  Forall (λ x, x ∈ L) ns →
  StronglySorted (λ a b, (pos a L < pos b L)%nat) ns →
  ns `sublist_of` L.
Proof.
  revert ns. induction L as [|a L IH]; intros ns Hin Hs.
  - destruct ns as [|x ns]; [done|].
    apply Forall_cons in Hin as [Hx _]. by apply elem_of_nil in Hx.
  - destruct ns as [|x ns]; [apply sublist_nil_l|].
    pose proof Hs as [Hx Hs']%StronglySorted_cons.
    pose proof Hin as [Hxin Hin']%Forall_cons.
    assert (Htail : Forall (λ y, y ≠ a ∧ y ∈ L) ns).
    { rewrite Forall_forall in Hx, Hin' |- *. intros y Hy.
      assert (y ≠ a) as Hne.
      { intros ->. specialize (Hx a Hy). rewrite pos_head in Hx. lia. }
      split; [done|]. specialize (Hin' y Hy).
      apply elem_of_cons in Hin' as [?|?]; done. }
    assert (Hshift : ∀ l, Forall (λ y, y ≠ a ∧ y ∈ L) l →
              StronglySorted (λ a0 b, (pos a0 (a :: L) < pos b (a :: L))%nat) l →
              StronglySorted (λ a0 b, (pos a0 L < pos b L)%nat) l).
    { intros l. apply StronglySorted_transfer.
      intros y z [? ?] [? ?]. rewrite !pos_tail by done. lia. }
    destruct (decide (x = a)) as [->|Hne].
    + apply sublist_skip. apply IH.
      * eapply Forall_impl; [exact Htail|]. by intros ? [? ?].
      * by apply Hshift.
    + apply sublist_cons. apply IH.
      * apply Forall_cons. split.
        -- apply elem_of_cons in Hxin as [?|?]; done.
        -- eapply Forall_impl; [exact Htail|]. by intros ? [? ?].
      * apply Hshift; [|done]. apply Forall_cons. split; [|done].
        split; [done|]. apply elem_of_cons in Hxin as [?|?]; done.
Qed.

Section StableSort.
Context (key : string * string → nat).

Lemma insert_by_perm x l : insert_by key x l ≡ₚ x :: l.
Proof.
  induction l as [|y l IH]; simpl; [done|].
  destruct (key x <=? key y)%nat; [done|].
  rewrite IH. apply Permutation_swap.
Qed.

Lemma sorted_by_perm l : sorted_by key l ≡ₚ l.
Proof.
  induction l as [|x l IH]; simpl; [done|].
  unfold sorted_by in *. simpl. by rewrite insert_by_perm, IH.
Qed.

Lemma insert_by_sorted x l :
  StronglySorted (λ a b, (key a ≤ key b)%nat) l →
  StronglySorted (λ a b, (key a ≤ key b)%nat) (insert_by key x l).
Proof.
  induction l as [|y l IH]; simpl; intros Hs.
  - repeat constructor.
  - pose proof Hs as [Hy Hl]%StronglySorted_cons.
    destruct (Nat.leb_spec (key x) (key y)) as [Hle|Hgt].
    + apply StronglySorted_cons. split; [|done].
      apply Forall_cons. split; [done|].
      eapply Forall_impl; [exact Hy|]. simpl. lia.
    + apply StronglySorted_cons. split; [|by apply IH].
      rewrite (insert_by_perm x l). apply Forall_cons. split; [lia|done].
Qed.

Lemma sorted_by_sorted l :
  StronglySorted (λ a b, (key a ≤ key b)%nat) (sorted_by key l).
Proof.
  induction l as [|x l IH]; [constructor|].
  unfold sorted_by in *. simpl. by apply insert_by_sorted.
Qed.

(** An entry outside [P] does not disturb the entries inside. *)
Lemma filter_insert_by (P : string * string → Prop) `{∀ e, Decision (P e)} x l :
  ¬ P x → filter P (insert_by key x l) = filter P l.
Proof.
  intros Hx. induction l as [|y l IH]; simpl.
  - by rewrite filter_cons_False.
  - destruct (key x <=? key y)%nat.
    + by rewrite (filter_cons_False _ x).
    + rewrite !filter_cons. by rewrite IH.
Qed.

End StableSort.

Lemma sort_key_recognised e : recognised e → sort_key e = pos e.1 PRAYER_ORDER.
Proof.
  intros He. unfold sort_key, pos. by rewrite bool_decide_eq_true_2.
Qed.

Lemma recognised_entries_sorted raw :
  NoDup raw.*1 →
  StronglySorted (λ a b, (pos a.1 PRAYER_ORDER < pos b.1 PRAYER_ORDER)%nat)
    (recognised_entries raw).
Proof.
  intros Hnd. unfold recognised_entries.
  pose proof (sorted_by_sorted sort_key raw) as Hs.
  pose proof (sorted_by_perm sort_key raw) as Hp.
  assert (Hnd' : NoDup (sorted_by sort_key raw).*1) by by rewrite Hp.
  clear Hp Hnd. revert Hs Hnd'. generalize (sorted_by sort_key raw) as l.
  induction l as [|x l IH]; intros Hs Hnd'; [constructor|].
  apply StronglySorted_cons in Hs as [Hx Hs].
  rewrite fmap_cons in Hnd'. apply NoDup_cons in Hnd' as [Hnot Hnd'].
  rewrite filter_cons. destruct (decide (recognised x)) as [Hrx|]; [|by apply IH].
  apply StronglySorted_cons. split; [|by apply IH].
  apply Forall_forall. intros y [Hry Hy]%list_elem_of_filter.
  rewrite Forall_forall in Hx. specialize (Hx y Hy).
  rewrite !sort_key_recognised in Hx by done.
  assert (x.1 ≠ y.1) as Hne.
  { intros Heq. apply Hnot. rewrite Heq. by apply list_elem_of_fmap_2. }
  assert (pos x.1 PRAYER_ORDER ≠ pos y.1 PRAYER_ORDER)
    by (intros ?; by apply Hne, (pos_inj _ _ PRAYER_ORDER)).
  lia.
Qed.

Lemma pos_lt_antisymm :
  AntiSymm (=) (λ a b : string * string,
                  (pos a.1 PRAYER_ORDER < pos b.1 PRAYER_ORDER)%nat).
Proof. intros a b ? ?. lia. Qed.

Lemma recognised_entries_perm raw raw' :
  NoDup raw.*1 → raw' ≡ₚ raw → recognised_entries raw' = recognised_entries raw.
Proof.
  intros Hnd Hp.
  apply (@StronglySorted_unique _
           (λ a b, (pos a.1 PRAYER_ORDER < pos b.1 PRAYER_ORDER)%nat)
           pos_lt_antisymm).
  - apply recognised_entries_sorted. by rewrite Hp.
  - by apply recognised_entries_sorted.
  - unfold recognised_entries. by rewrite !sorted_by_perm, Hp.
Qed.

Lemma recognised_entries_names raw :
  NoDup raw.*1 → (recognised_entries raw).*1 `sublist_of` PRAYER_ORDER.
Proof.
  intros Hnd. apply pos_sorted_sublist.
  - apply Forall_fmap, Forall_forall.
    by intros e [He _]%list_elem_of_filter.
  - eapply (StronglySorted_fmap fst); [|by apply recognised_entries_sorted].
    done.
Qed.

Lemma parse_entry_name now config nm ts p :
  parse_entry now config nm ts = Ok (Some p) → name p = nm.
Proof.
  unfold parse_entry.
  destruct (parse_hour_minute ts) as [[[hour minute]|]|]; simpl; [|done|done].
  destruct (replace_hm now (adjust_hour nm hour) minute); simpl; [|done].
  by intros [= <-].
Qed.

(** The loop only looks at the recognised entries. *)
Lemma normalize_loop_filter now config acc l :
  normalize_loop now config acc l =
  normalize_loop now config acc (filter recognised l).
Proof.
  revert acc. induction l as [|[nm ts] l IH]; intros acc; [done|].
  rewrite filter_cons. simpl.
  destruct (decide (recognised (nm, ts))) as [Hr|Hr]; unfold recognised in Hr;
    simpl in Hr.
  - simpl. rewrite bool_decide_eq_false_2 by (intros Hn; by apply Hn).
    destruct (parse_entry now config nm ts) as [[p|]|]; simpl; auto.
  - rewrite bool_decide_eq_true_2 by done. apply IH.
Qed.

(** The names appended by the loop follow the entries, some dropped. *)
Lemma normalize_loop_names now config acc l ps :
  normalize_loop now config acc l = Ok ps →
  ∃ new, ps = acc ++ new ∧ (name <$> new) `sublist_of` l.*1.
Proof.
  revert acc. induction l as [|[nm ts] l IH]; intros acc; simpl.
  - intros [= <-]. exists []. by rewrite app_nil_r.
  - destruct (bool_decide (nm ∉ PRAYER_ORDER)).
    { intros (new & -> & Hsub)%IH. exists new. split; [done|].
      by apply sublist_cons. }
    destruct (parse_entry now config nm ts) as [[p|]|] eqn:Hp; simpl; [| |done].
    + intros (new & -> & Hsub)%IH. exists (p :: new).
      rewrite <- app_assoc. split; [done|]. rewrite fmap_cons.
      rewrite (parse_entry_name _ _ _ _ _ Hp). by apply sublist_skip.
    + intros (new & -> & Hsub)%IH. exists new. split; [done|].
      by apply sublist_cons.
Qed.

Lemma normalize_times_recognised now config raw :
  normalize_times now config raw =
  normalize_loop now config [] (recognised_entries raw).
Proof. unfold normalize_times. apply normalize_loop_filter. Qed.

(** C8.  For a mapping with distinct keys, the result of building the
    schedule is the same for every iteration order of the mapping and is
    not changed by an entry whose name is outside the canonical set; the
    names of the built prayers form a sublist of the canonical order, so
    each is canonical, occurs at most once, and they appear in canonical
    order. *)
Theorem C8_canonical_order (now : datetime) (config : Config) (raw : raw_times) :
  NoDup raw.*1 →
  (∀ raw', raw' ≡ₚ raw →
           normalize_times now config raw' = normalize_times now config raw)
  ∧ (∀ k v, k ∉ PRAYER_ORDER →
            normalize_times now config ((k, v) :: raw) =
            normalize_times now config raw)
  ∧ (∀ ps, normalize_times now config raw = Ok ps →
           (name <$> ps) `sublist_of` PRAYER_ORDER
           ∧ NoDup (name <$> ps)
           ∧ Forall (λ p, name p ∈ PRAYER_ORDER) ps).
Proof.
  intros Hnd. split; [|split].
  - intros raw' Hp. rewrite !normalize_times_recognised.
    by rewrite (recognised_entries_perm raw raw').
  - intros k v Hk. rewrite !normalize_times_recognised.
    unfold recognised_entries, sorted_by. simpl.
    by rewrite filter_insert_by.
  - intros ps Hps. rewrite normalize_times_recognised in Hps.
    apply normalize_loop_names in Hps as (new & -> & Hsub). simpl.
    assert (Hsub' : (name <$> new) `sublist_of` PRAYER_ORDER)
      by (etrans; [exact Hsub|by apply recognised_entries_names]).
    split; [done|]. split.
    + eapply sublist_NoDup; [|exact Hsub'].
      apply (bool_decide_unpack _). vm_compute. exact I.
    + apply Forall_forall. intros p Hp.
      eapply sublist_subseteq; [exact Hsub'|]. by apply list_elem_of_fmap_2.
Qed.

Lemma C8_canonical_order_witness :
  normalize_times 0 cfg0 (reverse raw_shuffled) =
    Ok [mk_prayer "Fajr" 0 5 12 true; mk_prayer "Dhuhr" 0 12 5 true;
        mk_prayer "Asr" 0 15 30 true; mk_prayer "Maghrib" 0 18 10 true;
        mk_prayer "Isha" 0 19 45 true]
  ∧ normalize_times 0 cfg0 (("Imsak", "04:58") :: raw_shuffled) =
    normalize_times 0 cfg0 raw_shuffled
  ∧ ["Fajr"; "Dhuhr"; "Asr"; "Maghrib"; "Isha"] `sublist_of` PRAYER_ORDER.
Proof.
  assert (Hnd : NoDup raw_shuffled.*1).
  { apply (bool_decide_unpack _). vm_compute. exact I. }
  destruct (C8_canonical_order 0 cfg0 raw_shuffled Hnd) as (Hperm & Hdrop & Hord).
  split; [|split].
  - rewrite (Hperm (reverse raw_shuffled)); [reflexivity|].
    apply reverse_Permutation.
  - apply Hdrop. apply (bool_decide_unpack _). vm_compute. exact I.
  - apply (Hord [mk_prayer "Fajr" 0 5 12 true; mk_prayer "Dhuhr" 0 12 5 true;
                 mk_prayer "Asr" 0 15 30 true; mk_prayer "Maghrib" 0 18 10 true;
                 mk_prayer "Isha" 0 19 45 true]).
    reflexivity.
Defined.

(** ** The twelve-hour rule and the provider *)

Lemma parse_entry_with_source now config src nm ts :
  parse_entry now (with_source config src) nm ts = parse_entry now config nm ts.
Proof. reflexivity. Qed.

(** The normalisation never consults the configured provider. *)
Lemma normalize_times_with_source now config src raw :
  normalize_times now (with_source config src) raw =
  normalize_times now config raw.
Proof.
  unfold normalize_times. generalize (@nil Prayer) as acc.
  induction (sorted_by sort_key raw) as [|[nm ts] l IH]; intros acc; [done|].
  simpl. destruct (bool_decide (nm ∉ PRAYER_ORDER)); [apply IH|].
  rewrite parse_entry_with_source.
  destruct (parse_entry now config nm ts) as [[p|]|]; simpl; auto.
Qed.

(** C2.  The twelve-hour adjustment is applied whatever the provider is:
    the normalisation does not depend on the configured source, and with
    AlAdhan as the source an Isha of "00:30" is built as 12:30.  Fajr,
    Sunrise and Dhuhr are never adjusted; "03:00" gives hour 15 for Isha
    and hour 3 for Fajr. *)
Theorem C2_pm_rule_ignores_source :
  (∀ now config src raw,
     normalize_times now (with_source config src) raw =
     normalize_times now config raw)
  ∧ (async_update_data (up_aladhan raw_aladhan_summer) "2024-06-21" 0
       (with_source cfg0 SOURCE_ALADHAN) None
     = Ok (PrayerData_init
             [mk_prayer "Fajr" 0 2 43 true; mk_prayer "Sunrise" 0 4 26 false;
              mk_prayer "Dhuhr" 0 13 15 true; mk_prayer "Asr" 0 17 41 true;
              mk_prayer "Maghrib" 0 22 3 true; mk_prayer "Isha" 0 12 30 true]
             "2024-06-21"))
  ∧ (∀ hour, adjust_hour "Fajr" hour = hour ∧ adjust_hour "Sunrise" hour = hour
              ∧ adjust_hour "Dhuhr" hour = hour)
  ∧ parse_entry 0 cfg0 "Isha" "03:00" = Ok (Some (mk_prayer "Isha" 0 15 0 true))
  ∧ parse_entry 0 cfg0 "Fajr" "03:00" = Ok (Some (mk_prayer "Fajr" 0 3 0 true)).
Proof.
  split; [apply normalize_times_with_source|].
  split; [reflexivity|].
  split; [by intros hour|].
  split; reflexivity.
Qed.

(** ** Malformed time strings *)

Lemma split_nonempty sep s : Py.split sep s ≠ [].
Proof.
  destruct s as [|c s]; simpl; [done|].
  destruct (Ascii.eqb c sep); [done|]. by destruct (Py.split sep s).
Qed.

(** Cleaning a time string never raises. *)
Lemma clean_time_Ok ts : ∃ tc, clean_time ts = Ok tc.
Proof.
  unfold clean_time, Py.subscript.
  pose proof (split_nonempty " " (Py.strip ts)) as H1.
  destruct (Py.split " " (Py.strip ts)) as [|t1 rest1]; [done|]. simpl.
  pose proof (split_nonempty "(" t1) as H2.
  destruct (Py.split "(" t1) as [|t2 rest2]; [done|]. simpl. by eexists.
Qed.

Lemma clean_time_examples :
  clean_time "05:12 (EST)" = Ok "05:12"
  ∧ clean_time "  05:12(+03) " = Ok "05:12"
  ∧ clean_time "05:12 PM" = Ok "05:12".
Proof. repeat split; reflexivity. Qed.

(** An entry without a colon-separated pair is skipped. *)
Lemma parse_entry_no_colon now config nm ts tc :
  clean_time ts = Ok tc → (length (Py.split ":" tc) < 2)%nat →
  parse_entry now config nm ts = Ok None.
Proof.
  intros Hc Hlen. unfold parse_entry, parse_hour_minute. rewrite Hc. simpl.
  destruct (Nat.ltb_spec (length (Py.split ":" tc)) 2); [done|lia].
Qed.

(** An entry whose hour is not a number makes the loop raise. *)
Lemma normalize_loop_raises now config acc nm ts tc rest :
  nm ∈ PRAYER_ORDER → clean_time ts = Ok tc →
  (2 ≤ length (Py.split ":" tc))%nat →
  (∀ p0, Py.split ":" tc !! O = Some p0 → Py.int p0 = Raise BuiltinError) →
  normalize_loop now config acc ((nm, ts) :: rest) = Raise BuiltinError.
Proof.
  intros Hnm Hc Hlen Hint. simpl.
  rewrite bool_decide_eq_false_2 by (intros Hn; by apply Hn).
  unfold parse_entry, parse_hour_minute. rewrite Hc. simpl.
  destruct (Nat.ltb_spec (length (Py.split ":" tc)) 2); [lia|].
  unfold Py.subscript.
  destruct (Py.split ":" tc !! O) as [p0|] eqn:Hp0; simpl; [|].
  - by rewrite (Hint p0 eq_refl).
  - apply lookup_ge_None in Hp0. lia.
Qed.

(** C7.  A time string with a colon but a non-numeric hour makes the
    whole normalisation, and the refresh, raise: the entry is not
    dropped and the other prayers are not built, whereas a string
    without a colon is skipped. *)
Theorem C7_non_numeric_entry_is_fatal :
  normalize_times 0 cfg0 [("Fajr", "--:--"); ("Dhuhr", "12:05")]
    = Raise BuiltinError
  ∧ async_update_data (up_qatar [("Fajr", "--:--"); ("Dhuhr", "12:05")])
      "2024-06-21" 0 cfg0 None = Raise BuiltinError
  ∧ normalize_times 0 cfg0 [("Fajr", "0512"); ("Dhuhr", "12:05")]
    = Ok [mk_prayer "Dhuhr" 0 12 5 true].
Proof. repeat split; reflexivity. Qed.

(** * Further properties *)

(** ** Selection as time passes *)

Lemma eligible_earlier config played now now' p :
  now ≤ now' → eligible config played now' p → eligible config played now p.
Proof. intros Hle (He & Hp & Hlt). repeat split; [done|done|lia]. Qed.

Lemma find_next_prayer_position config played now ps p :
  find_next_prayer config played now ps = Some p →
  ∃ i : nat, ps !! i = Some p ∧
    ∀ (j : nat) q, ps !! j = Some q → eligible config played now q → (i ≤ j)%nat.
Proof.
  intros (before & after & -> & Hp & Hbefore)%find_next_prayer_Some.
  exists (length before). split.
  - by rewrite lookup_app_r, Nat.sub_diag by lia.
  - intros j q Hj Hq. destruct (Nat.le_gt_cases (length before) j) as [|Hlt]; [done|].
    rewrite lookup_app_l in Hj by done.
    rewrite Forall_forall in Hbefore. exfalso.
    apply (Hbefore q); [|done]. by eapply list_elem_of_lookup_2.
Qed.

(** X1.  Selection only moves forward as time passes: when a prayer is
    selected at a later instant, the selection at an earlier instant
    exists and occurs at or before it in the schedule. *)
Theorem select_earlier_now (config : Config) (d : PrayerData)
  (now now' : datetime) (q : Prayer) :
  now ≤ now' → select config d now' = Some q →
  ∃ p, select config d now = Some p ∧ at_or_before (prayers d) p q.
Proof.
  intros Hle Hq. unfold select in *.
  pose proof Hq as (before & after & Hps & Helig & _)%find_next_prayer_Some.
  apply (eligible_earlier _ _ now now') in Helig; [|done].
  destruct (find_next_prayer config (played_today d) now (prayers d))
    as [p|] eqn:Hp.
  - exists p. split; [done|].
    apply find_next_prayer_position in Hp as (i & Hi & Hmin).
    exists i, (length before). split; [done|].
    assert (Hj : prayers d !! length before = Some q)
      by (rewrite Hps; by rewrite lookup_app_r, Nat.sub_diag by lia).
    split; [done|]. by apply (Hmin _ q).
  - apply find_next_prayer_None in Hp. rewrite Forall_forall in Hp.
    exfalso. apply (Hp q); [|done]. rewrite Hps. set_solver.
Qed.

Lemma select_earlier_now_witness :
  ∃ p, select cfg0 data_sunrise_enabled (at_hm 0 4 0) = Some p
       ∧ at_or_before (prayers data_sunrise_enabled) p
           (mk_prayer "Dhuhr" 0 12 0 true).
Proof.
  apply (select_earlier_now cfg0 data_sunrise_enabled (at_hm 0 4 0) (at_hm 0 7 0)).
  - vm_compute. discriminate.
  - vm_compute. reflexivity.
Defined.

(** ** The sensors and the scheduler *)

Lemma find_ext_elem {A : Type} (f g : A → bool) (l : list A) :
  (∀ x, x ∈ l → f x = g x) → List.find f l = List.find g l.
Proof.
  induction l as [|x l IH]; intros Hfg; [done|]. simpl.
  rewrite <- (Hfg x) by apply list_elem_of_here.
  destruct (f x); [done|]. apply IH. intros y Hy. apply Hfg. by right.
Qed.

(** X2.  When no enabled prayer of the schedule is in the played-set and
    no enabled prayer carries an offset, the Next Prayer sensor shows
    the prayer the scheduler selects. *)
Theorem sensor_agrees_with_scheduler (config : Config) (d : PrayerData)
  (now : datetime) :
  (∀ p, p ∈ prayers d → enabled p = true → name p ∉ played_today d) →
  (∀ p, p ∈ prayers d → enabled p = true → offset_of config (name p) = 0) →
  get_next_prayer (Some d) now = select config d now.
Proof.
  intros Hplayed Hoff. simpl. unfold select.
  rewrite sensor_loop_find, find_next_prayer_find.
  apply find_ext_elem. intros p Hp. unfold upcomingb, eligibleb.
  destruct (enabled p) eqn:He; [|done]. simpl.
  rewrite bool_decide_eq_false_2 by by apply Hplayed.
  rewrite Hoff by done. unfold timedelta_minutes. simpl.
  by rewrite Z.sub_0_r.
Qed.

Lemma sensor_agrees_with_scheduler_witness :
  get_next_prayer (Some data_sunrise_enabled) (at_hm 0 5 30) =
  select cfg0 data_sunrise_enabled (at_hm 0 5 30).
Proof.
  apply sensor_agrees_with_scheduler.
  - intros p _ _. apply not_elem_of_empty.
  - intros p _ _. unfold offset_of. by destruct (String.eqb (name p) "Sunrise").
Defined.

Lemma countdown_loop_find now ps :
  countdown_loop now ps = List.find (λ p, now <? time p) ps.
Proof.
  induction ps as [|p ps IH]; [done|]. simpl. by destruct (now <? time p).
Qed.



(** ** What the normalisation builds *)

Lemma replace_hm_Ok now h m t :
  replace_hm now h m = Ok t →
  0 ≤ h ≤ 23 ∧ 0 ≤ m ≤ 59 ∧ t = at_hm (midnight_of now) h m.
Proof.
  unfold replace_hm.
  destruct ((0 <=? h) && (h <=? 23) && (0 <=? m) && (m <=? 59)) eqn:Hb; [|done].
  rewrite !andb_true_iff, !Z.leb_le in Hb. intros [= <-].
  unfold at_hm. lia.
Qed.

Lemma parse_entry_well_built now config nm ts p :
  nm ∈ PRAYER_ORDER → parse_entry now config nm ts = Ok (Some p) →
  well_built now config p.
Proof.
  intros Hnm. unfold parse_entry.
  destruct (parse_hour_minute ts) as [[[hour minute]|]|]; simpl; [|done|done].
  destruct (replace_hm now (adjust_hour nm hour) minute) as [t|] eqn:Hr;
    simpl; [|done].
  intros [= <-]. apply replace_hm_Ok in Hr as (Hh & Hm & ->).
  exists (adjust_hour nm hour), minute. simpl. done.
Qed.

Lemma normalize_loop_well_built now config acc l ps :
  Forall (well_built now config) acc →
  normalize_loop now config acc l = Ok ps →
  Forall (well_built now config) ps.
Proof.
  revert acc. induction l as [|[nm ts] l IH]; intros acc Hacc; simpl.
  - by intros [= <-].
  - destruct (bool_decide (nm ∉ PRAYER_ORDER)) eqn:Hnm; [by apply IH|].
    apply bool_decide_eq_false in Hnm.
    assert (nm ∈ PRAYER_ORDER) as Hin
      by (destruct (decide (nm ∈ PRAYER_ORDER)); [done|by exfalso; apply Hnm]).
    destruct (parse_entry now config nm ts) as [[p|]|] eqn:Hp; simpl; [| |done].
    + apply IH. apply Forall_app. split; [done|].
      apply Forall_singleton. by eapply parse_entry_well_built.
    + by apply IH.
Qed.

Lemma at_hm_day_bounds now h m :
  0 ≤ h ≤ 23 → 0 ≤ m ≤ 59 →
  midnight_of now ≤ at_hm (midnight_of now) h m < midnight_of now + US_PER_DAY.
Proof.
  intros Hh Hm. unfold at_hm, US_PER_DAY, US_PER_HOUR, US_PER_MINUTE. lia.
Qed.

Lemma normalize_times_day_bounds now config raw ps :
  normalize_times now config raw = Ok ps →
  Forall (λ p, midnight_of now ≤ time p < midnight_of now + US_PER_DAY) ps.
Proof.
  intros Hps.
  eapply Forall_impl;
    [eapply (normalize_loop_well_built now config []); [constructor|exact Hps]|].
  intros p (h & m & Hh & Hm & Ht & _). rewrite Ht. by apply at_hm_day_bounds.
Qed.



Lemma enabled_map_sunrise config :
  get (prayer_sunrise config) false = false → enabled_map config "Sunrise" = false.
Proof. intros H. unfold enabled_map. simpl. exact H. Qed.

(** X5.  With the Sunrise toggle off (its default), the scheduler never
    selects Sunrise on a built schedule, and the offset setting does not
    change what it selects. *)
Theorem sunrise_off_offset_irrelevant (now0 : datetime) (config : Config)
  (raw : raw_times) (ps : list Prayer) :
  get (prayer_sunrise config) false = false →
  normalize_times now0 config raw = Ok ps →
  ∀ today played now m,
    let d := {| prayers := ps; date := today; played_today := played |} in
    select (with_offset config m) d now = select config d now
    ∧ ∀ p, select config d now = Some p → name p ≠ "Sunrise".
Proof.
  intros Hoff Hps today played now m d.
  assert (Hsun : ∀ p, p ∈ ps → enabled p = true → name p ≠ "Sunrise").
  { intros p Hp He Hname.
    pose proof (normalize_loop_well_built now0 config [] _ ps
                  (Forall_nil_2 _) Hps) as Hwb.
    rewrite Forall_forall in Hwb.
    destruct (Hwb p Hp) as (_ & _ & _ & _ & _ & _ & Hen & _).
    rewrite Hname, enabled_map_sunrise in Hen by done. congruence. }
  split.
  - unfold select. simpl. rewrite !find_next_prayer_find.
    apply find_ext_elem. intros p Hp. unfold eligibleb.
    destruct (enabled p) eqn:He; [|done].
    rewrite !offset_of_other by by apply Hsun. done.
  - intros p Hp. apply find_next_prayer_elem in Hp as [Hin (He & _)].
    by apply Hsun.
Qed.

Lemma sunrise_off_offset_irrelevant_witness :
  select (with_offset cfg0 45)
    {| prayers := [mk_prayer "Fajr" 0 2 43 true; mk_prayer "Sunrise" 0 4 26 false;
                   mk_prayer "Dhuhr" 0 13 15 true; mk_prayer "Asr" 0 17 41 true;
                   mk_prayer "Maghrib" 0 22 3 true; mk_prayer "Isha" 0 12 30 true];
       date := "2024-06-21"; played_today := ∅ |} (at_hm 0 4 0)
  = Some (mk_prayer "Dhuhr" 0 13 15 true).
Proof.
  rewrite (proj1 (sunrise_off_offset_irrelevant 0 cfg0 raw_aladhan_summer _
                    eq_refl eq_refl "2024-06-21" ∅ (at_hm 0 4 0) 45)).
  reflexivity.
Defined.

(** ** One timer per kind *)

Lemma timers_ok_ext h h' :
  timers h' = timers h → next_handle h' = next_handle h →
  handles h' = handles h → timers_ok h → timers_ok h'.
Proof.
  unfold timers_ok, handles. intros -> -> Hh (Hfresh & Hnd & Hst).
  split; [done|]. split; [done|].
  destruct (store h) as [st|], (store h') as [st'|]; simpl in Hh; try done.
  injection Hh as Hu Hr. destruct Hst as (Href & Hub & Hrb).
  rewrite Hu, Hr. split; [|done].
  eapply Forall_impl; [exact Href|]. intros t. unfold timer_ref.
  rewrite Hu, Hr. done.
Qed.

Lemma Forall_filter_keep {A : Type} (P Q : A → Prop) `{∀ x, Decision (Q x)} l :
  Forall P l → Forall P (filter Q l).
Proof.
  rewrite !Forall_forall. intros HP x [_ Hx]%list_elem_of_filter. by apply HP.
Qed.

Lemma timers_ok_cancel u h : timers_ok h → timers_ok (cancel u h).
Proof.
  unfold timers_ok. simpl. intros (Hfresh & Hnd & Hst).
  split; [by apply Forall_filter_keep|]. split.
  - eapply sublist_NoDup; [exact Hnd|]. apply fmap_sublist, sublist_filter.
  - destruct (store h) as [st|].
    + destruct Hst as (Href & ?). split; [by apply Forall_filter_keep|done].
    + by rewrite Hst.
Qed.

(** Cancelling through the store's handle removes every timer of that
    kind. *)
Lemma cancel_removes_scheduling h st u t :
  timers_ok h → store h = Some st → unsub_timer st = Some u →
  t ∈ timers (cancel u h) → ¬ scheduling_timer t.
Proof.
  intros (_ & _ & Hst) Hs Hu [Hne Ht]%list_elem_of_filter Hsched.
  rewrite Hs in Hst. destruct Hst as (Href & _).
  rewrite Forall_forall in Href. specialize (Href t Ht).
  unfold timer_ref, scheduling_timer in *.
  destruct (callback t); [| |done]; congruence.
Qed.

Lemma cancel_removes_reset h st u t :
  timers_ok h → store h = Some st → playback_reset_unsub st = Some u →
  t ∈ timers (cancel u h) → scheduling_timer t.
Proof.
  intros (_ & _ & Hst) Hs Hu [Hne Ht]%list_elem_of_filter.
  rewrite Hs in Hst. destruct Hst as (Href & _).
  rewrite Forall_forall in Href. specialize (Href t Ht).
  unfold timer_ref, scheduling_timer in *.
  destruct (callback t); [done|done|congruence].
Qed.

Lemma no_handle_no_scheduling h st t :
  timers_ok h → store h = Some st → unsub_timer st = None →
  t ∈ timers h → ¬ scheduling_timer t.
Proof.
  intros (_ & _ & Hst) Hs Hu Ht Hsched. rewrite Hs in Hst.
  destruct Hst as (Href & _). rewrite Forall_forall in Href.
  specialize (Href t Ht). unfold timer_ref, scheduling_timer in *.
  destruct (callback t); [| |done]; congruence.
Qed.

Lemma no_handle_no_reset h st t :
  timers_ok h → store h = Some st → playback_reset_unsub st = None →
  t ∈ timers h → scheduling_timer t.
Proof.
  intros (_ & _ & Hst) Hs Hu Ht. rewrite Hs in Hst.
  destruct Hst as (Href & _). rewrite Forall_forall in Href.
  specialize (Href t Ht). unfold timer_ref, scheduling_timer in *.
  destruct (callback t); [done|done|congruence].
Qed.

(** Registering a scheduling timer when none is pending. *)
Lemma timers_ok_arm h st cb at_ :
  timers_ok h → store h = Some st →
  (∀ t, t ∈ timers h → ¬ scheduling_timer t) →
  (∀ nm, cb ≠ ResetPlaying nm) →
  timers_ok (set_store (async_track_point_in_time h cb at_).1
               (set_unsub_timer st (Some (next_handle h)))).
Proof.
  intros (Hfresh & Hnd & Hst) Hs Hnone Hcb. rewrite Hs in Hst.
  destruct Hst as (Href & Hub & Hrb). unfold timers_ok. simpl.
  split; [|split; [|split; [|split]]].
  - apply Forall_app. split.
    + eapply Forall_impl; [exact Hfresh|]. simpl. lia.
    + apply Forall_singleton. simpl. lia.
  - rewrite fmap_app. apply NoDup_app. split; [done|]. split.
    + intros x Hx [->|[]%elem_of_nil]%elem_of_cons.
      apply list_elem_of_fmap in Hx as (t & Heq & Ht).
      rewrite Forall_forall in Hfresh. specialize (Hfresh t Ht). simpl in Heq. lia.
    + simpl. apply NoDup_singleton.
  - apply Forall_app. split.
    + apply Forall_forall. intros t Ht. rewrite Forall_forall in Href.
      specialize (Href t Ht). specialize (Hnone t Ht).
      unfold timer_ref, scheduling_timer in *. simpl.
      destruct (callback t); [by exfalso; apply Hnone|by exfalso; apply Hnone|done].
    + apply Forall_singleton. unfold timer_ref. simpl.
      destruct cb; [done|done|by destruct (Hcb prayer_name)].
  - intros u [= <-]. lia.
  - intros u Hu. specialize (Hrb u Hu). lia.
Qed.

(** Registering the reset timer when none is pending. *)
Lemma timers_ok_arm_reset h st nm at_ :
  timers_ok h → store h = Some st →
  (∀ t, t ∈ timers h → scheduling_timer t) →
  timers_ok (set_store (async_track_point_in_time h (ResetPlaying nm) at_).1
               (set_playback_reset_unsub st (Some (next_handle h)))).
Proof.
  intros (Hfresh & Hnd & Hst) Hs Hnone. rewrite Hs in Hst.
  destruct Hst as (Href & Hub & Hrb). unfold timers_ok. simpl.
  split; [|split; [|split; [|split]]].
  - apply Forall_app. split.
    + eapply Forall_impl; [exact Hfresh|]. simpl. lia.
    + apply Forall_singleton. simpl. lia.
  - rewrite fmap_app. apply NoDup_app. split; [done|]. split.
    + intros x Hx [->|[]%elem_of_nil]%elem_of_cons.
      apply list_elem_of_fmap in Hx as (t & Heq & Ht).
      rewrite Forall_forall in Hfresh. specialize (Hfresh t Ht). simpl in Heq. lia.
    + simpl. apply NoDup_singleton.
  - apply Forall_app. split.
    + apply Forall_forall. intros t Ht. rewrite Forall_forall in Href.
      specialize (Href t Ht). specialize (Hnone t Ht).
      unfold timer_ref, scheduling_timer in *. simpl.
      destruct (callback t); [done|done|by exfalso].
    + apply Forall_singleton. done.
  - intros u Hu. specialize (Hub u Hu). lia.
  - intros u [= <-]. lia.
Qed.

Lemma timers_ok_schedule env config h :
  timers_ok h → timers_ok (schedule_next_prayer env config h).
Proof.
  intros Hok. unfold schedule_next_prayer.
  destruct (store h) as [st|] eqn:Hs; [|done].
  set (h1 := match unsub_timer st with
             | Some u => set_store (cancel u h) (set_unsub_timer st None)
             | None => h
             end).
  set (st1 := match unsub_timer st with
              | Some _ => set_unsub_timer st None
              | None => st
              end).
  assert (Hs1 : store h1 = Some st1)
    by (unfold h1, st1; by destruct (unsub_timer st)).
  assert (Hu1 : unsub_timer st1 = None)
    by (unfold st1; by destruct (unsub_timer st) eqn:?).
  assert (Hok1 : timers_ok h1 ∧ ∀ t, t ∈ timers h1 → ¬ scheduling_timer t).
  { unfold h1. destruct (unsub_timer st) as [u|] eqn:Hu.
    - pose proof (timers_ok_cancel u h Hok) as (Hf & Hn & Hc).
      simpl in Hc. rewrite Hs in Hc. destruct Hc as (Href & _ & Hrb).
      split.
      + split; [done|]. split; [done|]. simpl. split; [|done].
        apply Forall_forall. intros t Ht.
        pose proof (cancel_removes_scheduling h st u t Hok Hs Hu Ht) as Hns.
        rewrite Forall_forall in Href. specialize (Href t Ht).
        unfold timer_ref, scheduling_timer in *. simpl.
        destruct (callback t); [by exfalso; apply Hns|by exfalso; apply Hns|done].
      + intros t Ht. by apply (cancel_removes_scheduling h st u t).
    - split; [done|]. intros t Ht. by apply (no_handle_no_scheduling h st t). }
  destruct Hok1 as [Hok1 Hnone].
  destruct (coordinator_data st1) as [d|]; [|done].
  destruct (select config d (clock env)) as [p|].
  - apply (timers_ok_arm h1 st1); done.
  - apply (timers_ok_arm h1 st1); done.
Qed.

Lemma timers_ok_play_azan env config nm h :
  timers_ok h → timers_ok (play_azan env config nm h).1.
Proof.
  intros Hok. unfold play_azan.
  destruct (store h) as [st|] eqn:Hs; [|done].
  destruct (negb (String.eqb nm "Test") && _); [done|].
  destruct (unavailable env (pick_audio env config st nm));
    [by apply timers_ok_schedule|].
  destruct (base_url env config) as [base|]; [|done].
  assert (Hsame : ∀ st', unsub_timer st' = unsub_timer st →
            playback_reset_unsub st' = playback_reset_unsub st →
            ∀ h', timers h' = timers h → next_handle h' = next_handle h →
                  store h' = Some st' → timers_ok h').
  { intros st' Hu Hr h' Ht Hn Hs'. apply (timers_ok_ext h); [done|done| |done].
    unfold handles. rewrite Hs, Hs'. simpl. by rewrite Hu, Hr. }
  destruct (dispatch_calls config _) as [calls|];
    [|simpl; by apply (Hsame (set_playing st true (Some nm)))].
  destruct (call_all env calls) as [made raised].
  destruct raised.
  { simpl. apply timers_ok_schedule.
    by apply (Hsame (set_playing (set_playing st true (Some nm)) false None)). }
  set (st1 := set_playing st true (Some nm)).
  set (st2 := if String.eqb nm "Test" then st1
              else match coordinator_data st1 with
                   | Some data => set_data st1 (Some (mark_played data nm))
                   | None => st1
                   end).
  set (h2 := log_calls (set_store h st1) made).
  assert (Hu2 : unsub_timer st2 = unsub_timer st)
    by (unfold st2; destruct (String.eqb nm "Test"); [done|];
        by destruct (coordinator_data st1)).
  assert (Hr2 : playback_reset_unsub st2 = playback_reset_unsub st)
    by (unfold st2; destruct (String.eqb nm "Test"); [done|];
        by destruct (coordinator_data st1)).
  assert (Hok2 : timers_ok (set_store h2 st2)) by by apply (Hsame st2).
  set (h3 := match playback_reset_unsub st2 with
             | Some u => cancel u (set_store h2 st2)
             | None => set_store h2 st2
             end).
  assert (Hok3 : timers_ok h3 ∧ store h3 = Some st2
                 ∧ ∀ t, t ∈ timers h3 → scheduling_timer t).
  { unfold h3. destruct (playback_reset_unsub st2) as [u|] eqn:Hu.
    - split; [by apply timers_ok_cancel|]. split; [done|].
      intros t Ht. by apply (cancel_removes_reset (set_store h2 st2) st2 u t).
    - split; [done|]. split; [done|].
      intros t Ht. by apply (no_handle_no_reset (set_store h2 st2) st2 t). }
  destruct Hok3 as (Hok3 & Hs3 & Hnone).
  simpl. apply timers_ok_schedule.
  by apply (timers_ok_arm_reset h3 st2).
Qed.

Lemma timers_ok_prayer_callback env config p h :
  timers_ok h → timers_ok (prayer_callback env config p h).
Proof.
  intros Hok. unfold prayer_callback.
  destruct (match store h with Some _ => _ | None => _ end).
  - by apply timers_ok_schedule.
  - by apply (timers_ok_ext h).
Qed.

Lemma timers_ok_reset_playing nm h :
  timers_ok h → timers_ok (reset_playing nm h).
Proof.
  intros Hok. unfold reset_playing. destruct (store h) as [st|] eqn:Hs; [|done].
  destruct (bool_decide _); [|done].
  apply (timers_ok_ext h); [done|done| |done]. unfold handles. by rewrite Hs.
Qed.

Lemma timers_ok_fire env config t h :
  timers_ok h → timers_ok (fire env config t h).
Proof.
  intros Hok%(timers_ok_cancel (handle t)). unfold fire.
  destruct (callback t).
  - by apply timers_ok_prayer_callback.
  - unfold midnight_refresh. apply timers_ok_schedule.
    by apply (timers_ok_ext (cancel (handle t) h)).
  - by apply timers_ok_reset_playing.
Qed.

Lemma timers_ok_step config h h' :
  step config h h' → timers_ok h → timers_ok h'.
Proof.
  intros Hstep Hok. destruct Hstep as [env h|env t h _|env h|env nm h|sr h|h st st' Hs Hu Hr].
  - by apply timers_ok_schedule.
  - by apply timers_ok_fire.
  - unfold run_play_task. destruct (tasks h) as [|[nm|] rest]; [done| |done].
    destruct (play_azan env config nm _) as [h2 ex] eqn:Hp. simpl.
    change h2 with (h2, ex).1. rewrite <- Hp.
    apply timers_ok_play_azan. by apply (timers_ok_ext h).
  - by apply timers_ok_play_azan.
  - unfold stop_playback. destruct (store h) as [st|] eqn:Hs; [|done]. simpl.
    apply (timers_ok_ext h); [done|done| |done]. unfold handles. by rewrite Hs.
  - apply (timers_ok_ext h); [done|done| |done]. unfold handles.
    rewrite Hs. simpl. by rewrite Hu, Hr.
Qed.

Lemma reachable_timers_ok config h : reachable config h → timers_ok h.
Proof.
  induction 1 as [data|h h' _ IH Hstep].
  - unfold timers_ok. simpl. repeat split; try done; constructor.
  - by eapply timers_ok_step.
Qed.

Lemma same_handle_same_timer (ts : list Timer) t1 t2 :
  NoDup (handle <$> ts) → t1 ∈ ts → t2 ∈ ts → handle t1 = handle t2 → t1 = t2.
Proof.
  induction ts as [|t ts IH]; [by intros _ ?%elem_of_nil|].
  rewrite fmap_cons. intros [Hnot Hnd]%NoDup_cons.
  intros [->|H1]%elem_of_cons [->|H2]%elem_of_cons Heq; [done| | |by apply IH].
  - exfalso. apply Hnot. rewrite Heq. by apply list_elem_of_fmap_2.
  - exfalso. apply Hnot. rewrite <- Heq. by apply list_elem_of_fmap_2.
Qed.

(** X6.  In every state an entry can reach, at most one scheduling timer
    (prayer or midnight) and at most one playback-reset timer are
    pending, and each pending timer is the one whose cancellation handle
    the store holds. *)
Theorem one_timer_per_kind (config : Config) (h : Hass) :
  reachable config h →
  (∀ t1 t2, t1 ∈ timers h → t2 ∈ timers h →
            scheduling_timer t1 → scheduling_timer t2 → t1 = t2)
  ∧ (∀ t1 t2, t1 ∈ timers h → t2 ∈ timers h →
              ¬ scheduling_timer t1 → ¬ scheduling_timer t2 → t1 = t2)
  ∧ (∀ t, t ∈ timers h → ∃ st, store h = Some st ∧ timer_ref st t)
  ∧ (length (timers h) ≤ 2)%nat.
Proof.
  intros (Hfresh & Hnd & Hst)%reachable_timers_ok.
  assert (Href : ∀ t, t ∈ timers h → ∃ st, store h = Some st ∧ timer_ref st t).
  { intros t Ht. destruct (store h) as [st|].
    - exists st. split; [done|]. destruct Hst as (Href & _).
      rewrite Forall_forall in Href. by apply Href.
    - rewrite Hst in Ht. by apply elem_of_nil in Ht. }
  assert (Hs : ∀ t1 t2, t1 ∈ timers h → t2 ∈ timers h →
            scheduling_timer t1 → scheduling_timer t2 → t1 = t2).
  { intros t1 t2 H1 H2 S1 S2. apply (same_handle_same_timer (timers h)); try done.
    destruct (Href t1 H1) as (st & Hs1 & R1), (Href t2 H2) as (st' & Hs2 & R2).
    rewrite Hs1 in Hs2. injection Hs2 as <-.
    unfold timer_ref, scheduling_timer in *.
    destruct (callback t1), (callback t2); try done; congruence. }
  assert (Hr : ∀ t1 t2, t1 ∈ timers h → t2 ∈ timers h →
            ¬ scheduling_timer t1 → ¬ scheduling_timer t2 → t1 = t2).
  { intros t1 t2 H1 H2 S1 S2. apply (same_handle_same_timer (timers h)); try done.
    destruct (Href t1 H1) as (st & Hs1 & R1), (Href t2 H2) as (st' & Hs2 & R2).
    rewrite Hs1 in Hs2. injection Hs2 as <-.
    unfold timer_ref, scheduling_timer in *.
    destruct (callback t1), (callback t2);
      try (by exfalso; apply S1); try (by exfalso; apply S2); congruence. }
  split; [done|]. split; [done|]. split; [done|].
  destruct (timers h) as [|a [|b [|c l]]] eqn:Hts; simpl; try lia.
  exfalso. try rewrite Hts in Hs. try rewrite Hts in Hr.
  assert (Ma : a ∈ a :: b :: c :: l) by apply list_elem_of_here.
  assert (Mb : b ∈ a :: b :: c :: l)
    by apply list_elem_of_further, list_elem_of_here.
  assert (Mc : c ∈ a :: b :: c :: l)
    by apply list_elem_of_further, list_elem_of_further, list_elem_of_here.
  assert (Hdec : ∀ t : Timer, scheduling_timer t ∨ ¬ scheduling_timer t).
  { intros t. unfold scheduling_timer. destruct (callback t); auto. }
  rewrite !fmap_cons in Hnd.
  apply NoDup_cons in Hnd as [Ha Hnd]. apply NoDup_cons in Hnd as [Hb _].
  apply not_elem_of_cons in Ha as [Hab Ha].
  apply not_elem_of_cons in Ha as [Hac _].
  apply not_elem_of_cons in Hb as [Hbc _].
  destruct (Hdec a) as [Sa|Sa], (Hdec b) as [Sb|Sb], (Hdec c) as [Sc|Sc];
    first [ apply Hab; f_equal; first [by apply Hs | by apply Hr]
          | apply Hac; f_equal; first [by apply Hs | by apply Hr]
          | apply Hbc; f_equal; first [by apply Hs | by apply Hr] ].
Qed.

Lemma one_timer_per_kind_witness :
  (length (timers (schedule_next_prayer (env0 (at_hm 0 4 0)%Z false) cfg0
                     (initial_hass (Some data_sunrise_enabled)))) ≤ 2)%nat.
Proof.
  apply (one_timer_per_kind cfg0).
  eapply reachable_step; [apply reachable_setup|apply step_rearm].
Defined.

(** ** What re-arming registers *)

(** The timer a re-arm registers: for the selected prayer at its time
    minus its offset, or for the refresh after midnight. *)
Lemma schedule_result env config h st d :
  store h = Some st → coordinator_data st = Some d →
  schedule_next_prayer env config h =
  {| store := Some (set_unsub_timer st (Some (next_handle h)));
     timers :=
       match unsub_timer st with
       | Some u => filter (λ t, handle t ≠ u) (timers h)
       | None => timers h
       end ++
       [ {| handle := next_handle h;
            fire_at :=
              match select config d (clock env) with
              | Some p => time p - timedelta_minutes (offset_of config (name p))
              | None => tomorrow_refresh (clock env)
              end;
            callback :=
              match select config d (clock env) with
              | Some p => PrayerCallback p
              | None => MidnightRefresh
              end |} ];
     next_handle := S (next_handle h);
     tasks := tasks h;
     service_calls := service_calls h |}.
Proof.
  intros Hst Hd. unfold schedule_next_prayer. rewrite Hst.
  destruct st as [d0 ip cp idl af faf saf fjaf ut pr]. simpl in Hd. subst d0.
  destruct ut as [u|]; simpl; destruct (select config d (clock env)); reflexivity.
Qed.

Lemma midnight_of_multiple t : midnight_of t = US_PER_DAY * (t / US_PER_DAY).
Proof.
  unfold midnight_of.
  pose proof (Z_div_mod_eq_full t US_PER_DAY). lia.
Qed.

Lemma tomorrow_refresh_bounds now :
  now < tomorrow_refresh now ≤ now + US_PER_DAY + US_PER_MINUTE
  ∧ tomorrow_refresh now mod US_PER_DAY = US_PER_MINUTE
  ∧ midnight_of (tomorrow_refresh now) = midnight_of now + US_PER_DAY.
Proof.
  unfold tomorrow_refresh, at_hm.
  assert (HD : 0 < US_PER_DAY) by (vm_compute; reflexivity).
  assert (HM : 0 ≤ US_PER_MINUTE < US_PER_DAY) by (split; vm_compute; congruence).
  pose proof (Z.mod_pos_bound (now + US_PER_DAY) US_PER_DAY HD) as Hb.
  assert (Hmid : midnight_of (now + US_PER_DAY) = midnight_of now + US_PER_DAY).
  { unfold midnight_of.
    replace (now + US_PER_DAY) with (now + 1 * US_PER_DAY) at 2 by lia.
    rewrite Z_mod_plus_full. lia. }
  split; [|split].
  - unfold midnight_of in *. lia.
  - rewrite midnight_of_multiple.
    replace (US_PER_DAY * ((now + US_PER_DAY) / US_PER_DAY) + 0 * US_PER_HOUR
             + 1 * US_PER_MINUTE)
      with (US_PER_MINUTE + ((now + US_PER_DAY) / US_PER_DAY) * US_PER_DAY) by lia.
    rewrite Z_mod_plus_full. by apply Z.mod_small.
  - rewrite Hmid. unfold midnight_of at 1.
    replace (midnight_of now + US_PER_DAY + 0 * US_PER_HOUR + 1 * US_PER_MINUTE)
      with (US_PER_MINUTE + (now / US_PER_DAY + 1) * US_PER_DAY)
      by (rewrite midnight_of_multiple; lia).
    rewrite Z_mod_plus_full, Z.mod_small by done.
    rewrite midnight_of_multiple. lia.
Qed.

(** X7.  With a schedule in the store, the timer registered by a re-arm
    always fires strictly after the current time: at the selected
    prayer's time minus its offset, or, when nothing is left to select,
    at 00:01 of the next day. *)
Theorem armed_timer_in_future (env : Env) (config : Config) (h : Hass)
  (st : Store) (d : PrayerData) :
  store h = Some st → coordinator_data st = Some d →
  let h' := schedule_next_prayer env config h in
  ∃ st' t,
    store h' = Some st' ∧ unsub_timer st' = Some (handle t) ∧ t ∈ timers h'
    ∧ clock env < fire_at t
    ∧ match select config d (clock env) with
      | Some p =>
          callback t = PrayerCallback p ∧
          fire_at t = time p - timedelta_minutes (offset_of config (name p))
      | None =>
          callback t = MidnightRefresh ∧
          fire_at t = at_hm (midnight_of (clock env) + US_PER_DAY) 0 1
      end.
Proof.
  intros Hst Hd h'. subst h'. rewrite (schedule_result env config h st d Hst Hd).
  eexists _, _. split; [reflexivity|].
  split; [|split; [apply elem_of_app; right; apply list_elem_of_here|]];
    [reflexivity|]. simpl.
  destruct (select config d (clock env)) as [p|] eqn:Hsel.
  - split; [|done]. apply find_next_prayer_elem in Hsel as [_ (_ & _ & Hlt)]. done.
  - pose proof (tomorrow_refresh_bounds (clock env)) as (Hb & _ & _).
    split; [lia|]. split; [done|].
    unfold tomorrow_refresh, at_hm, midnight_of.
    replace (clock env + US_PER_DAY) with (clock env + 1 * US_PER_DAY) at 2 by lia.
    rewrite Z_mod_plus_full. lia.
Qed.

Lemma armed_timer_in_future_witness :
  ∃ st' t,
    store hass_armed_fajr = Some st' ∧ unsub_timer st' = Some (handle t)
    ∧ t ∈ timers hass_armed_fajr ∧ at_hm 0 4 0 < fire_at t.
Proof.
  destruct (armed_timer_in_future (env0 (at_hm 0 4 0) false) cfg0
              (hass0 (Some data_sunrise_enabled))
              (store0 (Some data_sunrise_enabled)) data_sunrise_enabled
              eq_refl eq_refl) as (st' & t & H1 & H2 & H3 & H4 & _).
  by exists st', t.
Defined.

(** X8.  When the midnight timer fires on a later day than the schedule
    in the store was built, the callback queues the refresh and re-arms
    at once from that schedule: nothing of it is left to select, so
    the only scheduling timer pending afterwards is another midnight
    refresh, at 00:01 of the following day. *)
Theorem midnight_rearms_from_old_schedule (env : Env) (config : Config)
  (h : Hass) (st : Store) (d : PrayerData) (now0 : datetime) (raw : raw_times) :
  timers_ok h → store h = Some st → coordinator_data st = Some d →
  normalize_times now0 config raw = Ok (prayers d) →
  midnight_of now0 + US_PER_DAY ≤ clock env →
  0 ≤ get (offset_minutes config) DEFAULT_OFFSET_MINUTES →
  let h' := midnight_refresh env config h in
  tasks h' = tasks h ++ [RefreshTask]
  ∧ played_of h' = played_of h
  ∧ (∃ t, t ∈ timers h' ∧ scheduling_timer t)
  ∧ (∀ t, t ∈ timers h' → scheduling_timer t →
          callback t = MidnightRefresh
          ∧ fire_at t = at_hm (midnight_of (clock env) + US_PER_DAY) 0 1).
Proof.
  intros Hok Hst Hd Hbuilt Hlate Hoff h'. subst h'. unfold midnight_refresh.
  set (h1 := async_create_task h RefreshTask).
  assert (Hst1 : store h1 = Some st) by done.
  assert (Hok1 : timers_ok h1) by by apply (timers_ok_ext h).
  assert (Hsel : select config d (clock env) = None).
  { apply find_next_prayer_None.
    eapply Forall_impl; [exact (normalize_times_day_bounds _ _ _ _ Hbuilt)|].
    intros p [_ Hlt] (_ & _ & Hel).
    unfold offset_of, timedelta_minutes in Hel.
    assert (0 < US_PER_MINUTE) by (vm_compute; reflexivity).
    destruct (String.eqb (name p) "Sunrise"); nia. }
  rewrite (schedule_result env config h1 st d Hst1 Hd). rewrite Hsel. simpl.
  split; [done|]. split; [by unfold played_of; rewrite Hst; simpl; rewrite Hd|].
  split.
  - eexists. split; [apply elem_of_app; right; apply list_elem_of_here|]. done.
  - intros t [Ht|Ht]%elem_of_app Hsched.
    + exfalso. destruct (unsub_timer st) as [u|] eqn:Hu.
      * by apply (cancel_removes_scheduling h st u t).
      * by apply (no_handle_no_scheduling h st t).
    + apply list_elem_of_singleton in Ht. subst t. simpl. split; [done|].
      unfold tomorrow_refresh, at_hm, midnight_of.
      replace (clock env + US_PER_DAY) with (clock env + 1 * US_PER_DAY) at 2 by lia.
      rewrite Z_mod_plus_full. lia.
Qed.

Lemma midnight_rearms_from_old_schedule_witness :
  tasks (midnight_refresh (env0 (at_hm US_PER_DAY 0 1) false) cfg0
           hass_after_midnight) = [RefreshTask]
  ∧ ∃ t, t ∈ timers (midnight_refresh (env0 (at_hm US_PER_DAY 0 1) false) cfg0
                       hass_after_midnight)
         ∧ scheduling_timer t.
Proof.
  assert (Hok : timers_ok hass_after_midnight).
  { apply (reachable_timers_ok cfg0).
    eapply reachable_step; [apply reachable_setup|apply step_rearm]. }
  destruct (midnight_rearms_from_old_schedule
              (env0 (at_hm US_PER_DAY 0 1) false) cfg0 hass_after_midnight
              _ _ 0 raw_twelve_hour Hok eq_refl eq_refl eq_refl)
    as (Ht & _ & Hex & _).
  - vm_compute. discriminate.
  - vm_compute. discriminate.
  - split; [exact Ht|exact Hex].
Defined.

(** ** Playback: the successful path and what every path keeps *)

Lemma call_all_prefix env calls made raised :
  call_all env calls = (made, raised) →
  if raised then
    ∃ pre c post, calls = pre ++ c :: post ∧ made = pre ++ [c] ∧
                  call_raises env c = true ∧
                  Forall (λ c, call_raises env c = false) pre
  else made = calls ∧ Forall (λ c, call_raises env c = false) calls.
Proof.
  revert made raised. induction calls as [|c calls IH]; intros made raised; simpl.
  - intros [= <- <-]. split; [done|constructor].
  - destruct (call_raises env c) eqn:Hc.
    + intros [= <- <-]. exists [], c, calls. by repeat split.
    + destruct (call_all env calls) as [made' raised'] eqn:Hall.
      intros [= <- <-]. specialize (IH made' raised' eq_refl).
      destruct raised'.
      * destruct IH as (pre & c' & post & -> & -> & Hr & Hpre).
        exists (c :: pre), c', post. split; [done|]. split; [done|].
        split; [done|]. by constructor.
      * destruct IH as [-> Hall']. split; [done|by constructor].
Qed.

(** X9.  The service calls of a play operation: every configured target
    is called once, in the configured order, with the same media URL;
    when a call raises, the targets after it are not called; and an
    operation that stops before the dispatch calls no service. *)
Theorem play_azan_service_calls (env : Env) (config : Config) (nm : string)
  (h : Hass) :
  let h' := (play_azan env config nm h).1 in
  match (play_azan env config nm h).2 with
  | Dispatched =>
      ∃ url calls,
        dispatch_calls config url = Some calls ∧
        service_calls h' = service_calls h ++ calls ∧
        Forall (λ c, call_raises env c = false) calls
  | DispatchFailed =>
      ∃ url pre c post,
        dispatch_calls config url = Some (pre ++ c :: post) ∧
        service_calls h' = service_calls h ++ pre ++ [c] ∧
        call_raises env c = true ∧
        Forall (λ c, call_raises env c = false) pre
  | _ => service_calls h' = service_calls h
  end
  ∧ ∀ url targets,
      get (playback_mode config) PLAYBACK_MEDIA_PLAYER = PLAYBACK_MEDIA_PLAYER →
      media_player config = Some (ManyPlayers targets) → targets ≠ [] →
      dispatch_calls config url = Some ((λ target, PlayMedia target url) <$> targets).
Proof.
  split.
  - unfold play_azan. destruct (store h) as [st|] eqn:Hs; [|done].
    destruct (negb (String.eqb nm "Test") && _); [done|].
    destruct (unavailable env (pick_audio env config st nm));
      [simpl; by rewrite schedule_service_calls|].
    destruct (base_url env config) as [base|]; [|done].
    destruct (dispatch_calls config _) as [calls|] eqn:Hcalls; [|done].
    destruct (call_all env calls) as [made raised] eqn:Hall.
    apply call_all_prefix in Hall. destruct raised.
    + simpl. rewrite schedule_service_calls. simpl.
      destruct Hall as (pre & c & post & -> & -> & Hr & Hpre).
      by eexists _, pre, c, post.
    + destruct Hall as [-> Hok]. simpl. rewrite schedule_service_calls. simpl.
      eexists _, calls. split; [exact Hcalls|]. split; [|done].
      by destruct (playback_reset_unsub _).
  - intros url targets Hmode Hmp Hne. unfold dispatch_calls.
    rewrite Hmode, Hmp. simpl. by destruct targets.
Qed.

Lemma play_azan_service_calls_witness :
  dispatch_calls cfg_three_speakers "http://ha.local:8123/local/azan/azan.mp3" =
  Some [PlayMedia "media_player.living_room" "http://ha.local:8123/local/azan/azan.mp3";
        PlayMedia "media_player.kitchen" "http://ha.local:8123/local/azan/azan.mp3";
        PlayMedia "media_player.bedroom" "http://ha.local:8123/local/azan/azan.mp3"].
Proof.
  apply (proj2 (play_azan_service_calls (env0 0 false) cfg_three_speakers "Fajr"
                  (hass0 None))
           "http://ha.local:8123/local/azan/azan.mp3"
           ["media_player.living_room"; "media_player.kitchen";
            "media_player.bedroom"]);
    [reflexivity|reflexivity|discriminate].
Defined.

(** X10.  A play operation that dispatches marks the prayer played,
    shows it as playing, leaves a reset timer pending five minutes
    ahead, and re-arms: a scheduling timer is pending and it is not a
    timer for the prayer just played. *)
Theorem play_azan_success (env : Env) (config : Config) (nm : string)
  (h h' : Hass) (st : Store) (d : PrayerData) :
  timers_ok h → store h = Some st → coordinator_data st = Some d →
  nm ≠ "Test" →
  play_azan env config nm h = (h', Dispatched) →
  played_of h' = Some ({[ nm ]} ∪ played_today d)
  ∧ (∃ st' t, store h' = Some st' ∧ is_playing st' = true ∧
              currently_playing st' = Some nm ∧
              playback_reset_unsub st' = Some (handle t) ∧ t ∈ timers h' ∧
              callback t = ResetPlaying nm ∧
              fire_at t = clock env + timedelta_minutes 5)
  ∧ armed h'
  ∧ ¬ armed_for h' nm.
Proof.
  intros Hok Hst Hd Hne. unfold play_azan. rewrite Hst, Hd.
  destruct (negb (String.eqb nm "Test") && bool_decide (nm ∈ played_today d));
    [done|].
  destruct (unavailable env (pick_audio env config st nm)); [done|].
  destruct (base_url env config) as [base|]; [|done].
  destruct (dispatch_calls config _) as [calls|]; [|done].
  destruct (call_all env calls) as [made raised].
  destruct raised; [done|].
  replace (String.eqb nm "Test") with false
    by (symmetry; by apply String.eqb_neq).
  set (st1 := set_playing st true (Some nm)).
  assert (Hd1 : coordinator_data st1 = Some d) by done. rewrite Hd1.
  set (st2 := set_data st1 (Some (mark_played d nm))).
  set (h2 := set_store (log_calls (set_store h st1) made) st2).
  assert (Hok2 : timers_ok h2).
  { apply (timers_ok_ext h); [done|done| |done]. unfold handles. by rewrite Hst. }
  set (h3 := match playback_reset_unsub st2 with
             | Some u => cancel u h2
             | None => h2
             end).
  assert (H3 : timers_ok h3 ∧ store h3 = Some st2 ∧ next_handle h3 = next_handle h
               ∧ ∀ t, t ∈ timers h3 → scheduling_timer t).
  { unfold h3. destruct (playback_reset_unsub st2) as [u|] eqn:Hu.
    - split; [by apply timers_ok_cancel|]. split; [done|]. split; [done|].
      intros t Ht. by apply (cancel_removes_reset h2 st2 u t).
    - split; [done|]. split; [done|]. split; [done|].
      intros t Ht. by apply (no_handle_no_reset h2 st2 t). }
  destruct H3 as (Hok3 & Hst3 & Hn3 & Hnone).
  set (treset := {| handle := next_handle h3;
                    fire_at := clock env + timedelta_minutes 5;
                    callback := ResetPlaying nm |}).
  set (st5 := set_playback_reset_unsub st2 (Some (next_handle h3))).
  set (h5 := set_store
               (async_track_point_in_time h3 (ResetPlaying nm)
                  (clock env + timedelta_minutes 5)).1 st5).
  assert (Hok5 : timers_ok h5) by by apply (timers_ok_arm_reset h3 st2).
  assert (Hst5 : store h5 = Some st5) by done.
  assert (Hd5 : coordinator_data st5 = Some (mark_played d nm)) by done.
  change ((schedule_next_prayer env config h5, Dispatched) = (h', Dispatched)
          → played_of h' = Some ({[nm]} ∪ played_today d)
            ∧ (∃ st' t, store h' = Some st' ∧ is_playing st' = true
                 ∧ currently_playing st' = Some nm
                 ∧ playback_reset_unsub st' = Some (handle t) ∧ t ∈ timers h'
                 ∧ callback t = ResetPlaying nm
                 ∧ fire_at t = clock env + timedelta_minutes 5)
              ∧ armed h' ∧ ¬ armed_for h' nm).
  intros [= <-].
  split; [|split; [|split]].
  - rewrite (schedule_played env config h5 st5 Hst5). done.
  - rewrite (schedule_result env config h5 st5 _ Hst5 Hd5).
    exists (set_unsub_timer st5 (Some (next_handle h5))), treset.
    split; [done|]. do 3 (split; [done|]). split; [|done].
    simpl. apply elem_of_app. left.
    assert (treset ∈ timers h3 ++ [treset])
      by (apply elem_of_app; right; apply list_elem_of_here).
    destruct (unsub_timer st) as [u|] eqn:Hu; [|done].
    apply list_elem_of_filter. split; [|done]. simpl.
    destruct Hok as (_ & _ & Hb). rewrite Hst in Hb.
    destruct Hb as (_ & Hub & _). specialize (Hub u Hu). lia.
  - apply (schedule_arms env config h5 st5 _ Hst5 Hd5).
  - intros (st' & u & t & p & Hs' & Hu & Ht & Hh & Hcb & Hname).
    rewrite (schedule_result env config h5 st5 _ Hst5 Hd5) in Hs', Ht.
    simpl in Hs', Ht. injection Hs' as <-. simpl in Hu. injection Hu as <-.
    apply elem_of_app in Ht as [Ht|Ht].
    + assert (t ∈ timers h5) as Ht5.
      { destruct (unsub_timer st); [|done].
        by apply list_elem_of_filter in Ht as [_ ?]. }
      destruct Hok5 as (Hfresh & _). rewrite Forall_forall in Hfresh.
      specialize (Hfresh t Ht5).
      change (next_handle h5) with (S (next_handle h3)) in *. simpl in Hh. lia.
    + apply list_elem_of_singleton in Ht. subst t. simpl in Hcb.
      destruct (select config (mark_played d nm) (clock env)) as [q|] eqn:Hsel;
        [|done].
      injection Hcb as <-.
      apply find_next_prayer_elem in Hsel as [_ (_ & Hnot & _)].
      apply Hnot. rewrite Hname. simpl. set_solver.
Qed.

Lemma play_azan_success_witness :
  let h := hass_armed_fajr in
  let env := env0 (at_hm 0 5 0) false in
  played_of (play_azan env cfg_speaker "Fajr" h).1 = Some {[ "Fajr" ]}
  ∧ armed (play_azan env cfg_speaker "Fajr" h).1
  ∧ ¬ armed_for (play_azan env cfg_speaker "Fajr" h).1 "Fajr".
Proof.
  intros h env.
  assert (Hok : timers_ok h).
  { apply (reachable_timers_ok cfg0).
    eapply reachable_step; [|apply step_rearm].
    eapply (reachable_step cfg0 (initial_hass (Some data_sunrise_enabled)));
      [apply reachable_setup|].
    exact (step_background cfg0 (initial_hass (Some data_sunrise_enabled))
             (entry_store (Some data_sunrise_enabled))
             (store0 (Some data_sunrise_enabled)) eq_refl eq_refl eq_refl). }
  destruct (play_azan_success env cfg_speaker "Fajr" h
              (play_azan env cfg_speaker "Fajr" h).1 _ data_sunrise_enabled
              Hok eq_refl eq_refl) as (Hp & _ & Ha & Hn).
  - discriminate.
  - vm_compute. reflexivity.
  - split; [|by split]. rewrite Hp. reflexivity.
Defined.

(** The schedule data in the store after a play operation: the data
    before it, with the prayer marked when the operation dispatched
    for a name other than "Test". *)
Lemma play_azan_data (env : Env) (config : Config) (nm : string)
  (h : Hass) (st : Store) (d : PrayerData) :
  store h = Some st → coordinator_data st = Some d →
  ∃ st',
    store (play_azan env config nm h).1 = Some st'
    ∧ coordinator_data st'
      = Some (match (play_azan env config nm h).2 with
              | Dispatched => if String.eqb nm "Test" then d else mark_played d nm
              | _ => d
              end).
Proof.
  intros Hst Hd.
  assert (Hsched : ∀ h0 st0, store h0 = Some st0 → coordinator_data st0 = Some d →
            ∃ st', store (schedule_next_prayer env config h0) = Some st'
              ∧ coordinator_data st' = Some d).
  { intros h0 st0 H0 Hd0. destruct (schedule_store env config h0 st0 H0) as [u Hu].
    by exists (set_unsub_timer st0 u). }
  unfold play_azan. rewrite Hst, Hd.
  destruct (negb (String.eqb nm "Test") && bool_decide (nm ∈ played_today d));
    [by exists st|].
  destruct (unavailable env (pick_audio env config st nm));
    [by apply (Hsched h st)|].
  destruct (base_url env config) as [base|]; [|by exists st].
  destruct (dispatch_calls config _) as [calls|];
    [|by exists (set_playing st true (Some nm))].
  destruct (call_all env calls) as [made raised].
  destruct raised.
  { by apply (Hsched _ (set_playing (set_playing st true (Some nm)) false None)). }
  set (st1 := set_playing st true (Some nm)).
  assert (Hd1 : coordinator_data st1 = Some d) by done. rewrite Hd1.
  unfold async_track_point_in_time. lazy beta iota zeta. cbn [fst snd].
  match goal with
  | |- context [schedule_next_prayer env config (set_store ?x ?s)] =>
      destruct (schedule_store env config (set_store x s) s eq_refl) as [u Hu]
  end.
  rewrite Hu. clear Hu.
  eexists. split; [reflexivity|].
  by destruct (String.eqb nm "Test").
Qed.

(** X11.  Whatever way a play operation ends, the schedule in the store
    keeps its prayers and its date, and its played-set only grows, by
    at most the prayer asked for: it is unchanged unless the operation
    dispatched, the name "Test" is never added, and a dispatched prayer
    other than "Test" is in it. *)
Theorem play_azan_keeps_schedule (env : Env) (config : Config) (nm : string)
  (h : Hass) (st : Store) (d : PrayerData) :
  store h = Some st → coordinator_data st = Some d →
  ∃ st' d',
    store (play_azan env config nm h).1 = Some st'
    ∧ coordinator_data st' = Some d'
    ∧ prayers d' = prayers d ∧ date d' = date d
    ∧ played_today d ⊆ played_today d'
    ∧ played_today d' ⊆ {[ nm ]} ∪ played_today d
    ∧ (nm = "Test" → played_today d' = played_today d)
    ∧ ((play_azan env config nm h).2 ≠ Dispatched →
       played_today d' = played_today d)
    ∧ ((play_azan env config nm h).2 = Dispatched → nm ≠ "Test" →
       nm ∈ played_today d').
Proof.
  intros Hst Hd.
  destruct (play_azan_data env config nm h st d Hst Hd) as (st' & Hs' & Hd').
  exists st'. eexists. split; [exact Hs'|]. split; [exact Hd'|].
  destruct ((play_azan env config nm h).2);
    destruct (String.eqb_spec nm "Test") as [Heq|Hne];
    simpl; repeat split; try done; set_solver.
Qed.

Lemma play_azan_keeps_schedule_witness :
  ∃ st' d',
    store (play_azan (env0 (at_hm 0 5 0) true) cfg_speaker "Test"
             (hass0 (Some data_dhuhr_played))).1 = Some st'
    ∧ coordinator_data st' = Some d'
    ∧ played_today d' = {[ "Dhuhr" ]}.
Proof.
  destruct (play_azan_keeps_schedule (env0 (at_hm 0 5 0) true) cfg_speaker "Test"
              (hass0 (Some data_dhuhr_played)) _ data_dhuhr_played
              eq_refl eq_refl)
    as (st' & d' & Hs & Hd & _ & _ & _ & _ & Htest & _ & _).
  exists st', d'. split; [exact Hs|]. split; [exact Hd|]. by apply Htest.
Defined.

(** ** The audio file that is played *)

(** X12.  For every prayer but Fajr, and for Fajr when no Fajr file is
    set, a downloaded [audio_file] that exists guarantees that some
    existing file is picked: the operation does not end for lack of
    audio. *)
Theorem audio_file_is_last_resort (env : Env) (config : Config) (st : Store)
  (nm : string) :
  nm ≠ "Fajr" ∨ truthy (fajr_audio_file st) = false →
  unavailable env (audio_file st) = false →
  unavailable env (pick_audio env config st nm) = false
  ∧ ∀ h, store h = Some st → (play_azan env config nm h).2 ≠ NoAudioFile.
Proof.
  intros Hfajr Havail.
  assert (Hpick : unavailable env (pick_audio env config st nm) = false).
  { unfold pick_audio.
    match goal with
    | |- context [if unavailable env ?a then _ else _] =>
        destruct (unavailable env a) eqn:Ha; [|exact Ha]
    end.
    destruct Hfajr as [Hne|Hnone].
    - replace (String.eqb nm "Fajr") with false
        by (symmetry; by apply String.eqb_neq). done.
    - rewrite Hnone, andb_false_r. done. }
  split; [done|]. intros h Hst. unfold play_azan. rewrite Hst.
  destruct (negb (String.eqb nm "Test") && _); [done|].
  rewrite Hpick. destruct (base_url env config); [|done].
  destruct (dispatch_calls config _); [|done].
  destruct (call_all env _) as [made raised]. by destruct raised.
Qed.

Lemma audio_file_is_last_resort_witness :
  unavailable (env0 0 false) (pick_audio (env0 0 false) cfg0 (store0 None) "Isha")
  = false.
Proof.
  refine (proj1 (audio_file_is_last_resort (env0 0 false) cfg0 (store0 None)
                   "Isha" _ _)).
  - left. discriminate.
  - reflexivity.
Defined.

(** ** The prayer sensors after a playback *)

Lemma get_prayer_loop_name nm ps p :
  get_prayer_loop nm ps = Some p → name p = nm ∧ p ∈ ps.
Proof.
  induction ps as [|q ps IH]; simpl; [done|].
  destruct (String.eqb_spec (name q) nm) as [Heq|Hne].
  - intros [= <-]. split; [done|]. apply list_elem_of_here.
  - intros [? ?]%IH. split; [done|]. by apply list_elem_of_further.
Qed.

(** X13.  After a play operation that dispatches, the sensor of the
    played prayer reports [played] as true with its time and enabled
    flag unchanged, and the sensors of the other prayers report what
    they reported before. *)
Theorem prayer_sensor_after_play (env : Env) (config : Config) (nm : string)
  (h : Hass) (st : Store) (d : PrayerData) :
  store h = Some st → coordinator_data st = Some d → nm ≠ "Test" →
  (play_azan env config nm h).2 = Dispatched →
  ∃ st', store (play_azan env config nm h).1 = Some st'
    ∧ (∀ p, get_prayer (Some d) nm = Some p →
            prayer_time_attributes (coordinator_data st') nm
            = Some (enabled p, true))
    ∧ (∀ other, other ≠ nm →
            prayer_time_attributes (coordinator_data st') other
            = prayer_time_attributes (Some d) other)
    ∧ (∀ any, prayer_time_native_value (coordinator_data st') any
              = prayer_time_native_value (Some d) any).
Proof.
  intros Hst Hd Hne Hex.
  destruct (play_azan_data env config nm h st d Hst Hd) as (st' & Hs' & Hd').
  rewrite Hex in Hd'. apply String.eqb_neq in Hne as Hneb. rewrite Hneb in Hd'.
  exists st'. split; [done|]. rewrite Hd'.
  unfold prayer_time_attributes, prayer_time_native_value, get_prayer.
  change (prayers (mark_played d nm)) with (prayers d). split; [|split].
  - intros p Hp. simpl in Hp. rewrite Hp.
    rewrite bool_decide_eq_true_2; [done|]. unfold mark_played. simpl.
    apply elem_of_union. left. by apply elem_of_singleton.
  - intros other Hother. destruct (get_prayer_loop other (prayers d)); [|done].
    do 2 f_equal. apply bool_decide_ext. unfold mark_played. simpl.
    rewrite elem_of_union, elem_of_singleton. split; [|by right].
    by intros [?|?].
  - done.
Qed.

Lemma prayer_sensor_after_play_witness :
  ∃ st', store (play_azan (env0 (at_hm 0 5 0) false) cfg_speaker "Fajr"
                  hass_armed_fajr).1 = Some st'
         ∧ prayer_time_attributes (coordinator_data st') "Fajr" = Some (true, true)
         ∧ prayer_time_attributes (coordinator_data st') "Dhuhr" = Some (true, false).
Proof.
  destruct (prayer_sensor_after_play (env0 (at_hm 0 5 0) false) cfg_speaker "Fajr"
              hass_armed_fajr _ data_sunrise_enabled eq_refl eq_refl)
    as (st' & Hs & Hp & Ho & _).
  - discriminate.
  - reflexivity.
  - exists st'. split; [exact Hs|]. split.
    + apply (Hp (mk_prayer "Fajr" 0 5 0 true)). reflexivity.
    + rewrite (Ho "Dhuhr") by discriminate. reflexivity.
Defined.

(** ** Stopping and unloading *)

Lemma stop_all_prefix stop_raises calls :
  ∃ rest, calls = stop_all stop_raises calls ++ rest
          ∧ (Forall (λ c, stop_raises c = false) calls → rest = []).
Proof.
  induction calls as [|c calls (rest & Heq & Hall)]; simpl.
  - by exists [].
  - destruct (stop_raises c) eqn:Hc.
    + exists calls. split; [done|]. intros [? _]%Forall_cons. congruence.
    + exists rest. split; [simpl; by f_equal|].
      intros [_ ?]%Forall_cons. by apply Hall.
Qed.

(** X14.  Stopping always clears the playing state, also when a stop
    call raises or when no target is configured: afterwards the status
    is not "playing".  It leaves the schedule, the played-set, the
    pending timers and the tasks as they were, and calls the configured
    targets in order up to a call that raises. *)
Theorem stop_playback_effect (stop_raises : StopCall → bool) (config : Config)
  (h : Hass) :
  let h' := (stop_playback stop_raises config h).1 in
  let made := (stop_playback stop_raises config h).2 in
  status_native_value h' ≠ "playing"
  ∧ (∀ st, store h = Some st →
       store h' = Some (set_playing st false None))
  ∧ played_of h' = played_of h
  ∧ timers h' = timers h ∧ tasks h' = tasks h
  ∧ (store h = None → h' = h ∧ made = [])
  ∧ (∀ st, store h = Some st →
       ∃ rest, stop_calls config = made ++ rest
               ∧ (Forall (λ c, stop_raises c = false) (stop_calls config) →
                  rest = [])).
Proof.
  unfold stop_playback. destruct (store h) as [st|] eqn:Hst; simpl.
  - split; [unfold status_native_value; simpl; by destruct (is_downloading st)|].
    split; [by intros ? [= <-]|].
    split; [unfold played_of; simpl; by rewrite Hst|].
    do 2 (split; [done|]). split; [done|].
    intros _ _. apply stop_all_prefix.
  - split; [unfold status_native_value; by rewrite Hst|].
    split; [done|]. do 3 (split; [done|]). split; done.
Qed.

Lemma stop_playback_effect_witness :
  let h := (play_azan (env0 (at_hm 0 5 0) false) cfg_speaker "Fajr"
              hass_armed_fajr).1 in
  status_native_value h = "playing"
  ∧ status_native_value (stop_playback (λ _, true) cfg_speaker h).1 = "idle"
  ∧ (stop_playback (λ _, true) cfg_speaker h).2
    = [MediaStop "media_player.living_room"]
  ∧ ∃ st, store h = Some st
          ∧ store (stop_playback (λ _, true) cfg_speaker h).1
            = Some (set_playing st false None).
Proof.
  intros h. do 3 (split; [vm_compute; reflexivity|]).
  eexists. split; [reflexivity|].
  apply (proj1 (proj2 (stop_playback_effect (λ _, true) cfg_speaker h))).
  reflexivity.
Defined.

(** X15.  When the configuration has no playback mode, playing takes the
    media-player branch and stopping takes the notify branch: with media
    players and no notify service configured, a play operation calls
    every player while a stop operation calls none. *)
Theorem default_mode_play_and_stop_differ (stop_raises : StopCall → bool)
  (config : Config) (targets : list string) (h : Hass) (url : string) :
  playback_mode config = None →
  media_player config = Some (ManyPlayers targets) → targets ≠ [] →
  truthy (notify_service config) = false →
  dispatch_calls config url = Some ((λ target, PlayMedia target url) <$> targets)
  ∧ (stop_playback stop_raises config h).2 = [].
Proof.
  intros Hmode Hmp Hne Hns. split.
  - unfold dispatch_calls. rewrite Hmode, Hmp. simpl. by destruct targets.
  - unfold stop_playback. destruct (store h); [|done]. simpl.
    unfold stop_calls. rewrite Hmode. simpl.
    destruct (notify_service config) as [sv|]; [|done].
    simpl in Hns. apply negb_false_iff in Hns. by rewrite Hns.
Qed.

Lemma default_mode_play_and_stop_differ_witness :
  (stop_playback (λ _, false) cfg_no_mode (hass0 None)).2 = [].
Proof.
  refine (proj2 (default_mode_play_and_stop_differ (λ _, false) cfg_no_mode
                   ["media_player.living_room"] (hass0 None) "u" _ _ _ _)).
  - reflexivity.
  - reflexivity.
  - discriminate.
  - reflexivity.
Defined.

(** X16.  Unloading an entry in any state it can reach leaves no pending
    timer; the store is removed exactly when the platforms unloaded. *)
Theorem unload_leaves_no_timer (config : Config) (unloaded : bool) (h : Hass) :
  reachable config h →
  let h' := (async_unload_entry unloaded h).1 in
  timers h' = []
  ∧ (async_unload_entry unloaded h).2 = unloaded
  ∧ (if unloaded then store h' = None else store h' = store h)
  ∧ tasks h' = tasks h.
Proof.
  intros Hok%reachable_timers_ok. unfold async_unload_entry.
  destruct (store h) as [st|] eqn:Hst.
  - set (h1 := match unsub_timer st with
               | Some unsub => cancel unsub h
               | None => h
               end).
    set (h2 := match playback_reset_unsub st with
               | Some reset_unsub => cancel reset_unsub h1
               | None => h1
               end).
    assert (Hok1 : timers_ok h1 ∧ store h1 = Some st
                   ∧ ∀ t, t ∈ timers h1 → ¬ scheduling_timer t).
    { unfold h1. destruct (unsub_timer st) as [u|] eqn:Hu.
      - split; [by apply timers_ok_cancel|]. split; [done|].
        intros t Ht. by apply (cancel_removes_scheduling h st u t).
      - split; [done|]. split; [done|].
        intros t Ht. by apply (no_handle_no_scheduling h st t). }
    destruct Hok1 as (Hok1 & Hst1 & Hnos).
    assert (Hnone : timers h2 = []).
    { apply elem_of_nil_inv. intros t Ht.
      assert (t ∈ timers h1 ∧ scheduling_timer t) as [Ht1 Hs].
      { unfold h2 in Ht. destruct (playback_reset_unsub st) as [u|] eqn:Hu.
        - split; [by apply list_elem_of_filter in Ht as [_ ?]|].
          by apply (cancel_removes_reset h1 st u t).
        - split; [done|]. by apply (no_handle_no_reset h1 st t). }
      by apply (Hnos t). }
    assert (Htasks : tasks h2 = tasks h).
    { unfold h2, h1. by destruct (playback_reset_unsub st), (unsub_timer st). }
    assert (Hstore : store h2 = store h).
    { unfold h2, h1. rewrite Hst.
      by destruct (playback_reset_unsub st), (unsub_timer st). }
    destruct unloaded; simpl; repeat split; try done. by rewrite Hstore.
  - destruct Hok as (_ & _ & Hts). rewrite Hst in Hts.
    simpl. split; [done|]. split; [done|]. split; [|done].
    destruct unloaded; done.
Qed.

Lemma unload_leaves_no_timer_witness :
  timers (async_unload_entry true hass_after_midnight).1 = []
  ∧ store (async_unload_entry true hass_after_midnight).1 = None.
Proof.
  destruct (unload_leaves_no_timer cfg0 true hass_after_midnight)
    as (Ht & _ & Hs & _).
  - eapply reachable_step; [apply reachable_setup|apply step_rearm].
  - split; [exact Ht|exact Hs].
Defined.

(** ** What the fetches hand to the normalisation *)

Lemma dict_set_keys k v d :
  (dict_set k v d).*1 = if bool_decide (k ∈ d.*1) then d.*1 else d.*1 ++ [k].
Proof.
  induction d as [|[k' v'] d IH]; [done|]. cbn [dict_set].
  destruct (String.eqb_spec k' k) as [->|Hne].
  - rewrite !fmap_cons. cbn [fst].
    by rewrite bool_decide_eq_true_2 by apply list_elem_of_here.
  - rewrite !fmap_cons, IH. cbn [fst].
    destruct (bool_decide (k ∈ d.*1)) eqn:Hk.
    + apply bool_decide_eq_true in Hk.
      by rewrite bool_decide_eq_true_2 by by apply list_elem_of_further.
    + apply bool_decide_eq_false in Hk.
      rewrite bool_decide_eq_false_2; [done|].
      intros [?|?]%elem_of_cons; [congruence|done].
Qed.

Lemma dict_set_NoDup k v d : NoDup d.*1 → NoDup (dict_set k v d).*1.
Proof.
  intros Hnd. rewrite dict_set_keys. destruct (bool_decide (k ∈ d.*1)) eqn:Hk; [done|].
  apply bool_decide_eq_false in Hk. apply NoDup_app. split; [done|]. split.
  - intros x Hx ->%list_elem_of_singleton. done.
  - apply NoDup_singleton.
Qed.

Lemma dict_get_set k v d k' :
  dict_get k' (dict_set k v d) = if String.eqb k k' then Some v else dict_get k' d.
Proof.
  induction d as [|[k0 v0] d IH]; simpl.
  - done.
  - destruct (String.eqb_spec k0 k) as [->|Hne]; simpl.
    + by destruct (String.eqb k k').
    + destruct (String.eqb_spec k0 k') as [->|Hne'].
      * destruct (String.eqb_spec k k'); [congruence|done].
      * apply IH.
Qed.

Lemma dict_get_elem k v d :
  NoDup d.*1 → (k, v) ∈ d ↔ dict_get k d = Some v.
Proof.
  induction d as [|[k0 v0] d IH]; cbn [dict_get].
  - intros _. split; [by intros ?%elem_of_nil|done].
  - rewrite fmap_cons. intros [Hnot Hnd]%NoDup_cons. cbn [fst] in Hnot.
    rewrite elem_of_cons. destruct (String.eqb_spec k0 k) as [->|Hne].
    + split.
      * intros [[= ->]|Hin]; [done|].
        exfalso. apply Hnot. by apply (list_elem_of_fmap_2 fst) in Hin.
      * intros [= ->]. by left.
    + rewrite <- IH by done. split.
      * intros [[= ? ?]|?]; [congruence|done].
      * by right.
Qed.

Lemma dict_set_nonempty k v d : dict_set k v d ≠ [].
Proof. destruct d as [|[k' v'] d]; simpl; [done|]. by destruct (String.eqb k' k). Qed.

Lemma pair_loop_zip i headers cells times :
  pair_loop i headers cells times =
  foldl pair_step times (zip headers (drop i cells)).
Proof.
  revert i times. induction headers as [|header rest IH]; intros i times; [done|].
  cbn [pair_loop]. rewrite IH.
  destruct (Nat.ltb_spec i (length cells)) as [Hlt|Hge].
  - destruct (lookup_lt_is_Some_2 cells i Hlt) as [cell Hcell]. rewrite Hcell.
    by rewrite (drop_S cells cell i Hcell).
  - rewrite !drop_ge by lia. by destruct rest.
Qed.

Lemma foldl_pair_step_NoDup ps times :
  NoDup times.*1 → NoDup (foldl pair_step times ps).*1.
Proof.
  revert times. induction ps as [|p ps IH]; intros times Hnd; [done|].
  simpl. apply IH. by apply dict_set_NoDup.
Qed.

Lemma find_snoc {A : Type} (f : A → bool) (l : list A) (x : A) :
  List.find f (l ++ [x]) =
  match List.find f l with
  | Some y => Some y
  | None => if f x then Some x else None
  end.
Proof.
  induction l as [|y l IH]; simpl; [done|]. by destruct (f y).
Qed.

Lemma foldl_pair_step_get k ps times :
  dict_get k (foldl pair_step times ps) =
  match List.find (λ hc, String.eqb (header_key hc.1) k) (rev ps) with
  | Some hc => Some hc.2
  | None => dict_get k times
  end.
Proof.
  revert times. induction ps as [|p ps IH]; intros times; [done|].
  cbn [foldl rev]. rewrite IH, find_snoc.
  destruct (List.find _ (rev ps)); [done|].
  unfold pair_step. rewrite dict_get_set. by destruct (String.eqb _ k).
Qed.

Lemma dict_set_length k v d : (length (dict_set k v d) ≤ S (length d))%nat.
Proof.
  induction d as [|[k' v'] d IH]; simpl; [lia|].
  destruct (String.eqb k' k); simpl; lia.
Qed.

Lemma foldl_pair_step_length ps times :
  (length (foldl pair_step times ps) ≤ length times + length ps)%nat
  ∧ (times ≠ [] ∨ ps ≠ [] → foldl pair_step times ps ≠ []).
Proof.
  revert times. induction ps as [|p ps IH]; intros times; simpl.
  - split; [lia|]. by intros [?|?].
  - destruct (IH (pair_step times p)) as [Hlen Hne]. split.
    + pose proof (dict_set_length (header_key p.1) p.2 times) as Hset.
      unfold pair_step in *. simpl in *. lia.
    + intros _. apply Hne. left. apply dict_set_nonempty.
Qed.

Lemma header_key_cases header :
  ((str_lower header ∈ NAME_MAP.*1) ∧ (header_key header ∈ PRAYER_ORDER))
  ∨ ((str_lower header ∉ NAME_MAP.*1) ∧ header_key header = header).
Proof.
  unfold header_key.
  destruct (decide (str_lower header ∈ NAME_MAP.*1)) as [Hin|Hnot].
  - left. split; [done|]. unfold NAME_MAP in Hin. simpl in Hin.
    rewrite !elem_of_cons, elem_of_nil in Hin.
    destruct Hin as [->|[->|[->|[->|[->|[->|[->|[->|[]]]]]]]]];
      apply (bool_decide_unpack _); vm_compute; exact I.
  - right. split; [done|].
    assert (Hnone : ∀ d : list (string * string), str_lower header ∉ d.*1 →
              dict_get (str_lower header) d = None).
    { induction d as [|[k v] d IH]; [done|]. rewrite fmap_cons. cbn [fst dict_get].
      intros [Hne Hd]%not_elem_of_cons.
      destruct (String.eqb_spec k (str_lower header)); [congruence|by apply IH]. }
    by rewrite (Hnone NAME_MAP Hnot).
Qed.

(** X17.  The mapping built from the Qatar MOI table pairs header [i]
    with cell [i] up to the shorter of the two lists; it is refused
    exactly when there is no pair.  Its keys are distinct, each is the
    canonical name of a known alias (matched without regard to case) or
    the header text itself, and the value of a key is the cell paired
    with the last header that gives this key. *)
Theorem qatar_moi_pairing (headers cells : list string) :
  (qatar_moi_times headers cells = Raise UpdateFailed ↔
   headers = [] ∨ cells = [])
  ∧ ∀ times, qatar_moi_times headers cells = Ok times →
      NoDup times.*1
      ∧ (length times ≤ length headers `min` length cells)%nat
      ∧ (∀ k v, (k, v) ∈ times ↔
                ∃ header,
                  List.find (λ hc, String.eqb (header_key hc.1) k)
                    (rev (zip headers cells)) = Some (header, v))
      ∧ (∀ k, k ∈ times.*1 →
              k ∈ PRAYER_ORDER ∨ (k ∈ headers ∧ str_lower k ∉ NAME_MAP.*1)).
Proof.
  unfold qatar_moi_times. rewrite pair_loop_zip, drop_0.
  set (ps := zip headers cells).
  assert (Hps : ps = [] ↔ headers = [] ∨ cells = []).
  { unfold ps. destruct headers, cells; simpl; split; try done; auto.
    intros [?|?]; done. }
  split.
  - destruct (foldl pair_step [] ps) as [|e l] eqn:Hf.
    + split; [|done]. intros _. apply Hps.
      destruct ps as [|p ps']; [done|]. exfalso.
      by apply (proj2 (foldl_pair_step_length (p :: ps') [])); [right|].
    + split; [done|]. intros Hempty%Hps. by rewrite Hempty in Hf.
  - intros times Htimes.
    assert (Heq : times = foldl pair_step [] ps)
      by (destruct (foldl pair_step [] ps); [done|by injection Htimes]).
    clear Htimes. subst times.
    assert (Hnd : NoDup (foldl pair_step [] ps).*1)
      by (apply foldl_pair_step_NoDup; constructor).
    split; [done|]. split.
    { pose proof (proj1 (foldl_pair_step_length ps [])) as Hlen.
      unfold ps in Hlen at 2. rewrite length_zip in Hlen. simpl in Hlen. lia. }
    split.
    + intros k v. rewrite dict_get_elem by done. rewrite foldl_pair_step_get.
      destruct (List.find _ (rev ps)) as [[header c]|]; simpl.
      * split; [intros [= ->]; by exists header|by intros (? & [= _ ->])].
      * split; [done|by intros (? & ?)].
    + intros k (e & -> & He)%list_elem_of_fmap. destruct e as [k v].
      apply dict_get_elem in He; [|done]. rewrite foldl_pair_step_get in He.
      destruct (List.find _ (rev ps)) as [[header c]|] eqn:Hfind; [|done].
      apply find_some in Hfind as [Hin Hk]. simpl in Hk.
      apply String.eqb_eq in Hk. simpl. subst k.
      destruct (header_key_cases header) as [[_ ?]|[Hnot Hsame]]; [by left|].
      right. rewrite Hsame. split; [|done].
      apply in_rev, list_elem_of_In in Hin.
      apply list_elem_of_lookup in Hin as [i Hi]. unfold ps in Hi.
      apply lookup_zip_with_Some in Hi as (x & y & [= <- <-] & Hx & _).
      by eapply list_elem_of_lookup_2.
Qed.

Lemma qatar_moi_pairing_witness :
  NoDup [("Fajr", "03:15"); ("Sunrise", "04:45"); ("Dhuhr", "11:36");
         ("Asr", "03:00"); ("Maghrib", "06:27"); ("Isha", "07:57")].*1.
Proof.
  apply (proj2 (qatar_moi_pairing
                  ["Fajer"; "Sunrise"; "ZUHR"; "Asr"; "Maghrib"; "Isha"; "Date"]
                  ["03:15"; "04:45"; "11:36"; "03:00"; "06:27"; "07:57"])).
  reflexivity.
Defined.

(** X18.  The mapping taken from an AlAdhan answer exists exactly when
    the six canonical keys are present; it then lists these six keys in
    canonical order with the values of the answer, whatever else the
    answer holds, and sorting it by prayer order leaves it unchanged. *)
Theorem aladhan_times_canonical (timings : gmap string string) :
  (is_Some (aladhan_times timings) ↔
   ∀ k, k ∈ PRAYER_ORDER → is_Some (timings !! k))
  ∧ ∀ raw, aladhan_times timings = Some raw →
      raw.*1 = PRAYER_ORDER
      ∧ (∀ k v, (k, v) ∈ raw ↔ k ∈ PRAYER_ORDER ∧ timings !! k = Some v)
      ∧ sorted_by sort_key raw = raw.
Proof.
  unfold aladhan_times. split.
  - split.
    + intros [raw Hraw] k Hk.
      destruct (timings !! "Fajr") eqn:H1; [|done].
      destruct (timings !! "Sunrise") eqn:H2; [|done].
      destruct (timings !! "Dhuhr") eqn:H3; [|done].
      destruct (timings !! "Asr") eqn:H4; [|done].
      destruct (timings !! "Maghrib") eqn:H5; [|done].
      destruct (timings !! "Isha") eqn:H6; [|done].
      unfold PRAYER_ORDER in Hk. rewrite !elem_of_cons, elem_of_nil in Hk.
      destruct Hk as [->|[->|[->|[->|[->|[->|[]]]]]]]; by eexists.
    + intros Hall.
      assert (∀ k, k ∈ PRAYER_ORDER → k ∈ PRAYER_ORDER) as Hid by done.
      destruct (Hall "Fajr") as [? ->];
        [apply (bool_decide_unpack _); vm_compute; exact I|].
      destruct (Hall "Sunrise") as [? ->];
        [apply (bool_decide_unpack _); vm_compute; exact I|].
      destruct (Hall "Dhuhr") as [? ->];
        [apply (bool_decide_unpack _); vm_compute; exact I|].
      destruct (Hall "Asr") as [? ->];
        [apply (bool_decide_unpack _); vm_compute; exact I|].
      destruct (Hall "Maghrib") as [? ->];
        [apply (bool_decide_unpack _); vm_compute; exact I|].
      destruct (Hall "Isha") as [? ->];
        [apply (bool_decide_unpack _); vm_compute; exact I|].
      by eexists.
  - intros raw.
    destruct (timings !! "Fajr") as [v1|] eqn:H1; [|done].
    destruct (timings !! "Sunrise") as [v2|] eqn:H2; [|done].
    destruct (timings !! "Dhuhr") as [v3|] eqn:H3; [|done].
    destruct (timings !! "Asr") as [v4|] eqn:H4; [|done].
    destruct (timings !! "Maghrib") as [v5|] eqn:H5; [|done].
    destruct (timings !! "Isha") as [v6|] eqn:H6; [|done].
    simpl. intros [= <-]. split; [done|]. split; [|done].
    intros k v. unfold PRAYER_ORDER. rewrite !elem_of_cons, !elem_of_nil. split.
    + intros [[= -> ->]|[[= -> ->]|[[= -> ->]|[[= -> ->]|[[= -> ->]|[[= -> ->]|[]]]]]]];
        (split; [tauto|done]).
    + intros [[->|[->|[->|[->|[->|[->|[]]]]]]] Hv];
        rewrite Hv in *; simplify_eq; tauto.
Qed.

Lemma aladhan_times_canonical_witness :
  aladhan_times timings_example = Some raw_aladhan_summer
  ∧ sorted_by sort_key raw_aladhan_summer = raw_aladhan_summer.
Proof.
  assert (H : aladhan_times timings_example = Some raw_aladhan_summer)
    by (vm_compute; reflexivity).
  split; [exact H|].
  apply (proj2 (aladhan_times_canonical timings_example) raw_aladhan_summer H).
Defined.

(** ** Annotated time strings *)

Lemma plain_char c :
  Py.is_digit c || Ascii.eqb c ":" = true →
  Py.is_space c = false ∧ Ascii.eqb c " " = false ∧ Ascii.eqb c "(" = false.
Proof.
  destruct c as [[] [] [] [] [] [] [] []]; vm_compute; intros H;
    first [discriminate H | repeat split].
Qed.

Lemma append_empty_r s : s +:+ "" = s.
Proof.
  induction s as [|c s IH]; [done|].
  change (String c (s +:+ "") = String c s). by rewrite IH.
Qed.

Lemma lstrip_plain s t :
  plainb s = true → s ≠ "" → Py.lstrip (s +:+ t) = s +:+ t.
Proof.
  destruct s as [|c s]; [done|].
  intros [Hc _]%andb_true_iff _.
  change (String c s +:+ t) with (String c (s +:+ t)).
  cbn [Py.lstrip].
  by destruct (plain_char c Hc) as (-> & _).
Qed.

Lemma rstrip_plain s t :
  plainb s = true → Py.rstrip (s +:+ t) = s +:+ Py.rstrip t.
Proof.
  induction s as [|c s IH]; [done|].
  intros [Hc Hs]%andb_true_iff.
  change (String c s +:+ t) with (String c (s +:+ t)).
  change (String c s +:+ Py.rstrip t) with (String c (s +:+ Py.rstrip t)).
  cbn [Py.rstrip]. rewrite IH by done.
  by destruct (plain_char c Hc) as (-> & _).
Qed.

Lemma split_plain_app (sep : ascii) s r :
  plainb s = true → sep = " "%char ∨ sep = "("%char →
  Py.split sep (s +:+ r) =
  match Py.split sep r with
  | w :: ws => (s +:+ w) :: ws
  | [] => [s]
  end.
Proof.
  intros Hs Hsep. induction s as [|c s IH].
  - change ("" +:+ r) with r. pose proof (split_nonempty sep r) as Hr.
    by destruct (Py.split sep r) as [|w ws].
  - apply andb_true_iff in Hs as [Hc Hs].
    destruct (plain_char c Hc) as (_ & Hsp & Hpar).
    change (String c s +:+ r) with (String c (s +:+ r)).
    cbn [Py.split].
    replace (Ascii.eqb c sep) with false by (by destruct Hsep as [->| ->]).
    rewrite IH by done. pose proof (split_nonempty sep r) as Hr.
    by destruct (Py.split sep r) as [|w ws].
Qed.

Lemma lstrip_plain_self s : plainb s = true → s ≠ "" → Py.lstrip s = s.
Proof.
  intros Hs Hne. pose proof (lstrip_plain s "" Hs Hne) as H.
  rewrite append_empty_r in H. exact H.
Qed.

Lemma rstrip_plain_self s : plainb s = true → Py.rstrip s = s.
Proof.
  intros Hs. pose proof (rstrip_plain s "" Hs) as H.
  change (Py.rstrip "") with "" in H. rewrite !append_empty_r in H. exact H.
Qed.

Lemma split_plain_self (sep : ascii) s :
  plainb s = true → sep = " "%char ∨ sep = "("%char → Py.split sep s = [s].
Proof.
  intros Hs Hsep. pose proof (split_plain_app sep s "" Hs Hsep) as H.
  change (Py.split sep "") with [""] in H. cbv iota in H.
  rewrite !append_empty_r in H. exact H.
Qed.

Lemma strip_plain s : plainb s = true → s ≠ "" → Py.strip s = s.
Proof.
  intros Hs Hne. unfold Py.strip.
  rewrite lstrip_plain_self by done. by rewrite rstrip_plain_self.
Qed.

Lemma clean_time_plain s : plainb s = true → s ≠ "" → clean_time s = Ok s.
Proof.
  intros Hs Hne. unfold clean_time. rewrite strip_plain by done.
  rewrite (split_plain_self " " s) by auto.
  unfold Py.subscript. simpl.
  rewrite (split_plain_self "(" s) by auto. simpl.
  by rewrite strip_plain.
Qed.

Lemma clean_time_space s suffix :
  plainb s = true → s ≠ "" → clean_time (s +:+ String " " suffix) = Ok s.
Proof.
  intros Hs Hne. rewrite <- (clean_time_plain s Hs Hne).
  unfold clean_time, Py.strip.
  rewrite lstrip_plain by done. rewrite rstrip_plain by done.
  rewrite (split_plain_app " " s) by auto.
  rewrite (lstrip_plain_self s) by done. rewrite (rstrip_plain_self s) by done.
  rewrite (split_plain_self " " s) by auto.
  cbn [Py.rstrip].
  destruct (Py.is_space " " && Py.is_empty (Py.rstrip suffix)).
  - simpl. by rewrite append_empty_r.
  - simpl. destruct (Py.split " " (Py.rstrip suffix));
      simpl; by rewrite append_empty_r.
Qed.

Lemma clean_time_paren s suffix :
  plainb s = true → s ≠ "" → clean_time (s +:+ String "(" suffix) = Ok s.
Proof.
  intros Hs Hne. rewrite <- (clean_time_plain s Hs Hne).
  unfold clean_time, Py.strip.
  rewrite lstrip_plain by done. rewrite rstrip_plain by done.
  rewrite (split_plain_app " " s) by auto.
  rewrite (lstrip_plain_self s) by done. rewrite (rstrip_plain_self s) by done.
  rewrite (split_plain_self " " s) by auto.
  cbn [Py.rstrip]. simpl (Py.is_space "(" && _).
  cbn [Py.split]. simpl (Ascii.eqb "(" " ").
  pose proof (split_nonempty " " (Py.rstrip suffix)) as Hne'.
  destruct (Py.split " " (Py.rstrip suffix)) as [|w ws]; [done|].
  unfold Py.subscript. simpl lookup. cbn [mbind res_bind].
  rewrite (split_plain_app "(" s (String "(" w)) by auto.
  rewrite (split_plain_self "(" s) by auto.
  simpl. by rewrite append_empty_r.
Qed.

Lemma render_plain_check_all :
  forallb (λ hh, forallb (render_plain_check hh) (seqZ 0 60)) (seqZ 0 24) = true.
Proof. vm_compute. reflexivity. Qed.

Lemma render_hhmm_plain hh mm :
  0 ≤ hh ≤ 23 → 0 ≤ mm ≤ 59 →
  plainb (render_hhmm hh mm) = true ∧ render_hhmm hh mm ≠ "".
Proof.
  intros Hh Hm. pose proof render_plain_check_all as Hall.
  rewrite forallb_forall in Hall.
  assert (Hhin : In hh (seqZ 0 24)) by (apply list_elem_of_In, elem_of_seqZ; lia).
  specialize (Hall hh Hhin). rewrite forallb_forall in Hall.
  assert (Hmin : In mm (seqZ 0 60)) by (apply list_elem_of_In, elem_of_seqZ; lia).
  specialize (Hall mm Hmin). unfold render_plain_check in Hall.
  apply andb_true_iff in Hall as [Hp Hne]. split; [done|].
  intros Heq. rewrite Heq in Hne. done.
Qed.

(** X19.  Whatever follows a time "HH:MM" after a space or an opening
    parenthesis (a time-zone annotation, an AM/PM token) is ignored: the
    hour and minute read are (HH, MM) and the entry built is the one
    built from "HH:MM" alone. *)
Theorem annotation_ignored (hh mm : Z) (suffix : string) :
  0 ≤ hh ≤ 23 → 0 ≤ mm ≤ 59 →
  parse_hour_minute (render_hhmm hh mm +:+ String " " suffix) = Ok (Some (hh, mm))
  ∧ parse_hour_minute (render_hhmm hh mm +:+ String "(" suffix) = Ok (Some (hh, mm))
  ∧ ∀ now config nm,
      parse_entry now config nm (render_hhmm hh mm +:+ String " " suffix)
      = parse_entry now config nm (render_hhmm hh mm)
      ∧ parse_entry now config nm (render_hhmm hh mm +:+ String "(" suffix)
        = parse_entry now config nm (render_hhmm hh mm).
Proof.
  intros Hh Hm. destruct (render_hhmm_plain hh mm Hh Hm) as [Hp Hne].
  pose proof (parse_hour_minute_render hh mm Hh Hm) as Hparse.
  assert (H1 : parse_hour_minute (render_hhmm hh mm +:+ String " " suffix)
               = parse_hour_minute (render_hhmm hh mm)).
  { unfold parse_hour_minute.
    by rewrite clean_time_space, clean_time_plain. }
  assert (H2 : parse_hour_minute (render_hhmm hh mm +:+ String "(" suffix)
               = parse_hour_minute (render_hhmm hh mm)).
  { unfold parse_hour_minute.
    by rewrite clean_time_paren, clean_time_plain. }
  split; [by rewrite H1|]. split; [by rewrite H2|].
  intros now config nm. unfold parse_entry. by rewrite H1, H2.
Qed.

Lemma annotation_ignored_witness :
  parse_hour_minute "05:12 (EST)" = Ok (Some (5, 12))
  ∧ parse_hour_minute "05:12(+03)" = Ok (Some (5, 12)).
Proof.
  destruct (annotation_ignored 5 12 "(EST)") as (H1 & _); [lia|lia|].
  destruct (annotation_ignored 5 12 "+03)") as (_ & H2 & _); [lia|lia|].
  split; [exact H1|exact H2].
Defined.

(** ** The reset timer *)

(** X20.  When a reset timer fires it leaves the pending set and nothing
    else does; no task is created, no service is called and the played
    set is kept.  If the prayer it was armed for is still the one
    playing, the status goes back to idle (or downloading); otherwise,
    as after a stop, the store is left as it is. *)
Theorem reset_timer_fires (env : Env) (config : Config) (t : Timer) (h : Hass)
  (st : Store) (nm : string) :
  timers_ok h → store h = Some st → t ∈ timers h →
  callback t = ResetPlaying nm →
  let h' := fire env config t h in
  (∀ t', t' ∈ timers h' ↔ t' ∈ timers h ∧ t' ≠ t)
  ∧ played_of h' = played_of h
  ∧ tasks h' = tasks h ∧ service_calls h' = service_calls h
  ∧ (currently_playing st = Some nm →
     status_native_value h'
     = (if is_downloading st then "downloading" else "idle")
     ∧ ∃ st', store h' = Some st' ∧ currently_playing st' = None)
  ∧ (currently_playing st ≠ Some nm → store h' = store h).
Proof.
  intros Hok Hst Ht Hcb h'. subst h'. unfold fire. rewrite Hcb.
  unfold reset_playing. cbn [cancel store]. rewrite Hst.
  destruct Hok as (_ & Hnd & _).
  assert (Htimers : ∀ t', t' ∈ filter (λ t0, handle t0 ≠ handle t) (timers h)
                          ↔ t' ∈ timers h ∧ t' ≠ t).
  { intros t'. rewrite list_elem_of_filter. split.
    - intros [Hh Hin]. split; [done|]. by intros ->.
    - intros [Hin Hne]. split; [|done]. intros Heq. apply Hne.
      by apply (same_handle_same_timer (timers h)). }
  destruct (bool_decide (currently_playing st = Some nm)) eqn:Hcur.
  - apply bool_decide_eq_true_1 in Hcur. simpl.
    split; [exact Htimers|]. split; [by unfold played_of; simpl; rewrite Hst|].
    split; [done|]. split; [done|]. split; [|done].
    intros _. unfold status_native_value. simpl. split; [done|]. by eexists.
  - apply bool_decide_eq_false_1 in Hcur. simpl.
    split; [exact Htimers|]. split; [by unfold played_of; simpl; rewrite Hst|].
    split; [done|]. split; [done|]. split; [done|]. done.
Qed.

Lemma reset_timer_fires_witness :
  status_native_value hass_playing_fajr = "playing"
  ∧ status_native_value
      (fire (env0 (at_hm 0 5 5) false) cfg_speaker timer_reset_fajr
         hass_playing_fajr) = "idle".
Proof.
  split; [vm_compute; reflexivity|].
  assert (Hok : timers_ok hass_playing_fajr).
  { apply timers_ok_play_azan. apply (reachable_timers_ok cfg0).
    eapply reachable_step; [|apply step_rearm].
    eapply (reachable_step cfg0 (initial_hass (Some data_sunrise_enabled)));
      [apply reachable_setup|].
    exact (step_background cfg0 (initial_hass (Some data_sunrise_enabled))
             (entry_store (Some data_sunrise_enabled))
             (store0 (Some data_sunrise_enabled)) eq_refl eq_refl eq_refl). }
  assert (Hin : timer_reset_fajr ∈ timers hass_playing_fajr).
  { assert (∃ rest, timers hass_playing_fajr = timer_reset_fajr :: rest) as [rest ->]
      by (eexists; vm_compute; reflexivity).
    apply list_elem_of_here. }
  destruct (reset_timer_fires (env0 (at_hm 0 5 5) false) cfg_speaker
              timer_reset_fajr hass_playing_fajr _ "Fajr" Hok eq_refl Hin eq_refl)
    as (_ & _ & _ & _ & Hplay & _).
  destruct Hplay as [Hs _]; [vm_compute; reflexivity|]. exact Hs.
Defined.
